(** * ShopSpider (pokemon_products.py): extraction, clean-up and export

    A shallow embedding of the spider's helpers ([clean_text],
    [parse_price]), of its page callback ([parse]) and of its finalizer
    ([closed]), with the properties of the pipeline stated over them.

    Text.  A Python [str] is modelled as a [string] whose characters are the
    code points below 256.  On that range the character classes of Python
    are the ones written out below: [\s] and [str.strip] use [str.isspace],
    [\d] is the ten ASCII digits.

    Collaborators.  [ftfy.fix_text] is a library function; every definition
    that calls it takes it as the section variable [fix_text].  The Scrapy
    selectors are modelled by what the spider reads from them.  Of openpyxl
    the model keeps what it does to the value of a cell: a string is cut to
    32767 characters and refused when it holds an illegal control
    character; a number is kept as it is.  What a spreadsheet application
    displays for a number under its number format is not part of the
    program and is not modelled. *)

From Stdlib Require Import ZArith NArith Ascii String List Lia QArith Qabs.
From Stdlib Require Import Floats.SpecFloat DecimalString DecimalPos.
From stdpp Require Import base list gmap strings sets sorting.

Local Open Scope Z_scope.
#[local] Set Warnings "-clear-no-such-hyp".

(** ** Python truthiness on strings *)

(** [s or d] for a string [s]. *)
Definition str_or (s d : string) : string :=
  match s with
  | EmptyString => d
  | String _ _ => s
  end.

(** [o or d] where [o] may be [None]. *)
Definition opt_or (o : option string) (d : string) : string :=
  match o with
  | None => d
  | Some s => str_or s d
  end.

Definition NA : string := "N/A".

(** ** Character classes *)

Definition code (c : ascii) : N := N_of_ascii c.

(** [str.isspace] on one character: TAB..CR, FS..US, SPACE, NEL, NBSP. *)
Definition isspace (c : ascii) : bool :=
  let n := code c in
  ((9 <=? n) && (n <=? 13) || (28 <=? n) && (n <=? 32)
   || (n =? 133) || (n =? 160))%N.

(** [\d] *)
Definition isdigit (c : ascii) : bool :=
  let n := code c in ((48 <=? n) && (n <=? 57))%N.

Definition space : ascii := " "%char.
Definition comma : ascii := ","%char.
Definition dot : ascii := "."%char.

(** ** Whitespace normalisation: [re.sub(r"\s+", " ", text).strip()] *)

(** The scan of [re.sub]: every maximal run of whitespace becomes one space.
    [in_run] says that the previous character was whitespace. *)
Fixpoint re_sub_ws_from (in_run : bool) (s : string) : string :=
  match s with
  | EmptyString => EmptyString
  | String c s' =>
      if isspace c
      then if in_run then re_sub_ws_from true s'
           else String space (re_sub_ws_from true s')
      else String c (re_sub_ws_from false s')
  end.

Definition re_sub_ws (s : string) : string := re_sub_ws_from false s.

Fixpoint lstrip (s : string) : string :=
  match s with
  | EmptyString => EmptyString
  | String c s' => if isspace c then lstrip s' else s
  end.

Fixpoint rstrip (s : string) : string :=
  match s with
  | EmptyString => EmptyString
  | String c s' =>
      match rstrip s' with
      | EmptyString => if isspace c then EmptyString else String c EmptyString
      | r => String c r
      end
  end.

Definition strip (s : string) : string := rstrip (lstrip s).

(** The text handed to [fix_text] by [clean_text]. *)
Definition normalize_ws (s : string) : string := strip (re_sub_ws s).

(** ** What the whitespace claims say about a string *)

Definition no_ws_run (s : string) : Prop :=
  ∀ p a b q, s = p +:+ String a (String b q) →
             ¬ (isspace a = true ∧ isspace b = true).

Definition no_leading_ws (s : string) : Prop :=
  ∀ c q, s = String c q → isspace c = false.

Definition no_trailing_ws (s : string) : Prop :=
  ∀ p c, s = p +:+ String c EmptyString → isspace c = false.

Definition ws_normal (s : string) : Prop :=
  no_ws_run s ∧ no_leading_ws s ∧ no_trailing_ws s.

(** The same, as a check that runs. *)
Fixpoint no_ws_runb (s : string) : bool :=
  match s with
  | String a (String b _ as t) => negb (isspace a && isspace b) && no_ws_runb t
  | _ => true
  end.

Definition headb (s : string) : bool :=
  match s with
  | EmptyString => true
  | String c _ => negb (isspace c)
  end.

Fixpoint lastb (s : string) : bool :=
  match s with
  | EmptyString => true
  | String c EmptyString => negb (isspace c)
  | String _ t => lastb t
  end.

Definition ws_normalb (s : string) : bool :=
  no_ws_runb s && headb s && lastb s.

(** ** ftfy's removal of control characters

    One step of [fix_text]'s default configuration
    ([remove_control_chars]): it deletes U+0000..U+0008, U+000B,
    U+000E..U+001F and U+007F.  On a text of printable ASCII characters,
    spaces and such control characters, with no [&] and no ESC, it is the
    only step of [fix_text] that changes anything. *)

Definition is_control_char (c : ascii) : bool :=
  let n := code c in
  ((n <=? 8) || (n =? 11) || (14 <=? n) && (n <=? 31) || (n =? 127))%N.

Fixpoint remove_control_chars (s : string) : string :=
  match s with
  | EmptyString => EmptyString
  | String c s' =>
      if is_control_char c then remove_control_chars s'
      else String c (remove_control_chars s')
  end.

(** ** Exceptions *)

Inductive exn : Type := ValueError.

Inductive result (A : Type) : Type :=
  | Ok (a : A)
  | Raise (e : exn).
Arguments Ok {A} a.
Arguments Raise {A} e.

#[global] Instance result_ret : MRet result := λ A a, Ok a.

#[global] Instance result_bind : MBind result := λ A B k r,
  match r with
  | Ok a => k a
  | Raise e => Raise e
  end.

(** The value of a computation that did not raise. *)
Definition ok_value {A} (r : result A) : option A :=
  match r with
  | Ok a => Some a
  | Raise _ => None
  end.

(** [try: x = body / except Exception: handler], then [k x]. *)
Definition try_except {A B} (body : result A) (handler : exn → result B)
    (k : A → result B) : result B :=
  match body with
  | Ok a => k a
  | Raise e => handler e
  end.

(** ** Python floats: IEEE 754 binary64

    A float is a [spec_float] of precision 53 and maximal exponent 1024; the
    rounding is the library's round-to-nearest-even ([SFdiv]). *)

Definition pyfloat : Type := spec_float.

(** The double nearest to [n / 10^k]. *)
Definition float_of_decimal (n : N) (k : nat) : pyfloat :=
  match n with
  | N0 => S754_zero false
  | Npos p =>
      SFdiv 53 1024 (S754_finite false p 0)
        (S754_finite false (Z.to_pos (10 ^ Z.of_nat k)) 0)
  end.

(** The exact value of a finite float. *)
Definition float_value (f : pyfloat) : option Q :=
  match f with
  | S754_zero _ => Some (0 # 1)%Q
  | S754_finite s m e =>
      let v := if 0 <=? e then (Zpos m * 2 ^ e # 1)%Q
               else (Zpos m # Z.to_pos (2 ^ (- e)))%Q in
      Some (if s then Qopp v else v)
  | _ => None
  end.

Fixpoint digits_to_N (s : string) (acc : N) : option N :=
  match s with
  | EmptyString => Some acc
  | String c s' =>
      if isdigit c then digits_to_N s' (10 * acc + (code c - 48))%N
      else None
  end.

(** The text before the first dot and, when there is one, the text after. *)
Fixpoint split_dot (s : string) : string * option string :=
  match s with
  | EmptyString => (EmptyString, None)
  | String c s' =>
      if Ascii.eqb c dot then (EmptyString, Some s')
      else let '(a, b) := split_dot s' in (String c a, b)
  end.

(** [float(s)] for a text [s] of digits and dots, the only texts
    [parse_price] converts (lemma [num_str_chars]): a numeral with at least
    one digit and at most one dot is read and rounded, anything else is a
    [ValueError]. *)
Definition py_float (s : string) : result pyfloat :=
  match split_dot s with
  | (ip, None) =>
      match ip, digits_to_N ip 0 with
      | String _ _, Some n => Ok (float_of_decimal n 0)
      | _, _ => Raise ValueError
      end
  | (ip, Some fp) =>
      match ip +:+ fp, digits_to_N (ip +:+ fp) 0 with
      | String _ _, Some n => Ok (float_of_decimal n (String.length fp))
      | _, _ => Raise ValueError
      end
  end.

(** *** Formatting with [,.2f] *)

(** [m * 2^e * 100] rounded to the nearest integer, ties to even. *)
Definition cents_of (m : positive) (e : Z) : Z :=
  if 0 <=? e then 100 * Zpos m * 2 ^ e
  else
    let d := 2 ^ (- e) in
    let n := 100 * Zpos m in
    let q := n / d in
    match Z.compare (2 * (n mod d)) d with
    | Lt => q
    | Gt => q + 1
    | Eq => if Z.even q then q else q + 1
    end.

Definition decimal_digits (z : Z) : string :=
  NilEmpty.string_of_uint (N.to_uint (Z.to_N z)).

(** A comma before every group of three digits, counted from the right. *)
Fixpoint group_thousands (s : string) : string :=
  match s with
  | EmptyString => EmptyString
  | String c s' =>
      let n := String.length s' in
      if (Nat.eqb (n mod 3) 0 && negb (Nat.eqb n 0))%nat
      then String c (String comma (group_thousands s'))
      else String c (group_thousands s')
  end.

Definition two_digits (z : Z) : string :=
  if z <? 10 then String "0"%char (decimal_digits z) else decimal_digits z.

Definition format_cents (cents : Z) : string :=
  group_thousands (decimal_digits (cents / 100))
    +:+ String dot (two_digits (cents mod 100)).

Definition sign_prefix (s : bool) (t : string) : string :=
  if s then String "-"%char t else t.

(** [f"{num:,.2f}"] *)
Definition format_2f (num : pyfloat) : string :=
  match num with
  | S754_zero s => sign_prefix s (format_cents 0)
  | S754_finite s m e => sign_prefix s (format_cents (cents_of m e))
  | S754_infinity s => sign_prefix s "inf"
  | S754_nan => "nan"
  end.

(** ** The number token: [re.search(r"[\d\.,]+", text)] *)

(** The character class [[\d\.,]]. *)
Definition is_price_char (c : ascii) : bool :=
  isdigit c || Ascii.eqb c dot || Ascii.eqb c comma.

(** The longest prefix made of class characters. *)
Fixpoint take_price_chars (s : string) : string :=
  match s with
  | EmptyString => EmptyString
  | String c s' =>
      if is_price_char c then String c (take_price_chars s')
      else EmptyString
  end.

(** [m.group(0)] of the search, [None] when nothing matches: the leftmost
    class character and the whole run that follows it. *)
Fixpoint re_search_price (s : string) : option string :=
  match s with
  | EmptyString => None
  | String c s' =>
      if is_price_char c then Some (String c (take_price_chars s'))
      else re_search_price s'
  end.

(** [s.replace(",", "")] *)
Fixpoint remove_commas (s : string) : string :=
  match s with
  | EmptyString => EmptyString
  | String c s' =>
      if Ascii.eqb c comma then remove_commas s'
      else String c (remove_commas s')
  end.

(** ** The decimal-number pattern of the specification

    The specification words the pattern as digits, then groups of a comma
    and digits, then optionally a dot and digits:
    [\d+(,\d+)*(\.\d+)?].  [spec_number_match] is the leftmost match of that
    pattern, each part taken as long as possible. *)

Fixpoint take_digits (s : string) : string :=
  match s with
  | EmptyString => EmptyString
  | String c s' => if isdigit c then String c (take_digits s') else EmptyString
  end.

Fixpoint drop_digits (s : string) : string :=
  match s with
  | EmptyString => EmptyString
  | String c s' => if isdigit c then drop_digits s' else s
  end.

(** [(,\d+)*] from the start of [s]; [fuel] bounds the number of groups. *)
Fixpoint spec_comma_groups (fuel : nat) (s : string) : string * string :=
  match fuel, s with
  | S fuel', String c (String d s'') =>
      if Ascii.eqb c comma && isdigit d
      then let '(g, rest) := spec_comma_groups fuel' (drop_digits s'') in
           (String c (String d (take_digits s'')) +:+ g, rest)
      else (EmptyString, s)
  | _, _ => (EmptyString, s)
  end.

(** [(\.\d+)?] from the start of [s]. *)
Definition spec_fraction (s : string) : string :=
  match s with
  | String c (String d s'') =>
      if Ascii.eqb c dot && isdigit d
      then String c (String d (take_digits s''))
      else EmptyString
  | _ => EmptyString
  end.

(** The match that starts at the start of [s], which begins with a digit. *)
Definition spec_match_here (s : string) : string :=
  let ds := take_digits s in
  let '(gs, rest) := spec_comma_groups (String.length s) (drop_digits s) in
  ds +:+ gs +:+ spec_fraction rest.

Fixpoint spec_number_match (s : string) : option string :=
  match s with
  | EmptyString => None
  | String c s' =>
      if isdigit c then Some (spec_match_here s) else spec_number_match s'
  end.

(** ** Selectors

    What the spider reads from one element of a selector list. *)
Record selector : Type := {
  sel_html : string;            (* [.get()]: the element, serialised *)
  sel_text : list string;       (* [.xpath("text()")]: its own text nodes *)
  sel_currency : list string    (* the texts of its currency-symbol spans *)
}.

(** [SelectorList.get(default=d)] over the texts selected. *)
Definition get_default (texts : list string) (d : string) : string :=
  match texts with
  | [] => d
  | t :: _ => t
  end.

(** [" ".join(parts)] *)
Fixpoint join_space (parts : list string) : string :=
  match parts with
  | [] => EmptyString
  | [p] => p
  | p :: rest => p +:+ String space (join_space rest)
  end.

(** ** The spider *)

(** One record of [self.items]. *)
Record item : Type := {
  Name : string;
  PriceDisplay : string;
  PriceNumeric : option pyfloat;
  Image : string
}.

(** [self.items] is an [OrderedDict]: its entries in insertion order, one
    per key. *)
Definition ordered_dict : Type := list (nat * item).

(** [d[k] = v]: a key already there keeps its place, a new key goes last. *)
Fixpoint od_set (d : ordered_dict) (k : nat) (v : item) : ordered_dict :=
  match d with
  | [] => [(k, v)]
  | (k', v') :: d' =>
      if Nat.eqb k' k then (k, v) :: d' else (k', v') :: od_set d' k v
  end.

Definition od_keys (d : ordered_dict) : list nat := map fst d.
Definition od_values (d : ordered_dict) : list item := map snd d.

Record spider : Type := {
  items : ordered_dict;
  seq : nat;
  currency_symbol : string;
  csv_file : string;
  xlsx_file : string
}.

(** [__init__]; [today] is [datetime.now().strftime("%Y-%m-%d")]. *)
Definition init (today : string) : spider := {|
  items := [];
  seq := 0;
  currency_symbol := "$";
  csv_file := "pokemon_" +:+ today +:+ ".csv";
  xlsx_file := "pokemon_" +:+ today +:+ ".xlsx"
|}.

(** One [li.product.type-product] element, by what [parse] selects in it. *)
Record product : Type := {
  title_texts : list string;     (* h2.woocommerce-loop-product__title::text *)
  price_block : list selector;   (* span.woocommerce-Price-amount.amount *)
  image_srcs : list string       (* img.attachment-woocommerce_thumbnail::attr(src) *)
}.

Record response : Type := {
  url : string;
  products : list product;
  next_hrefs : list string       (* a.next.page-numbers, a.next: attr(href) *)
}.

Section Spider.

(** [ftfy.fix_text] and [response.urljoin] *)
Variable fix_text : string → string.
Variable urljoin : string → string → string.

(** [ShopSpider.clean_text]; [None] stands for a missing text. *)
Definition clean_text (text : option string) : string :=
  match text with
  | None => EmptyString
  | Some EmptyString => EmptyString
  | Some t => fix_text (strip (re_sub_ws t))
  end.

(** The amount text [parse_price] searches. *)
Definition amount_text (price_block : list selector) : string :=
  let amount_text_nodes := concat (map sel_text price_block) in
  let amount_text :=
    opt_or (match strip (join_space amount_text_nodes) with
            | EmptyString => sel_html <$> head price_block
            | t => Some t
            end) EmptyString in
  fix_text amount_text.

(** [ShopSpider.parse_price] *)
Definition parse_price (self : spider) (price_block : list selector)
    : result (string * option pyfloat) :=
  match price_block with
  | [] => mret (NA, None)
  | _ =>
      let currency :=
        strip (get_default (concat (map sel_currency price_block))
                 EmptyString) in
      let currency := fix_text (str_or currency (currency_symbol self)) in
      let amount_text := amount_text price_block in
      match re_search_price amount_text with
      | None => mret (NA, None)
      | Some m =>
          let num_str := remove_commas m in
          try_except (py_float num_str)
            (λ _, mret (NA, None))
            (λ num,
               let display := currency_symbol self +:+ format_2f num in
               mret (display, Some num))
      end
  end.

(** The [record] built for one product. *)
Definition product_record (self : spider) (p : product) : result item :=
  let name := clean_text (Some (get_default (title_texts p) EmptyString)) in
  '(price_display, price_num) ← parse_price self (price_block p);
  let image := clean_text (Some (get_default (image_srcs p) EmptyString)) in
  mret {|
    Name := str_or name EmptyString;
    PriceDisplay := str_or price_display EmptyString;
    PriceNumeric := price_num;
    Image := str_or image EmptyString
  |}.

(** The body of the loop of [parse], for one product. *)
Definition parse_product (self : spider) (p : product) : result spider :=
  let seq' := S (seq self) in
  record ← product_record self p;
  mret {|
    items := od_set (items self) seq' record;
    seq := seq';
    currency_symbol := currency_symbol self;
    csv_file := csv_file self;
    xlsx_file := xlsx_file self
  |}.

Fixpoint parse_products (self : spider) (ps : list product)
    : result spider :=
  match ps with
  | [] => mret self
  | p :: ps' => self' ← parse_product self p; parse_products self' ps'
  end.

(** [ShopSpider.parse]: the spider after the page, and the URL of the
    request it yields, if any.  [urljoin] is taken as a total function: a
    link that it or [scrapy.Request] refuses ends [parse] after the loop,
    when the records of the page are stored. *)
Definition parse (self : spider) (r : response)
    : result (spider * option string) :=
  self' ← parse_products self (products r);
  match head (next_hrefs r) with
  | Some (String c h) => mret (self', Some (urljoin (url r) (String c h)))
  | _ => mret (self', None)
  end.

(** The callback run on each response of a crawl, one after the other
    ([CONCURRENT_REQUESTS] is 1 and a page yields at most one request). *)
Fixpoint crawl (self : spider) (pages : list response) : result spider :=
  match pages with
  | [] => mret self
  | r :: pages' => '(self', _) ← parse self r; crawl self' pages'
  end.

End Spider.

(** ** Finalisation: [closed] *)

(** One dict of [cleaned]. *)
Record row : Type := {
  row_Name : string;
  row_Price : string;
  row_PriceNumeric : option pyfloat;
  row_Image : string
}.

Definition row_tuple (r : row) : string * string * string :=
  (row_Name r, row_Price r, row_Image r).

(** [v == "N/A" or v == "" or v is None] for a string [v]. *)
Definition is_blank (v : string) : bool :=
  String.eqb v NA || String.eqb v EmptyString.

(** The condition of the comprehension that builds [filtered]. *)
Definition keep_row (r : row) : bool :=
  negb (forallb is_blank [row_Name r; row_Price r; row_Image r]).

(** *** The delimited file *)

Definition quote : ascii := ascii_of_nat 34.
Definition CR : ascii := ascii_of_nat 13.
Definition LF : ascii := ascii_of_nat 10.

(** The csv dialect: every quote of a field is doubled. *)
Fixpoint double_quotes (s : string) : string :=
  match s with
  | EmptyString => EmptyString
  | String c s' =>
      if Ascii.eqb c quote then String quote (String quote (double_quotes s'))
      else String c (double_quotes s')
  end.

(** [QUOTE_ALL] *)
Definition csv_field (s : string) : string :=
  String quote (double_quotes s +:+ String quote EmptyString).

Fixpoint join_comma (fields : list string) : string :=
  match fields with
  | [] => EmptyString
  | [f] => f
  | f :: rest => f +:+ String comma (join_comma rest)
  end.

(** One line of the file, with the line terminator of the dialect. *)
Definition csv_line (fields : list string) : string :=
  join_comma (map csv_field fields) +:+ String CR (String LF EmptyString).

(** The dict handed to [writer.writerow], in the order of [keys_csv]. *)
Definition csv_record (r : row) : list string :=
  [str_or (row_Name r) NA; str_or (row_Price r) NA; str_or (row_Image r) NA].

Definition keys_csv : list string := ["Name"; "Price"; "Image"].

Fixpoint concat_str (l : list string) : string :=
  match l with
  | [] => EmptyString
  | s :: l' => s +:+ concat_str l'
  end.

Definition csv_text (filtered : list row) : string :=
  csv_line keys_csv +:+ concat_str (map (λ r, csv_line (csv_record r)) filtered).

(** UTF-8 of one code point below 256. *)
Definition utf8_char (c : ascii) : list Byte.byte :=
  let n := N_of_ascii c in
  if (n <? 128)%N then [byte_of_ascii c]
  else [byte_of_ascii (ascii_of_N (192 + n / 64));
        byte_of_ascii (ascii_of_N (128 + n mod 64))].

Fixpoint utf8 (s : string) : list Byte.byte :=
  match s with
  | EmptyString => []
  | String c s' => utf8_char c ++ utf8 s'
  end.

(** [encoding="utf-8-sig"]: the byte-order mark, then the text. *)
Definition utf8_sig (s : string) : list Byte.byte :=
  [Byte.xef; Byte.xbb; Byte.xbf] ++ utf8 s.

(** *** The spreadsheet *)

Inductive cell_value : Type :=
  | VStr (s : string)
  | VNum (f : pyfloat).

Inductive font_style : Type := FontDefault | FontHeader | FontNA.
Inductive fill_style : Type := FillNone | FillHeader | FillAlt.

(** A cell and the styles [closed] sets on it; [V] is the type of the
    value the column holds. *)
Record cell (V : Type) : Type := {
  value : V;
  number_format : string;
  font : font_style;
  fill : fill_style;
  border : bool;
  centered : bool
}.
Arguments value {V} c.
Arguments number_format {V} c.
Arguments font {V} c.
Arguments fill {V} c.
Arguments border {V} c.
Arguments centered {V} c.

Definition General : string := "General".

Definition header_cell (h : string) : cell string := {|
  value := h; number_format := General; font := FontHeader;
  fill := FillHeader; border := true; centered := true |}.

Definition row_fill (r_idx : nat) : fill_style :=
  if Nat.even r_idx then FillAlt else FillNone.

(** What openpyxl does with a string handed to [ws.cell(value=...)]
    ([Cell.check_string]): it keeps the first 32767 characters,
    [value[:32767]], and raises [IllegalCharacterError] when one of them is
    matched by [[\000-\010]|[\013-\014]|[\016-\037]]. *)

(** [s[:n]] *)
Fixpoint str_take (n : N) (s : string) : string :=
  match s with
  | EmptyString => EmptyString
  | String c s' =>
      if (n =? 0)%N then EmptyString else String c (str_take (N.pred n) s')
  end.

Definition max_cell_length : N := 32767.

(** The string the cell keeps. *)
Definition cell_string (v : string) : string := str_take max_cell_length v.

Definition illegal_character (c : ascii) : bool :=
  let n := code c in
  ((n <=? 8) || (11 <=? n) && (n <=? 12) || (14 <=? n) && (n <=? 31))%N.

Fixpoint has_illegal_character (s : string) : bool :=
  match s with
  | EmptyString => false
  | String c s' => illegal_character c || has_illegal_character s'
  end.

(** [ws.cell(value=v)] raises [IllegalCharacterError]. *)
Definition refused (v : string) : bool :=
  has_illegal_character (cell_string v).

(** The Name and Image cells of a data row, as the sheet keeps them when
    the string is not refused. *)
Definition text_cell (r_idx : nat) (v : string) : cell string := {|
  value := cell_string (str_or v NA);
  number_format := General;
  font := if String.eqb (cell_string (str_or v NA)) NA
          then FontNA else FontDefault;
  fill := row_fill r_idx; border := true; centered := false |}.

(** The Price cell of a data row. *)
Definition price_cell (self : spider) (r_idx : nat) (r : row)
    : cell cell_value :=
  match row_PriceNumeric r with
  | Some num => {|
      value := VNum num;
      number_format := currency_symbol self +:+ "#,##0.00";
      font := FontDefault;
      fill := row_fill r_idx; border := true; centered := false |}
  | None => {|
      value := VStr NA;
      number_format := General;
      font := FontNA;
      fill := row_fill r_idx; border := true; centered := false |}
  end.

Record sheet_row : Type := {
  cell_name : cell string;
  cell_price : cell cell_value;
  cell_img : cell string
}.

(** [for r_idx, r in enumerate(filtered, start=r_idx)] *)
Fixpoint sheet_rows (self : spider) (r_idx : nat) (filtered : list row)
    : list sheet_row :=
  match filtered with
  | [] => []
  | r :: rest =>
      {| cell_name := text_cell r_idx (row_Name r);
         cell_price := price_cell self r_idx r;
         cell_img := text_cell r_idx (row_Image r) |}
      :: sheet_rows self (S r_idx) rest
  end.

(** The text the auto-fit step takes for a cell of the Price column:
    [f"{self.currency_symbol}{cell.value:,.2f}"] for a number, the string
    itself otherwise.  This is the formatting of Python; the number format
    of the cell is not interpreted. *)
Definition price_cell_text (self : spider) (c : cell cell_value) : string :=
  match value c with
  | VNum f => currency_symbol self +:+ format_2f f
  | VStr s => s
  end.

(** The same for a cell of the Name or Image column: [str(cell.value or "")]. *)
Definition text_cell_text (c : cell string) : string := value c.

(** The note of the metadata row: the source and the time of writing. *)
Record note : Type := {
  note_source : string;
  note_time : string
}.

(** The sheet [closed] fills.  The widths of the columns and the range of
    the filter are left out. *)
Record worksheet : Type := {
  ws_title : string;
  ws_header : list (cell string);
  ws_rows : list sheet_row;
  ws_freeze_panes : string;
  ws_meta_row : nat;
  ws_meta : note;
  ws_merged_columns : nat
}.

Inductive file : Type :=
  | CsvFile (bytes : list Byte.byte)
  | XlsxFile (ws : worksheet).

Section Closed.

Variable fix_text : string → string.

(** The fields [closed] computes from one record of [self.items]. *)
Definition clean_row (it : item) : row :=
  let name := str_or (clean_text fix_text (Some (Name it))) NA in
  let image := str_or (clean_text fix_text (Some (Image it))) NA in
  let price_display := str_or (PriceDisplay it) NA in
  let price_num := PriceNumeric it in
  {| row_Name := name; row_Price := price_display;
     row_PriceNumeric := price_num; row_Image := image |}.

(** One turn of the loop over [self.items]: [seen] and [cleaned] before
    and after. *)
Definition dedup_step
    (st : gset (string * string * string) * list row) (e : nat * item)
    : gset (string * string * string) * list row :=
  let '(seen, cleaned) := st in
  let r := clean_row (snd e) in
  if decide (row_tuple r ∈ seen) then (seen, cleaned)
  else ({[row_tuple r]} ∪ seen, cleaned ++ [r]).

Definition cleaned_rows (d : ordered_dict) : list row :=
  snd (fold_left dedup_step d (∅, [])).

Definition filtered_rows (d : ordered_dict) : list row :=
  List.filter keep_row (cleaned_rows d).

Definition workbook (self : spider) (now : string) (filtered : list row)
    : worksheet := {|
  ws_title := "Products";
  ws_header := map header_cell ["Name"; "Price"; "Image"];
  ws_rows := sheet_rows self 2 filtered;
  ws_freeze_panes := "A2";
  ws_meta_row := length filtered + 3;
  ws_meta := {| note_source := "https://scrapeme.live/shop/";
                note_time := now |};
  ws_merged_columns := 3
|}.

(** The loop over [filtered] that fills the sheet stops with an
    [IllegalCharacterError] when the Name or the Image of a row is refused;
    the strings of the header, of the Price column and of the note never
    are. *)
Definition rows_refused (filtered : list row) : bool :=
  existsb (λ r, refused (str_or (row_Name r) NA)
                || refused (str_or (row_Image r) NA)) filtered.

(** [ShopSpider.closed]: the files after the call.  [now] is the time the
    note is stamped with, [fs] the files before the call.  Both files are
    removed, then the delimited file is written; the spreadsheet is saved
    last, and only when no cell was refused: otherwise the exception leaves
    [closed] before [wb.save]. *)
Definition closed (self : spider) (reason : string) (now : string)
    (fs : gmap string file) : gmap string file :=
  let filtered := filtered_rows (items self) in
  let fs := delete (xlsx_file self) (delete (csv_file self) fs) in
  let fs := <[csv_file self := CsvFile (utf8_sig (csv_text filtered))]> fs in
  if rows_refused filtered then fs
  else <[xlsx_file self := XlsxFile (workbook self now filtered)]> fs.

(** [closed] ends with an exception. *)
Definition closed_raises (self : spider) : bool :=
  rows_refused (filtered_rows (items self)).

(** What each export shows, row by row. *)
Definition csv_shown (filtered : list row) : list (list string) :=
  map csv_record filtered.

Definition xlsx_shown (self : spider) (filtered : list row)
    : list (list string) :=
  map (λ sr, [text_cell_text (cell_name sr);
              price_cell_text self (cell_price sr);
              text_cell_text (cell_img sr)])
      (sheet_rows self 2 filtered).

End Closed.

(** A whole run: the crawl of the pages, then [closed]; the result is the
    files after the run, also when [closed] ended with the exception of a
    refused cell ([closed_raises]). *)
Definition run (fix_text : string → string)
    (urljoin : string → string → string)
    (today : string) (pages : list response)
    (reason now : string) (fs : gmap string file)
    : result (gmap string file) :=
  self ← crawl fix_text urljoin (init today) pages;
  mret (closed fix_text self reason now fs).


(** ** The loop of [closed], entry by entry

    [dedup_from seen d] is what the loop appends to [cleaned] on the
    entries [d] when it starts with the set [seen]. *)
Fixpoint dedup_from (fix_text : string → string)
    (seen : gset (string * string * string)) (d : ordered_dict) : list row :=
  match d with
  | [] => []
  | e :: d' =>
      let r := clean_row fix_text (snd e) in
      if decide (row_tuple r ∈ seen) then dedup_from fix_text seen d'
      else r :: dedup_from fix_text ({[row_tuple r]} ∪ seen) d'
  end.

(** The dedup key of an entry, and the keys of a list of entries. *)
Definition entry_key (fix_text : string → string) (e : nat * item)
    : string * string * string :=
  row_tuple (clean_row fix_text (snd e)).

Definition entry_keys (fix_text : string → string) (d : ordered_dict)
    : gset (string * string * string) :=
  list_to_set (map (entry_key fix_text) d).

(** ** Invariants of the crawl *)

(** The display and the number of a record go together, as [parse_price]
    returns them. *)
Definition price_consistent (cur : string) (display : string)
    (num : option pyfloat) : Prop :=
  match num with
  | Some f => display = cur +:+ format_2f f
  | None => display = NA
  end.

Definition spider_inv (self : spider) : Prop :=
  currency_symbol self = "$"
  ∧ od_keys (items self) = List.seq 1 (seq self)
  ∧ Forall (λ e, price_consistent "$" (PriceDisplay (snd e))
                   (PriceNumeric (snd e))) (items self).

(** What the loop of [parse] over the products [ps] does to the spider:
    one record more per product, in their order, and nothing else. *)
Definition extends (fix_text : string → string)
    (self self' : spider) (ps : list product) : Prop :=
  ∃ recs,
    Forall2 (λ p it, product_record fix_text self p = Ok it) ps recs
    ∧ od_values (items self') = od_values (items self) ++ recs
    ∧ seq self' = (seq self + length ps)%nat
    ∧ currency_symbol self' = currency_symbol self
    ∧ csv_file self' = csv_file self
    ∧ xlsx_file self' = xlsx_file self.

(** A row as [closed] has it after a crawl: no empty field, and the
    display is the one of the number. *)
Definition row_ok (r : row) : Prop :=
  row_Name r ≠ EmptyString ∧ row_Price r ≠ EmptyString
  ∧ row_Image r ≠ EmptyString
  ∧ price_consistent "$" (row_Price r) (row_PriceNumeric r).

(** A field that is neither empty nor the sentinel. *)
Definition real_value (v : string) : Prop := v ≠ NA ∧ v ≠ EmptyString.

(** ** Shapes of texts, for the statements about [parse_price] *)

(** Every character of [s] satisfies [P]. *)
Fixpoint all_chars (P : ascii → bool) (s : string) : bool :=
  match s with
  | EmptyString => true
  | String c s' => P c && all_chars P s'
  end.

(** [s] starts with a character that satisfies [P]. *)
Definition starts_with (P : ascii → bool) (s : string) : bool :=
  match s with
  | EmptyString => false
  | String c _ => P c
  end.

Definition not_price_char (c : ascii) : bool := negb (is_price_char c).
Definition not_digit (c : ascii) : bool := negb (isdigit c).

(** One digit or more. *)
Definition digits1 (s : string) : Prop :=
  s ≠ EmptyString ∧ all_chars isdigit s = true.

(** [(,\d+)*] *)
Inductive comma_groups : string → Prop :=
  | cg_nil : comma_groups EmptyString
  | cg_cons ds g :
      digits1 ds → comma_groups g → comma_groups (String comma (ds +:+ g)).

(** A whole text of the form [\d+(,\d+)*(\.\d+)?]. *)
Inductive decimal_number : string → Prop :=
  | dn_int ds g :
      digits1 ds → comma_groups g → decimal_number (ds +:+ g)
  | dn_frac ds g fs :
      digits1 ds → comma_groups g → digits1 fs →
      decimal_number (ds +:+ g +:+ String dot fs).

(** A price fragment as the catalogue marks it up: one element whose own
    text is [amount], with a currency span showing [glyph]. *)
Definition price_fragment (glyph amount html : string) : list selector :=
  [{| sel_html := html; sel_text := [amount]; sel_currency := [glyph] |}].

Definition DEL : ascii := ascii_of_nat 127.
Definition pound : string := String (ascii_of_nat 163) EmptyString.

(** ** A sample catalogue

    Two pages: Bulbasaur with a price and Ivysaur without a price element
    on the first, Bulbasaur again on the second. *)
Definition bulbasaur : product := {|
  title_texts := ["Bulbasaur"];
  price_block := price_fragment pound "63.00" "<span>63.00</span>";
  image_srcs := ["img1.png"]
|}.

Definition ivysaur : product := {|
  title_texts := ["Ivysaur"];
  price_block := [];
  image_srcs := ["img2.png"]
|}.

(** A product element with no title, no price element and no image. *)
Definition nameless : product := {|
  title_texts := [];
  price_block := [];
  image_srcs := []
|}.

Definition page1 : response := {|
  url := "https://scrapeme.live/shop/";
  products := [bulbasaur; ivysaur];
  next_hrefs := ["page/2/"]
|}.

Definition page2 : response := {|
  url := "https://scrapeme.live/shop/page/2/";
  products := [bulbasaur];
  next_hrefs := []
|}.

Definition page3 : response := {|
  url := "https://scrapeme.live/shop/page/3/";
  products := [nameless; bulbasaur];
  next_hrefs := []
|}.

(** Records as the sample crawl stores them; [bulbasaur_again] shows the
    same price from a number that differs in its third decimal. *)
Definition bulbasaur_item : item := {|
  Name := "Bulbasaur"; PriceDisplay := "$63.00";
  PriceNumeric := Some (float_of_decimal 6300 2); Image := "img1.png" |}.

Definition ivysaur_item : item := {|
  Name := "Ivysaur"; PriceDisplay := "N/A";
  PriceNumeric := None; Image := "img2.png" |}.

Definition bulbasaur_again : item := {|
  Name := "Bulbasaur"; PriceDisplay := "$63.00";
  PriceNumeric := Some (float_of_decimal 63001 3); Image := "img1.png" |}.

Definition blank_item : item := {|
  Name := " "; PriceDisplay := EmptyString;
  PriceNumeric := None; Image := EmptyString |}.

(** ** Words

    [text.split()]: the maximal runs of characters that are not whitespace.
    [words_from s] also keeps the run, possibly empty, that starts at the
    first character of [s] and the empty runs between adjacent whitespace
    characters. *)
Fixpoint words_from (s : string) : list string :=
  match s with
  | EmptyString => [EmptyString]
  | String c s' =>
      if isspace c then EmptyString :: words_from s'
      else match words_from s' with
           | w :: rest => String c w :: rest
           | [] => [String c EmptyString]
           end
  end.

Definition nonempty (s : string) : bool :=
  match s with
  | EmptyString => false
  | String _ _ => true
  end.

Definition split_ws (s : string) : list string :=
  List.filter nonempty (words_from s).

(** A word: not empty, no whitespace in it. *)
Definition is_word (w : string) : Prop :=
  w ≠ EmptyString ∧ all_chars (λ c, negb (isspace c)) w = true.

(** ** Shapes of tokens and of displays *)

Fixpoint count_dots (s : string) : nat :=
  match s with
  | EmptyString => 0
  | String c s' => ((if Ascii.eqb c dot then 1 else 0) + count_dots s')%nat
  end.

Definition has_digit (s : string) : bool := negb (all_chars not_digit s).

(** Groups of a comma and exactly three digits. *)
Inductive groups3 : string → Prop :=
  | g3_nil : groups3 EmptyString
  | g3_cons a b c g :
      isdigit a = true → isdigit b = true → isdigit c = true → groups3 g →
      groups3 (String comma (String a (String b (String c g)))).

(** The non-negative finite floats, the ones [float] returns when it
    returns a finite value. *)
Definition finite_nonneg (f : pyfloat) : Prop :=
  match f with
  | S754_zero false | S754_finite false _ _ => True
  | _ => False
  end.

(** What [float] returns on a numeral without a sign: a finite float that
    is not negative, or the positive infinity when the numeral is too
    large for a double. *)
Definition float_result (f : pyfloat) : Prop :=
  finite_nonneg f ∨ f = S754_infinity false.

(** [c] is a hundred times [q] rounded to the nearest integer, a tie going
    to the even one. *)
Definition rounds_to_cents (q : Q) (c : Z) : Prop :=
  (Qabs (inject_Z 100 * q - inject_Z c) <= 1 # 2)%Q
  ∧ ((Qabs (inject_Z 100 * q - inject_Z c) == 1 # 2)%Q → Z.even c = true).

(** The text [s] shows the finite float [num] to the cent: one to three
    digits, groups of a comma and three digits, a dot and two digits, and
    these digits are the numeral of the number of cents nearest to
    [num]. *)
Definition shows_cents (num : pyfloat) (s : string) : Prop :=
  ∃ c first rest fr,
    s = first +:+ rest +:+ String dot fr
    ∧ digits1 first ∧ (String.length first ≤ 3)%nat ∧ groups3 rest
    ∧ all_chars isdigit fr = true ∧ String.length fr = 2%nat
    ∧ 0 ≤ c
    ∧ digits_to_N (remove_commas (first +:+ rest) +:+ fr) 0 = Some (Z.to_N c)
    ∧ ∀ q, float_value num = Some q → rounds_to_cents q c.

(** [f"{num:,.2f}"] as the text [s], for the floats [float] returns. *)
Definition formats_as (num : pyfloat) (s : string) : Prop :=
  (finite_nonneg num ∧ shows_cents num s)
  ∨ (num = S754_infinity false ∧ s = "inf").

(** The first maximal run of digits, commas and dots of the text [t] is
    [tok], between [pre] and [post]. *)
Definition first_run (t pre tok post : string) : Prop :=
  t = pre +:+ tok +:+ post
  ∧ all_chars not_price_char pre = true
  ∧ tok ≠ EmptyString
  ∧ all_chars is_price_char tok = true
  ∧ starts_with is_price_char post = false.

(** A run that is a numeral for [float] once its commas are removed. *)
Definition numeral_run (tok : string) : Prop :=
  has_digit tok = true ∧ (count_dots tok ≤ 1)%nat.

(** The text [t] holds no number for [parse_price]: it has no digit, comma
    or dot at all, or its first run of them is no numeral. *)
Definition no_number (t : string) : Prop :=
  all_chars not_price_char t = true
  ∨ ∃ pre tok post, first_run t pre tok post ∧ ¬ numeral_run tok.

(** The fragments on which [parse_price] has nothing to read. *)
Definition sentinel_case (fix_text : string → string)
    (price_block : list selector) : Prop :=
  price_block = [] ∨ no_number (amount_text fix_text price_block).

(** ** Texts longer than a cell *)

(** [c * n] *)
Definition str_repeat (c : ascii) (n : N) : string :=
  N.iter n (String c) EmptyString.

(** A character that neither the whitespace stage nor the removal of
    control characters touches. *)
Definition plain_char (c : ascii) : bool :=
  negb (isspace c) && negb (is_control_char c).

(** A product with the given title and image address, priced 63.00, and
    the page that lists it alone. *)
Definition titled (title image : string) : product := {|
  title_texts := [title];
  price_block := price_fragment pound "63.00" "<span>63.00</span>";
  image_srcs := [image]
|}.

Definition page_of (p : product) : response := {|
  url := "https://scrapeme.live/shop/";
  products := [p];
  next_hrefs := []
|}.

Definition long_image : string := str_repeat "i" 32768.

Definition long_image_page : response :=
  page_of (titled "Bulbasaur" long_image).

(** A title that holds the control character U+0001, for a repair that
    leaves it there. *)
Definition SOH : ascii := ascii_of_nat 1.
Definition marked_title : string := "a" +:+ String SOH "b".

(** ** [self.items] read by key *)

(** [d[k]], [None] for a key that is not there. *)
Fixpoint od_get (d : ordered_dict) (k : nat) : option item :=
  match d with
  | [] => None
  | (k', v) :: d' => if Nat.eqb k' k then Some v else od_get d' k
  end.

(** The loop of [closed] as it is written: [for seq in self.items.keys()],
    then [it = self.items[seq]]. *)
Definition dedup_step_key (fix_text : string → string) (d : ordered_dict)
    (st : gset (string * string * string) * list row) (k : nat)
    : gset (string * string * string) * list row :=
  match od_get d k with
  | Some it => dedup_step fix_text st (k, it)
  | None => st
  end.

Definition cleaned_rows_by_key (fix_text : string → string)
    (d : ordered_dict) : list row :=
  snd (fold_left (dedup_step_key fix_text d) (od_keys d) (∅, [])).

(** ** Reading the delimited file back

    [read_quoted s] reads a quoted field whose opening quote has just been
    passed: the text up to the closing quote, a doubled quote standing for
    one quote, and what follows the closing quote. *)
Fixpoint read_quoted (s : string) : option (string * string) :=
  match s with
  | EmptyString => None
  | String c s' =>
      if Ascii.eqb c quote then
        match s' with
        | String c' s'' =>
            if Ascii.eqb c' quote
            then match read_quoted s'' with
                 | Some (x, r) => Some (String quote x, r)
                 | None => None
                 end
            else Some (EmptyString, s')
        | EmptyString => Some (EmptyString, EmptyString)
        end
      else match read_quoted s' with
           | Some (x, r) => Some (String c x, r)
           | None => None
           end
  end.

(** UTF-8 read back, for code points below 256: one byte below 128, or a
    lead byte 0xC2 or 0xC3 and a continuation byte. *)
Fixpoint utf8_decode (bs : list Byte.byte) : option string :=
  match bs with
  | [] => Some EmptyString
  | b :: bs' =>
      let n := Byte.to_N b in
      if (n <? 128)%N
      then option_map (String (ascii_of_byte b)) (utf8_decode bs')
      else match bs' with
           | b2 :: bs'' =>
               let n2 := Byte.to_N b2 in
               if ((192 <=? n) && (n <? 196) && (128 <=? n2) && (n2 <? 192))%N
               then option_map
                      (String (ascii_of_N ((n - 192) * 64 + (n2 - 128))))
                      (utf8_decode bs'')
               else None
           | [] => None
           end
  end.

(** ** The widths of the columns

    A number of Python is an [int] or a [float]; [max] and [min] compare
    them by their exact values. *)
Inductive pynum : Type :=
  | PInt (z : Z)
  | PFloat (f : pyfloat).

Inductive exact_value : Type :=
  | XFin (q : Q)
  | XPosInf
  | XNegInf
  | XNaN.

Definition num_value (a : pynum) : exact_value :=
  match a with
  | PInt z => XFin (z # 1)
  | PFloat f =>
      match float_value f, f with
      | Some q, _ => XFin q
      | None, S754_infinity false => XPosInf
      | None, S754_infinity true => XNegInf
      | None, _ => XNaN
      end
  end.

(** [a > b] *)
Definition num_gt (a b : pynum) : bool :=
  match num_value a, num_value b with
  | XFin p, XFin q => negb (Qle_bool p q)
  | XPosInf, XFin _ | XPosInf, XNegInf | XFin _, XNegInf => true
  | _, _ => false
  end.

(** [max(a, b)] and [min(a, b)]: the first argument unless the second is
    greater, respectively smaller. *)
Definition py_max (a b : pynum) : pynum := if num_gt b a then b else a.
Definition py_min (a b : pynum) : pynum := if num_gt a b then b else a.

(** [len(text) * 1.2] *)
Definition text_length_scaled (text : string) : pynum :=
  PFloat (SFmul 53 1024
            (float_of_decimal (N.of_nat (String.length text)) 0)
            (float_of_decimal 12 1)).

(** The width [closed] gives a column, from the texts of its cells. *)
Definition column_width (texts : list string) : pynum :=
  let max_length :=
    fold_left (λ m text, py_max m (text_length_scaled text)) texts (PInt 0) in
  py_max (PInt 12) (py_min max_length (PInt 80)).

(** The texts of the three columns when the widths are set: the header and
    the data rows. *)
Definition column_texts (self : spider) (filtered : list row)
    : list (list string) :=
  let rows := sheet_rows self 2 filtered in
  [ "Name" :: map (λ sr, text_cell_text (cell_name sr)) rows;
    "Price" :: map (λ sr, price_cell_text self (cell_price sr)) rows;
    "Image" :: map (λ sr, text_cell_text (cell_img sr)) rows ].

Definition column_widths (self : spider) (filtered : list row)
    : list pynum :=
  map column_width (column_texts self filtered).

(** * Properties *)

(** ** Strings *)

Lemma append_cons (c : ascii) (s t : string) :
  String c s +:+ t = String c (s +:+ t).
Proof. reflexivity. Qed.

Lemma append_nil_l (t : string) : EmptyString +:+ t = t.
Proof. reflexivity. Qed.

Lemma append_nil_r (s : string) : s +:+ EmptyString = s.
Proof.
  induction s as [|c s IH]; [reflexivity|]. now rewrite append_cons, IH.
Qed.

Lemma append_assoc (a b c : string) : (a +:+ b) +:+ c = a +:+ (b +:+ c).
Proof.
  induction a as [|x a IH]; [reflexivity|]. now rewrite !append_cons, IH.
Qed.

Lemma str_or_nonempty (s d : string) :
  d ≠ EmptyString → str_or s d ≠ EmptyString.
Proof. destruct s; cbn; [tauto | discriminate]. Qed.

Lemma str_or_id (s d : string) : s ≠ EmptyString → str_or s d = s.
Proof. destruct s; cbn; [tauto | reflexivity]. Qed.

(** ** Whitespace normalisation *)

Section Whitespace.

Lemma no_ws_runb_cons (a b : ascii) (t : string) :
  no_ws_runb (String a (String b t))
  = negb (isspace a && isspace b) && no_ws_runb (String b t).
Proof. reflexivity. Qed.

Lemma re_sub_ws_from_shape (b : bool) (s : string) :
  no_ws_runb (re_sub_ws_from b s) = true
  ∧ (b = true → headb (re_sub_ws_from b s) = true).
Proof.
  revert b; induction s as [|c s IH]; intros b; cbn [re_sub_ws_from].
  - split; reflexivity.
  - destruct (isspace c) eqn:Hc.
    + destruct b.
      * apply IH.
      * split; [|discriminate].
        destruct (IH true) as [Hrun Hhead].
        specialize (Hhead eq_refl).
        destruct (re_sub_ws_from true s) as [|d t]; [reflexivity|].
        cbn in Hhead. rewrite no_ws_runb_cons, Hrun.
        destruct (isspace d); [discriminate|].
        now rewrite andb_false_r.
    + split; [|intros _; cbn; now rewrite Hc].
      destruct (IH false) as [Hrun _].
      destruct (re_sub_ws_from false s) as [|d t]; [reflexivity|].
      now rewrite no_ws_runb_cons, Hc, Hrun.
Qed.

Lemma no_ws_runb_tail (c : ascii) (s : string) :
  no_ws_runb (String c s) = true → no_ws_runb s = true.
Proof.
  destruct s as [|d t]; [reflexivity|]. rewrite no_ws_runb_cons.
  intros H. apply andb_prop in H. tauto.
Qed.

Lemma lstrip_run (s : string) :
  no_ws_runb s = true → no_ws_runb (lstrip s) = true.
Proof.
  induction s as [|c s IH]; intros H; cbn [lstrip]; [reflexivity|].
  destruct (isspace c); [|assumption].
  apply IH. eapply no_ws_runb_tail, H.
Qed.

Lemma lstrip_head (s : string) : headb (lstrip s) = true.
Proof.
  induction s as [|c s IH]; cbn [lstrip]; [reflexivity|].
  destruct (isspace c) eqn:Hc; [assumption|]. cbn. now rewrite Hc.
Qed.

Lemma rstrip_cases (c : ascii) (s : string) :
  rstrip (String c s) = String c (rstrip s)
  ∨ (rstrip (String c s) = EmptyString ∧ rstrip s = EmptyString
     ∧ isspace c = true).
Proof.
  cbn [rstrip]. destruct (rstrip s) as [|d t]; [|now left].
  destruct (isspace c); [right | left]; auto.
Qed.

Lemma rstrip_run (s : string) :
  no_ws_runb s = true → no_ws_runb (rstrip s) = true.
Proof.
  induction s as [|c s IH]; intros H; [reflexivity|].
  destruct (rstrip_cases c s) as [-> | (-> & _ & _)]; [|reflexivity].
  pose proof (IH (no_ws_runb_tail _ _ H)) as IH'.
  destruct s as [|d t]; [reflexivity|].
  destruct (rstrip_cases d t) as [E | (E & _ & _)];
    rewrite E in *; [|reflexivity].
  rewrite no_ws_runb_cons in H |- *. apply andb_prop in H as [H _].
  now rewrite H, IH'.
Qed.

Lemma rstrip_head (s : string) : headb s = true → headb (rstrip s) = true.
Proof.
  destruct s as [|c s]; [reflexivity|]. intros H.
  destruct (rstrip_cases c s) as [-> | (_ & _ & Hc)]; [exact H|].
  cbn in H. now rewrite Hc in H.
Qed.

Lemma rstrip_last (s : string) : lastb (rstrip s) = true.
Proof.
  induction s as [|c s IH]; [reflexivity|].
  cbn [rstrip]. destruct (rstrip s) as [|d t] eqn:E.
  - destruct (isspace c) eqn:Hc; cbn; [reflexivity | now rewrite Hc].
  - exact IH.
Qed.

Lemma normalize_ws_normalb (s : string) : ws_normalb (normalize_ws s) = true.
Proof.
  unfold ws_normalb, normalize_ws, strip, re_sub_ws.
  destruct (re_sub_ws_from_shape false s) as [Hrun _].
  rewrite (rstrip_run _ (lstrip_run _ Hrun)).
  rewrite (rstrip_head _ (lstrip_head _)).
  now rewrite rstrip_last.
Qed.

(** The check is sound for the three properties it stands for. *)
Lemma no_ws_runb_sound (s : string) : no_ws_runb s = true → no_ws_run s.
Proof.
  intros H p; revert s H; induction p as [|x p IH]; intros s H a b q E.
  - rewrite append_nil_l in E; subst s. rewrite no_ws_runb_cons in H.
    apply andb_prop in H as [H _]. intros [Ha Hb].
    now rewrite Ha, Hb in H.
  - rewrite append_cons in E; subst s. eapply IH; [|reflexivity].
    eapply no_ws_runb_tail, H.
Qed.

Lemma headb_sound (s : string) : headb s = true → no_leading_ws s.
Proof.
  intros H c q ->. cbn in H. now destruct (isspace c).
Qed.

Lemma lastb_sound (s : string) : lastb s = true → no_trailing_ws s.
Proof.
  intros H p; revert s H; induction p as [|x p IH]; intros s H c E.
  - rewrite append_nil_l in E; subst s. cbn in H. now destruct (isspace c).
  - rewrite append_cons in E; subst s. eapply IH; [|reflexivity].
    cbn [lastb] in H. destruct (p +:+ String c EmptyString) eqn:E'; [|exact H].
    destruct p; discriminate.
Qed.

Lemma ws_normalb_sound (s : string) : ws_normalb s = true → ws_normal s.
Proof.
  unfold ws_normalb. intros H.
  apply andb_prop in H as [H H3]. apply andb_prop in H as [H1 H2].
  repeat split;
    [now apply no_ws_runb_sound | now apply headb_sound
    | now apply lastb_sound].
Qed.

Lemma normalize_ws_normal (s : string) : ws_normal (normalize_ws s).
Proof. apply ws_normalb_sound, normalize_ws_normalb. Qed.

End Whitespace.

(** C3.  [clean_text] does not always return a text without whitespace
    runs.  With ftfy's removal of control characters as the repair, the
    text "a", space, DEL, space, "b" is cleaned to "a", two spaces, "b":
    the repair runs after the collapse and the strip, the run is formed
    by the removal of DEL, and the output has two consecutive whitespace
    characters. *)
Lemma clean_text_ws_run_counterexample :
  clean_text remove_control_chars
    (Some ("a " +:+ String DEL " b")) = "a  b"
  ∧ ¬ ws_normal
        (clean_text remove_control_chars (Some ("a " +:+ String DEL " b"))).
Proof.
  split; [reflexivity|].
  intros [Hrun _].
  apply (Hrun "a" space space "b"); [reflexivity|].
  split; reflexivity.
Qed.

(** What [clean_text] does ensure, for every repair function and every
    input: a missing or empty text is cleaned to the empty string; any
    other text [t] is cleaned to the repair of [normalize_ws t], and
    [normalize_ws t] has no run of two or more whitespace characters and
    no leading or trailing whitespace; hence the output of [clean_text]
    has these properties whenever the repair leaves [normalize_ws t] as it
    is. *)
Theorem clean_text_normalized_before_repair
    (fix_text : string → string) (t : string) :
  clean_text fix_text None = EmptyString
  ∧ clean_text fix_text (Some EmptyString) = EmptyString
  ∧ (t ≠ EmptyString →
     clean_text fix_text (Some t) = fix_text (normalize_ws t))
  ∧ ws_normal (normalize_ws t)
  ∧ (fix_text (normalize_ws t) = normalize_ws t →
     ws_normal (clean_text fix_text (Some t))).
Proof.
  split; [reflexivity|]. split; [reflexivity|].
  split; [destruct t; [tauto | reflexivity]|].
  split; [apply normalize_ws_normal|].
  destruct t as [|c t]; [intros _; apply (normalize_ws_normal EmptyString)|].
  intros E. cbn [clean_text]. fold (normalize_ws (String c t)).
  rewrite E. apply normalize_ws_normal.
Qed.

Lemma clean_text_normalized_before_repair_witness :
  clean_text remove_control_chars (Some "  Poke   Ball ") = "Poke Ball"
  ∧ ws_normal (clean_text remove_control_chars (Some "  Poke   Ball ")).
Proof.
  pose proof (clean_text_normalized_before_repair remove_control_chars
                "  Poke   Ball ") as (_ & _ & H1 & _ & H2).
  split.
  - rewrite H1; [reflexivity | discriminate].
  - apply H2. reflexivity.
Defined.

(** ** The number token and its conversion *)

Section Token.

Lemma all_chars_app (P : ascii → bool) (a b : string) :
  all_chars P (a +:+ b) = all_chars P a && all_chars P b.
Proof.
  induction a as [|c a IH]; [reflexivity|].
  rewrite append_cons. cbn [all_chars]. now rewrite IH, andb_assoc.
Qed.

Lemma all_chars_impl (P Q : ascii → bool) (s : string) :
  (∀ c, P c = true → Q c = true) →
  all_chars P s = true → all_chars Q s = true.
Proof.
  intros HPQ. induction s as [|c s IH]; [reflexivity|].
  cbn [all_chars]. intros H. apply andb_prop in H as [Hc Hs].
  now rewrite (HPQ _ Hc), IH.
Qed.

Lemma take_price_chars_all (s : string) :
  all_chars is_price_char (take_price_chars s) = true.
Proof.
  induction s as [|c s IH]; [reflexivity|]. cbn [take_price_chars].
  destruct (is_price_char c) eqn:Hc; [|reflexivity].
  cbn [all_chars]. now rewrite Hc.
Qed.

Lemma take_price_chars_app (t post : string) :
  all_chars is_price_char t = true →
  starts_with is_price_char post = false →
  take_price_chars (t +:+ post) = t.
Proof.
  intros Ht Hpost. induction t as [|c t IH].
  - rewrite append_nil_l. destruct post as [|d post]; [reflexivity|].
    cbn in Hpost. cbn [take_price_chars]. now rewrite Hpost.
  - cbn [all_chars] in Ht. apply andb_prop in Ht as [Hc Ht].
    rewrite append_cons. cbn [take_price_chars]. now rewrite Hc, IH.
Qed.

(** The search finds the first maximal run of class characters. *)
Lemma re_search_price_app (pre t post : string) :
  all_chars not_price_char pre = true →
  t ≠ EmptyString →
  all_chars is_price_char t = true →
  starts_with is_price_char post = false →
  re_search_price (pre +:+ t +:+ post) = Some t.
Proof.
  intros Hpre Hne Ht Hpost. induction pre as [|c pre IH].
  - rewrite append_nil_l. destruct t as [|c t]; [congruence|].
    cbn [all_chars] in Ht. apply andb_prop in Ht as [Hc Ht].
    rewrite append_cons. cbn [re_search_price].
    now rewrite Hc, take_price_chars_app.
  - cbn [all_chars] in Hpre. apply andb_prop in Hpre as [Hc Hpre].
    rewrite append_cons. cbn [re_search_price].
    unfold not_price_char in Hc. apply negb_true_iff in Hc.
    rewrite Hc. now apply IH.
Qed.

Lemma re_search_price_some (s m : string) :
  re_search_price s = Some m →
  m ≠ EmptyString ∧ all_chars is_price_char m = true.
Proof.
  induction s as [|c s IH]; [discriminate|]. cbn [re_search_price].
  destruct (is_price_char c) eqn:Hc; [|exact IH].
  intros [= <-]. split; [discriminate|].
  cbn [all_chars]. now rewrite Hc, take_price_chars_all.
Qed.

Lemma remove_commas_app (a b : string) :
  remove_commas (a +:+ b) = remove_commas a +:+ remove_commas b.
Proof.
  induction a as [|c a IH]; [reflexivity|].
  rewrite append_cons. cbn [remove_commas].
  destruct (Ascii.eqb c comma); [exact IH|]. now rewrite append_cons, IH.
Qed.

Lemma remove_commas_all (P : ascii → bool) (s : string) :
  all_chars P s = true → all_chars P (remove_commas s) = true.
Proof.
  induction s as [|c s IH]; [reflexivity|]. cbn [all_chars remove_commas].
  intros H. apply andb_prop in H as [Hc Hs].
  destruct (Ascii.eqb c comma); [now apply IH|].
  cbn [all_chars]. now rewrite Hc, IH.
Qed.

Lemma isdigit_not_comma (c : ascii) :
  isdigit c = true → Ascii.eqb c comma = false.
Proof.
  intros H. destruct (Ascii.eqb c comma) eqn:E; [|reflexivity].
  apply Ascii.eqb_eq in E. subst c. discriminate H.
Qed.

Lemma isdigit_not_dot (c : ascii) :
  isdigit c = true → Ascii.eqb c dot = false.
Proof.
  intros H. destruct (Ascii.eqb c dot) eqn:E; [|reflexivity].
  apply Ascii.eqb_eq in E. subst c. discriminate H.
Qed.

Lemma remove_commas_digits (s : string) :
  all_chars isdigit s = true → remove_commas s = s.
Proof.
  induction s as [|c s IH]; [reflexivity|]. cbn [all_chars remove_commas].
  intros H. apply andb_prop in H as [Hc Hs].
  now rewrite (isdigit_not_comma _ Hc), IH.
Qed.

(** What [parse_price] hands to [float]: digits and dots only. *)
Lemma num_str_chars (s m : string) :
  re_search_price s = Some m →
  all_chars (λ c, isdigit c || Ascii.eqb c dot) (remove_commas m) = true.
Proof.
  intros H. apply re_search_price_some in H as [_ H].
  induction m as [|c m IH]; [reflexivity|].
  cbn [all_chars remove_commas] in *. apply andb_prop in H as [Hc Hm].
  destruct (Ascii.eqb c comma) eqn:E; [now apply IH|].
  cbn [all_chars]. rewrite (IH Hm), andb_true_r.
  unfold is_price_char in Hc. now rewrite E, orb_false_r in Hc.
Qed.

Lemma comma_groups_digits (g : string) :
  comma_groups g → all_chars isdigit (remove_commas g) = true.
Proof.
  induction 1 as [|ds g [_ Hds] _ IH]; [reflexivity|].
  cbn [remove_commas]. rewrite Ascii.eqb_refl, remove_commas_app.
  now rewrite all_chars_app, (remove_commas_digits _ Hds), Hds, IH.
Qed.

Lemma digits_to_N_all (s : string) (acc : N) :
  all_chars isdigit s = true → ∃ n, digits_to_N s acc = Some n.
Proof.
  revert acc. induction s as [|c s IH]; intros acc; [now exists acc|].
  cbn [all_chars digits_to_N]. intros H. apply andb_prop in H as [Hc Hs].
  rewrite Hc. now apply IH.
Qed.

Lemma split_dot_digits (s : string) :
  all_chars isdigit s = true → split_dot s = (s, None).
Proof.
  induction s as [|c s IH]; [reflexivity|]. cbn [all_chars split_dot].
  intros H. apply andb_prop in H as [Hc Hs].
  now rewrite (isdigit_not_dot _ Hc), IH.
Qed.

Lemma split_dot_digits_dot (s fs : string) :
  all_chars isdigit s = true →
  split_dot (s +:+ String dot fs) = (s, Some fs).
Proof.
  induction s as [|c s IH]; [reflexivity|]. cbn [all_chars].
  intros H. apply andb_prop in H as [Hc Hs].
  rewrite append_cons. cbn [split_dot].
  now rewrite (isdigit_not_dot _ Hc), IH.
Qed.

Lemma py_float_digits (s : string) :
  s ≠ EmptyString → all_chars isdigit s = true →
  ∃ n, py_float s = Ok (float_of_decimal n 0).
Proof.
  intros Hne Hs. unfold py_float. rewrite (split_dot_digits _ Hs).
  destruct (digits_to_N_all s 0%N Hs) as [n Hn].
  destruct s; [congruence|]. rewrite Hn. now exists n.
Qed.

Lemma py_float_digits_dot (s fs : string) :
  s ≠ EmptyString → all_chars isdigit s = true →
  all_chars isdigit fs = true →
  ∃ n, py_float (s +:+ String dot fs)
       = Ok (float_of_decimal n (String.length fs)).
Proof.
  intros Hne Hs Hfs. unfold py_float. rewrite (split_dot_digits_dot _ _ Hs).
  assert (Hall : all_chars isdigit (s +:+ fs) = true)
    by now rewrite all_chars_app, Hs, Hfs.
  destruct (digits_to_N_all _ 0%N Hall) as [n Hn].
  destruct s; [congruence|]. rewrite append_cons in *. rewrite Hn.
  now exists n.
Qed.

(** A text of the specification's pattern, its commas removed, is a
    numeral [float] reads. *)
Lemma py_float_decimal_number (t : string) :
  decimal_number t →
  ∃ n k, py_float (remove_commas t) = Ok (float_of_decimal n k).
Proof.
  intros [ds g [Hne Hds] Hg | ds g fs [Hne Hds] Hg [_ Hfs]].
  - rewrite remove_commas_app, (remove_commas_digits _ Hds).
    destruct (py_float_digits (ds +:+ remove_commas g)) as [n Hn].
    + destruct ds; [congruence | discriminate].
    + now rewrite all_chars_app, Hds, comma_groups_digits.
    + eauto.
  - rewrite !remove_commas_app, (remove_commas_digits _ Hds).
    cbn [remove_commas].
    replace (Ascii.eqb dot comma) with false by reflexivity.
    rewrite (remove_commas_digits _ Hfs), <- append_assoc.
    destruct (py_float_digits_dot (ds +:+ remove_commas g) fs) as [n Hn].
    + destruct ds; [congruence | discriminate].
    + now rewrite all_chars_app, Hds, comma_groups_digits.
    + exact Hfs.
    + eauto.
Qed.

Lemma split_dot_all (P : ascii → bool) (s : string) :
  all_chars P s = true →
  all_chars P (fst (split_dot s)) = true
  ∧ ∀ f, snd (split_dot s) = Some f → all_chars P f = true.
Proof.
  induction s as [|c s IH]; [split; [reflexivity | discriminate]|].
  cbn [all_chars split_dot]. intros H. apply andb_prop in H as [Hc Hs].
  destruct (Ascii.eqb c dot).
  - split; [reflexivity|]. now intros f [= <-].
  - destruct (split_dot s) as [a b]. destruct (IH Hs) as [Ha Hb].
    cbn [fst snd] in *. split; [|exact Hb]. cbn [all_chars]. now rewrite Hc.
Qed.

Lemma digits_to_N_not_digit (s : string) :
  s ≠ EmptyString → all_chars not_digit s = true →
  digits_to_N s 0 = None.
Proof.
  destruct s as [|c s]; [congruence|]. intros _. cbn [all_chars digits_to_N].
  intros H. apply andb_prop in H as [Hc _].
  unfold not_digit in Hc. apply negb_true_iff in Hc. now rewrite Hc.
Qed.

(** A text without any digit is no numeral. *)
Lemma py_float_no_digit (s : string) :
  all_chars not_digit s = true → py_float s = Raise ValueError.
Proof.
  intros H. unfold py_float.
  destruct (split_dot_all _ _ H) as [Ha Hb].
  destruct (split_dot s) as [ip [fp|]]; cbn [fst snd] in *.
  - specialize (Hb fp eq_refl).
    destruct (ip +:+ fp) as [|c x] eqn:E; [reflexivity|].
    rewrite digits_to_N_not_digit; [reflexivity | discriminate |].
    now rewrite <- E, all_chars_app, Ha, Hb.
  - destruct ip as [|c x]; [reflexivity|].
    now rewrite digits_to_N_not_digit.
Qed.

End Token.

(** ** The pattern of the specification *)

Section SpecPattern.

Lemma not_price_char_parts (c : ascii) :
  is_price_char c = false →
  isdigit c = false ∧ Ascii.eqb c dot = false ∧ Ascii.eqb c comma = false.
Proof.
  unfold is_price_char. intros H.
  apply orb_false_elim in H as [H Hcomma].
  apply orb_false_elim in H as [Hdigit Hdot]. auto.
Qed.

Lemma starts_with_not_price (P : ascii → bool) (post : string) :
  (∀ c, is_price_char c = false → P c = false) →
  starts_with is_price_char post = false → starts_with P post = false.
Proof. intros HP. destruct post as [|c post]; [reflexivity | apply HP]. Qed.

Lemma take_digits_app (ds r : string) :
  all_chars isdigit ds = true → starts_with isdigit r = false →
  take_digits (ds +:+ r) = ds.
Proof.
  intros Hds Hr. induction ds as [|c ds IH].
  - rewrite append_nil_l. destruct r as [|d r]; [reflexivity|].
    cbn in Hr. cbn [take_digits]. now rewrite Hr.
  - cbn [all_chars] in Hds. apply andb_prop in Hds as [Hc Hds].
    rewrite append_cons. cbn [take_digits]. now rewrite Hc, IH.
Qed.

Lemma drop_digits_app (ds r : string) :
  all_chars isdigit ds = true → starts_with isdigit r = false →
  drop_digits (ds +:+ r) = r.
Proof.
  intros Hds Hr. induction ds as [|c ds IH].
  - rewrite append_nil_l. destruct r as [|d r]; [reflexivity|].
    cbn in Hr. cbn [drop_digits]. now rewrite Hr.
  - cbn [all_chars] in Hds. apply andb_prop in Hds as [Hc Hds].
    rewrite append_cons. cbn [drop_digits]. now rewrite Hc, IH.
Qed.

Lemma comma_groups_start (g r : string) :
  comma_groups g → starts_with isdigit r = false →
  starts_with isdigit (g +:+ r) = false.
Proof. intros [|ds g' _ _] Hr; [exact Hr | reflexivity]. Qed.

Lemma str_length_app (a b : string) :
  String.length (a +:+ b) = (String.length a + String.length b)%nat.
Proof.
  induction a as [|c a IH]; [reflexivity|].
  rewrite append_cons. cbn [String.length]. now rewrite IH.
Qed.

Lemma spec_comma_groups_app (g r : string) :
  comma_groups g →
  starts_with isdigit r = false →
  starts_with (λ c, Ascii.eqb c comma) r = false →
  ∀ fuel, (String.length g ≤ fuel)%nat →
          spec_comma_groups fuel (g +:+ r) = (g, r).
Proof.
  intros Hg Hdigit Hcomma.
  induction Hg as [|ds g [Hne Hds] Hg IH]; intros fuel Hfuel.
  - rewrite append_nil_l. destruct fuel as [|fuel]; [reflexivity|].
    destruct r as [|c [|d r]]; try reflexivity.
    cbn in Hcomma. cbn [spec_comma_groups]. now rewrite Hcomma.
  - destruct ds as [|d ds]; [congruence|].
    cbn [all_chars] in Hds. apply andb_prop in Hds as [Hd Hds].
    rewrite !append_cons in *. cbn [String.length] in Hfuel.
    destruct fuel as [|fuel]; [lia|].
    rewrite str_length_app in Hfuel.
    rewrite append_assoc. cbn [spec_comma_groups].
    rewrite Ascii.eqb_refl, Hd. cbn [andb].
    pose proof (comma_groups_start g r Hg Hdigit) as Hstart.
    rewrite (drop_digits_app _ _ Hds Hstart).
    rewrite (take_digits_app _ _ Hds Hstart).
    rewrite IH by lia.
    now rewrite !append_cons.
Qed.

Lemma spec_fraction_none (post : string) :
  starts_with is_price_char post = false → spec_fraction post = EmptyString.
Proof.
  destruct post as [|c [|d post]]; try reflexivity.
  cbn [starts_with spec_fraction]. intros H.
  destruct (not_price_char_parts _ H) as (_ & -> & _). reflexivity.
Qed.

Lemma spec_fraction_digits (fs post : string) :
  digits1 fs → starts_with isdigit post = false →
  spec_fraction (String dot (fs +:+ post)) = String dot fs.
Proof.
  intros [Hne Hfs] Hpost. destruct fs as [|d fs]; [congruence|].
  cbn [all_chars] in Hfs. apply andb_prop in Hfs as [Hd Hfs].
  rewrite append_cons. cbn [spec_fraction].
  rewrite Ascii.eqb_refl, Hd. cbn [andb].
  now rewrite take_digits_app.
Qed.

(** On a text of the pattern followed by a character outside the class,
    the match of the specification is that whole text. *)
Lemma spec_match_here_decimal (t post : string) :
  decimal_number t → starts_with is_price_char post = false →
  spec_match_here (t +:+ post) = t.
Proof.
  intros Ht Hpost.
  assert (Hdigit : starts_with isdigit post = false)
    by (apply starts_with_not_price; [|exact Hpost];
        intros c Hc; apply (not_price_char_parts _ Hc)).
  assert (Hcomma : starts_with (λ c, Ascii.eqb c comma) post = false)
    by (apply starts_with_not_price; [|exact Hpost];
        intros c Hc; apply (not_price_char_parts _ Hc)).
  unfold spec_match_here.
  destruct Ht as [ds g [Hne Hds] Hg | ds g fs [Hne Hds] Hg Hfs].
  - rewrite append_assoc.
    pose proof (comma_groups_start g post Hg Hdigit) as Hstart.
    rewrite (take_digits_app _ _ Hds Hstart).
    rewrite (drop_digits_app _ _ Hds Hstart).
    rewrite spec_comma_groups_app; try assumption.
    + now rewrite spec_fraction_none, append_nil_r.
    + rewrite !str_length_app. lia.
  - rewrite !append_assoc, append_cons.
    set (r := String dot (fs +:+ post)).
    assert (Hr : starts_with isdigit r = false) by reflexivity.
    pose proof (comma_groups_start g r Hg Hr) as Hstart.
    rewrite (take_digits_app _ _ Hds Hstart).
    rewrite (drop_digits_app _ _ Hds Hstart).
    rewrite spec_comma_groups_app; try assumption; try reflexivity.
    + unfold r. now rewrite spec_fraction_digits.
    + rewrite !str_length_app. lia.
Qed.

Lemma decimal_number_starts (t : string) :
  decimal_number t → starts_with isdigit t = true.
Proof.
  intros [ds g [Hne Hds] _ | ds g fs [Hne Hds] _ _];
    (destruct ds as [|d ds]; [congruence|]);
    cbn [all_chars] in Hds; apply andb_prop in Hds as [Hd _];
    rewrite append_cons; exact Hd.
Qed.

Lemma spec_number_match_app (pre t post : string) :
  all_chars not_digit pre = true →
  decimal_number t →
  starts_with is_price_char post = false →
  spec_number_match (pre +:+ t +:+ post) = Some t.
Proof.
  intros Hpre Ht Hpost. induction pre as [|c pre IH].
  - rewrite append_nil_l.
    pose proof (decimal_number_starts _ Ht) as Hstart.
    pose proof (spec_match_here_decimal _ _ Ht Hpost) as Hm.
    destruct t as [|d t]; [discriminate|].
    rewrite append_cons in *. cbn [spec_number_match].
    cbn in Hstart. rewrite Hstart. now rewrite Hm.
  - cbn [all_chars] in Hpre. apply andb_prop in Hpre as [Hc Hpre].
    unfold not_digit in Hc. apply negb_true_iff in Hc.
    rewrite append_cons. cbn [spec_number_match]. rewrite Hc. now apply IH.
Qed.

Lemma decimal_number_price_chars (t : string) :
  decimal_number t →
  t ≠ EmptyString ∧ all_chars is_price_char t = true.
Proof.
  assert (Hd : ∀ s, all_chars isdigit s = true →
                    all_chars is_price_char s = true).
  { intros s. apply all_chars_impl. intros c Hc.
    unfold is_price_char. now rewrite Hc. }
  assert (Hg : ∀ g, comma_groups g → all_chars is_price_char g = true).
  { induction 1 as [|ds g [_ Hds] _ IH]; [reflexivity|].
    cbn [all_chars]. rewrite all_chars_app, (Hd _ Hds), IH. reflexivity. }
  intros Ht. split.
  - pose proof (decimal_number_starts _ Ht). now destruct t.
  - destruct Ht as [ds g [_ Hds] Hcg | ds g fs [_ Hds] Hcg [_ Hfs]].
    + now rewrite all_chars_app, (Hd _ Hds), (Hg _ Hcg).
    + rewrite !all_chars_app. cbn [all_chars].
      now rewrite (Hd _ Hds), (Hg _ Hcg), (Hd _ Hfs).
Qed.

End SpecPattern.

(** ** [parse_price] *)

Section ParsePrice.

Variable fix_text : string → string.

(** [parse_price] on a fragment that is not empty, step by step. *)
Lemma parse_price_nonempty (self : spider) (pb : list selector) :
  pb ≠ [] →
  parse_price fix_text self pb =
    match re_search_price (amount_text fix_text pb) with
    | None => Ok (NA, None)
    | Some m =>
        match py_float (remove_commas m) with
        | Ok num => Ok (currency_symbol self +:+ format_2f num, Some num)
        | Raise _ => Ok (NA, None)
        end
    end.
Proof. destruct pb; [congruence | reflexivity]. Qed.

Lemma dollar_display_not_NA (num : pyfloat) : "$" +:+ format_2f num ≠ NA.
Proof. discriminate. Qed.

End ParsePrice.

(** C9.  [parse_price] returns a pair on every fragment: it never raises.
    When the conversion of the token raises, the pair is ("N/A", none);
    a token without any digit, such as "," or ".", is such a token. *)
Theorem parse_price_total
    (fix_text : string → string) (self : spider) (pb : list selector) :
  (∃ r, parse_price fix_text self pb = Ok r)
  ∧ (∀ m e,
       re_search_price (amount_text fix_text pb) = Some m →
       py_float (remove_commas m) = Raise e →
       parse_price fix_text self pb = Ok (NA, None))
  ∧ (∀ m,
       re_search_price (amount_text fix_text pb) = Some m →
       all_chars not_digit m = true →
       py_float (remove_commas m) = Raise ValueError
       ∧ parse_price fix_text self pb = Ok (NA, None)).
Proof.
  assert (Hraise : ∀ m e,
            re_search_price (amount_text fix_text pb) = Some m →
            py_float (remove_commas m) = Raise e →
            parse_price fix_text self pb = Ok (NA, None)).
  { intros m e Hm He. destruct pb as [|s pb]; [reflexivity|].
    rewrite parse_price_nonempty by discriminate. now rewrite Hm, He. }
  split; [|split].
  - destruct pb as [|s pb]; [now eexists|].
    rewrite parse_price_nonempty by discriminate.
    destruct (re_search_price _); [|now eexists].
    destruct (py_float _); now eexists.
  - exact Hraise.
  - intros m Hm Hnd.
    assert (He : py_float (remove_commas m) = Raise ValueError)
      by now apply py_float_no_digit, remove_commas_all.
    split; [exact He | now apply (Hraise m ValueError)].
Qed.

Lemma parse_price_total_witness :
  parse_price remove_control_chars (init "2024-01-01")
    (price_fragment pound "," "<span>,</span>") = Ok (NA, None)
  ∧ parse_price remove_control_chars (init "2024-01-01")
      (price_fragment pound "." "<span>.</span>") = Ok (NA, None)
  ∧ parse_price remove_control_chars (init "2024-01-01")
      (price_fragment pound "1.2.3" "<span>1.2.3</span>") = Ok (NA, None).
Proof.
  split; [|split].
  - apply (proj2 (proj2 (parse_price_total remove_control_chars
             (init "2024-01-01") (price_fragment pound "," "<span>,</span>")))
             ","); reflexivity.
  - apply (proj2 (proj2 (parse_price_total remove_control_chars
             (init "2024-01-01") (price_fragment pound "." "<span>.</span>")))
             "."); reflexivity.
  - apply (proj1 (proj2 (parse_price_total remove_control_chars
             (init "2024-01-01")
             (price_fragment pound "1.2.3" "<span>1.2.3</span>")))
             "1.2.3" ValueError); reflexivity.
Defined.

(** ** The crawl *)

Section Crawl.

Variable fix_text : string → string.
Variable urljoin : string → string → string.

Lemma str_or_empty (s : string) : str_or s EmptyString = s.
Proof. now destruct s. Qed.

Lemma parse_price_cases (self : spider) (pb : list selector) :
  parse_price fix_text self pb = Ok (NA, None)
  ∨ ∃ num, parse_price fix_text self pb
           = Ok (currency_symbol self +:+ format_2f num, Some num).
Proof.
  destruct pb as [|s pb]; [now left|].
  rewrite parse_price_nonempty by discriminate.
  destruct (re_search_price _); [|now left].
  destruct (py_float _) as [num|]; [right; now exists num | now left].
Qed.

Lemma product_record_ok (self : spider) (p : product) :
  ∃ it, product_record fix_text self p = Ok it
        ∧ price_consistent (currency_symbol self)
            (PriceDisplay it) (PriceNumeric it).
Proof.
  unfold product_record.
  destruct (parse_price_cases self (price_block p)) as [-> | [num ->]];
    eexists; (split; [reflexivity|]); cbn.
  - reflexivity.
  - apply str_or_empty.
Qed.

Lemma product_record_currency (s1 s2 : spider) (p : product) :
  currency_symbol s1 = currency_symbol s2 →
  product_record fix_text s1 p = product_record fix_text s2 p.
Proof.
  intros E. unfold product_record.
  destruct (price_block p) as [|s pb]; [reflexivity|].
  rewrite !parse_price_nonempty by discriminate. now rewrite E.
Qed.

Lemma od_set_fresh (d : ordered_dict) (k : nat) (v : item) :
  k ∉ od_keys d → od_set d k v = d ++ [(k, v)].
Proof.
  induction d as [|[k' v'] d IH]; intros Hk; [reflexivity|].
  cbn [od_set]. cbn in Hk. apply not_elem_of_cons in Hk as [Hne Hk].
  destruct (Nat.eqb_spec k' k); [congruence|]. now rewrite IH.
Qed.

Lemma extends_refl (self : spider) : extends fix_text self self [].
Proof.
  exists []. rewrite app_nil_r, Nat.add_0_r. repeat split; constructor.
Qed.

Lemma extends_trans (s1 s2 s3 : spider) (ps qs : list product) :
  extends fix_text s1 s2 ps → extends fix_text s2 s3 qs →
  extends fix_text s1 s3 (ps ++ qs).
Proof.
  intros (r1 & F1 & V1 & N1 & C1 & P1 & X1) (r2 & F2 & V2 & N2 & C2 & P2 & X2).
  exists (r1 ++ r2). repeat split.
  - apply Forall2_app; [exact F1|].
    eapply Forall2_impl; [exact F2|]. intros p it <-.
    now apply product_record_currency.
  - now rewrite V2, V1, app_assoc.
  - rewrite N2, N1, length_app. lia.
  - congruence.
  - congruence.
  - congruence.
Qed.

Lemma parse_product_spec (self : spider) (p : product) :
  spider_inv self →
  ∃ self', parse_product fix_text self p = Ok self'
           ∧ spider_inv self' ∧ extends fix_text self self' [p].
Proof.
  intros (Hcur & Hkeys & Hcons).
  destruct (product_record_ok self p) as (it & Hit & Hpc).
  unfold parse_product. rewrite Hit. eexists. split; [reflexivity|].
  assert (Hset : od_set (items self) (S (seq self)) it
                 = items self ++ [(S (seq self), it)]).
  { apply od_set_fresh. rewrite Hkeys, list_elem_of_In, in_seq. lia. }
  split; [split; [|split]|exists [it]; repeat split];
    cbn [items seq currency_symbol csv_file xlsx_file]; try rewrite Hset.
  - exact Hcur.
  - unfold od_keys in *. rewrite map_app, Hkeys, seq_S. reflexivity.
  - apply Forall_app. split; [exact Hcons|].
    constructor; [|constructor]. cbn [snd]. now rewrite <- Hcur.
  - now constructor.
  - unfold od_values. now rewrite map_app.
  - cbn [length]. lia.
Qed.

Lemma parse_products_spec (ps : list product) (self : spider) :
  spider_inv self →
  ∃ self', parse_products fix_text self ps = Ok self'
           ∧ spider_inv self' ∧ extends fix_text self self' ps.
Proof.
  revert self. induction ps as [|p ps IH]; intros self Hinv.
  - exists self. split; [reflexivity|]. split; [exact Hinv|].
    apply extends_refl.
  - destruct (parse_product_spec self p Hinv) as (s1 & E1 & I1 & X1).
    destruct (IH s1 I1) as (s2 & E2 & I2 & X2).
    exists s2. cbn [parse_products]. rewrite E1. cbn.
    split; [exact E2|]. split; [exact I2|].
    apply (extends_trans _ _ _ [p] ps X1 X2).
Qed.

Lemma parse_spec (self : spider) (r : response) :
  spider_inv self →
  ∃ self' next, parse fix_text urljoin self r = Ok (self', next)
                ∧ spider_inv self'
                ∧ extends fix_text self self' (products r).
Proof.
  intros Hinv.
  destruct (parse_products_spec (products r) self Hinv) as (s1 & E1 & I1 & X1).
  unfold parse. rewrite E1. cbn.
  destruct (head (next_hrefs r)) as [[|c h]|]; eauto.
Qed.

Lemma crawl_spec (pages : list response) (self : spider) :
  spider_inv self →
  ∃ self', crawl fix_text urljoin self pages = Ok self'
           ∧ spider_inv self'
           ∧ extends fix_text self self' (concat (map products pages)).
Proof.
  revert self. induction pages as [|r pages IH]; intros self Hinv.
  - exists self. split; [reflexivity|]. split; [exact Hinv|].
    apply extends_refl.
  - destruct (parse_spec self r Hinv) as (s1 & nx & E1 & I1 & X1).
    destruct (IH s1 I1) as (s2 & E2 & I2 & X2).
    exists s2. cbn [crawl]. rewrite E1. cbn.
    split; [exact E2|]. split; [exact I2|].
    cbn [map concat]. apply (extends_trans _ _ _ _ _ X1 X2).
Qed.

Lemma init_inv (today : string) : spider_inv (init today).
Proof. repeat split. constructor. Qed.

End Crawl.

(** ** The loop of [closed] *)

Section Finalize.

Variable fix_text : string → string.

Lemma fold_dedup_step (d : ordered_dict)
    (seen : gset (string * string * string)) (acc : list row) :
  snd (fold_left (dedup_step fix_text) d (seen, acc))
  = acc ++ dedup_from fix_text seen d.
Proof.
  revert seen acc. induction d as [|e d IH]; intros seen acc.
  - cbn. now rewrite app_nil_r.
  - cbn [fold_left dedup_from]. unfold dedup_step at 2.
    destruct (decide (row_tuple (clean_row fix_text e.2) ∈ seen)).
    + apply IH.
    + rewrite IH, <- app_assoc. reflexivity.
Qed.

Lemma cleaned_rows_dedup_from (d : ordered_dict) :
  cleaned_rows fix_text d = dedup_from fix_text ∅ d.
Proof. unfold cleaned_rows. now rewrite fold_dedup_step. Qed.

Lemma entry_keys_cons (e : nat * item) (d : ordered_dict) :
  entry_keys fix_text (e :: d)
  = {[entry_key fix_text e]} ∪ entry_keys fix_text d.
Proof. reflexivity. Qed.

Lemma dedup_from_app (a b : ordered_dict)
    (seen : gset (string * string * string)) :
  dedup_from fix_text seen (a ++ b)
  = dedup_from fix_text seen a
    ++ dedup_from fix_text (entry_keys fix_text a ∪ seen) b.
Proof.
  revert seen. induction a as [|e a IH]; intros seen.
  - cbn [app dedup_from]. f_equal. unfold entry_keys. cbn. set_solver.
  - rewrite <- app_comm_cons. cbn [dedup_from].
    fold (entry_key fix_text e). rewrite entry_keys_cons.
    destruct (decide (entry_key fix_text e ∈ seen)) as [Hin | Hout].
    + rewrite IH. do 2 f_equal. set_solver.
    + rewrite IH, <- app_comm_cons. do 3 f_equal. set_solver.
Qed.

(** Every row of the loop comes from an entry it visited, and its key
    was not seen before. *)
Lemma dedup_from_elem (d : ordered_dict)
    (seen : gset (string * string * string)) (r : row) :
  r ∈ dedup_from fix_text seen d →
  (row_tuple r ∉ seen) ∧ (∃ e, e ∈ d ∧ r = clean_row fix_text (snd e)).
Proof.
  revert seen. induction d as [|e d IH]; intros seen; cbn [dedup_from].
  - intros H. inversion H.
  - destruct (decide (row_tuple (clean_row fix_text e.2) ∈ seen)) as [Hin | Hout].
    + intros H. destruct (IH _ H) as (Hs & e' & He' & ->).
      split; [exact Hs|]. exists e'. split; [now right | reflexivity].
    + intros H. apply elem_of_cons in H as [-> | H].
      * split; [exact Hout|]. exists e. split; [now left | reflexivity].
      * destruct (IH _ H) as (Hs & e' & He' & ->).
        split; [set_solver|]. exists e'. split; [now right | reflexivity].
Qed.

Lemma dedup_from_NoDup (d : ordered_dict)
    (seen : gset (string * string * string)) :
  NoDup (map row_tuple (dedup_from fix_text seen d)).
Proof.
  revert seen. induction d as [|e d IH]; intros seen; cbn [dedup_from].
  - constructor.
  - destruct (decide (row_tuple (clean_row fix_text e.2) ∈ seen)); [apply IH|].
    cbn [map]. constructor; [|apply IH].
    intros Hin. apply list_elem_of_fmap in Hin as (r & Hr & Hin).
    apply dedup_from_elem in Hin as [Hseen _].
    apply Hseen. rewrite <- Hr. apply elem_of_union_l, elem_of_singleton.
    reflexivity.
Qed.

Lemma dedup_from_sublist (d : ordered_dict)
    (seen : gset (string * string * string)) :
  ∃ kept, kept `sublist_of` d
          ∧ dedup_from fix_text seen d
            = map (λ e, clean_row fix_text (snd e)) kept.
Proof.
  revert seen. induction d as [|e d IH]; intros seen; cbn [dedup_from].
  - exists []. split; constructor.
  - destruct (decide (row_tuple (clean_row fix_text e.2) ∈ seen)).
    + destruct (IH seen) as (kept & Hsub & ->).
      exists kept. split; [now constructor | reflexivity].
    + destruct (IH ({[row_tuple (clean_row fix_text e.2)]} ∪ seen))
        as (kept & Hsub & ->).
      exists (e :: kept). split; [now constructor | reflexivity].
Qed.

Lemma filter_map_sublist {A B} (f : A → B) (P : B → bool) (l : list A) :
  ∃ kept, kept `sublist_of` l ∧ List.filter P (map f l) = map f kept.
Proof.
  induction l as [|x l (kept & Hsub & IH)].
  - exists []. split; constructor.
  - cbn [map List.filter]. destruct (P (f x)).
    + exists (x :: kept). split; [now constructor | now rewrite IH].
    + exists kept. split; [now constructor | exact IH].
Qed.

Lemma filtered_rows_sublist (d : ordered_dict) :
  ∃ kept, kept `sublist_of` d
          ∧ filtered_rows fix_text d
            = map (λ e, clean_row fix_text (snd e)) kept.
Proof.
  unfold filtered_rows. rewrite cleaned_rows_dedup_from.
  destruct (dedup_from_sublist d ∅) as (k1 & Hs1 & ->).
  destruct (filter_map_sublist (λ e, clean_row fix_text (snd e)) keep_row k1)
    as (k2 & Hs2 & ->).
  exists k2. split; [now transitivity k1 | reflexivity].
Qed.

(** The loop reads the records, not their keys. *)
Lemma dedup_from_values (d1 d2 : ordered_dict)
    (seen : gset (string * string * string)) :
  od_values d1 = od_values d2 →
  dedup_from fix_text seen d1 = dedup_from fix_text seen d2.
Proof.
  revert d2 seen. induction d1 as [|e1 d1 IH]; intros [|e2 d2] seen;
    cbn [od_values map]; try discriminate; [reflexivity|].
  intros [= E1 E2]. cbn [dedup_from]. rewrite E1.
  destruct (decide _); [|f_equal]; now apply IH.
Qed.

Lemma filtered_rows_elem (d : ordered_dict) (r : row) :
  r ∈ filtered_rows fix_text d →
  keep_row r = true ∧ r ∈ cleaned_rows fix_text d.
Proof.
  unfold filtered_rows. rewrite list_elem_of_In, filter_In, <- list_elem_of_In.
  tauto.
Qed.

Lemma cleaned_rows_elem (d : ordered_dict) (r : row) :
  r ∈ cleaned_rows fix_text d →
  ∃ e, e ∈ d ∧ r = clean_row fix_text (snd e).
Proof.
  rewrite cleaned_rows_dedup_from. intros H.
  now apply dedup_from_elem in H as [_ H].
Qed.

Lemma clean_row_nonempty (it : item) :
  row_Name (clean_row fix_text it) ≠ EmptyString
  ∧ row_Price (clean_row fix_text it) ≠ EmptyString
  ∧ row_Image (clean_row fix_text it) ≠ EmptyString.
Proof. repeat split; apply str_or_nonempty; discriminate. Qed.

Lemma clean_row_consistent (it : item) :
  price_consistent "$" (PriceDisplay it) (PriceNumeric it) →
  price_consistent "$" (row_Price (clean_row fix_text it))
    (row_PriceNumeric (clean_row fix_text it)).
Proof.
  unfold price_consistent. cbn [clean_row row_Price row_PriceNumeric].
  destruct (PriceNumeric it); intros ->; reflexivity.
Qed.

End Finalize.

(** ** The two exports *)

Section Exports.

Variable fix_text : string → string.

Lemma is_blank_false (v : string) : is_blank v = false ↔ real_value v.
Proof.
  unfold is_blank, real_value. rewrite orb_false_iff, !String.eqb_neq.
  reflexivity.
Qed.

Lemma keep_row_real (r : row) :
  keep_row r = true →
  real_value (row_Name r) ∨ real_value (row_Price r)
  ∨ real_value (row_Image r).
Proof.
  unfold keep_row. cbn [forallb]. rewrite negb_true_iff, andb_true_r.
  rewrite !andb_false_iff, !is_blank_false. tauto.
Qed.

Lemma csv_record_fields (r : row) :
  row_Name r ≠ EmptyString → row_Price r ≠ EmptyString →
  row_Image r ≠ EmptyString →
  csv_record r = [row_Name r; row_Price r; row_Image r].
Proof. intros. unfold csv_record. now rewrite !str_or_id. Qed.

Lemma str_take_all (n : N) (s : string) :
  (N.of_nat (String.length s) ≤ n)%N → str_take n s = s.
Proof.
  revert n. induction s as [|c s IH]; intros n Hn; [reflexivity|].
  cbn [str_take]. cbn [String.length] in Hn.
  destruct (N.eqb_spec n 0) as [-> | Hz]; [lia|].
  rewrite IH; [reflexivity | lia].
Qed.

Lemma str_take_length (n : N) (s : string) :
  N.of_nat (String.length (str_take n s))
  = N.min n (N.of_nat (String.length s)).
Proof.
  revert n. induction s as [|c s IH]; intros n; cbn [str_take String.length].
  - lia.
  - destruct (N.eqb_spec n 0) as [-> | Hz]; [reflexivity|].
    cbn [String.length]. rewrite Nat2N.inj_succ, IH. lia.
Qed.

Lemma cell_string_short (v : string) :
  (N.of_nat (String.length v) ≤ max_cell_length)%N → cell_string v = v.
Proof. apply str_take_all. Qed.

Lemma cell_string_length (v : string) :
  (N.of_nat (String.length (cell_string v)) ≤ max_cell_length)%N.
Proof. unfold cell_string. rewrite str_take_length. lia. Qed.

Lemma cell_string_empty (v : string) :
  cell_string v = EmptyString ↔ v = EmptyString.
Proof. destruct v; [tauto|]. split; discriminate. Qed.

Lemma cell_string_NA (v : string) : cell_string v = NA ↔ v = NA.
Proof.
  destruct v as [|a [|b [|c [|d v]]]]; try (split; discriminate);
    reflexivity.
Qed.

Lemma cell_string_real (v : string) :
  real_value (cell_string v) ↔ real_value v.
Proof. unfold real_value. now rewrite cell_string_NA, cell_string_empty. Qed.

Lemma text_cell_value (i : nat) (v : string) :
  v ≠ EmptyString → value (text_cell i v) = cell_string v.
Proof. intros. cbn [text_cell value]. now rewrite str_or_id. Qed.

Lemma price_cell_shown (self : spider) (i : nat) (r : row) :
  currency_symbol self = "$" → row_ok r →
  price_cell_text self (price_cell self i r) = row_Price r
  ∧ match row_PriceNumeric r with
    | Some num =>
        value (price_cell self i r) = VNum num
        ∧ number_format (price_cell self i r) = "$#,##0.00"
    | None => value (price_cell self i r) = VStr NA ∧ row_Price r = NA
    end.
Proof.
  intros Hcur (_ & _ & _ & Hpc). unfold price_cell, price_cell_text.
  unfold price_consistent in Hpc.
  destruct (row_PriceNumeric r) as [num|]; cbn [value number_format];
    rewrite ?Hcur; auto.
Qed.

Lemma sheet_rows_shown (self : spider) (rows : list row) (i : nat) :
  currency_symbol self = "$" → Forall row_ok rows →
  map (λ sr, [text_cell_text (cell_name sr);
              price_cell_text self (cell_price sr);
              text_cell_text (cell_img sr)])
      (sheet_rows self i rows)
  = map (λ r, [cell_string (row_Name r); row_Price r;
               cell_string (row_Image r)]) rows.
Proof.
  intros Hcur Hrows. revert i.
  induction Hrows as [|r rows Hr _ IH]; intros i; [reflexivity|].
  cbn [sheet_rows map cell_name cell_price cell_img]. rewrite IH. f_equal.
  destruct (price_cell_shown self i r Hcur Hr) as [-> _].
  destruct Hr as (Hn & _ & Hi & _). unfold text_cell_text.
  now rewrite !text_cell_value.
Qed.

Lemma sheet_rows_cells (self : spider) (rows : list row) (i : nat) :
  currency_symbol self = "$" → Forall row_ok rows →
  Forall2 (λ r sr,
             value (cell_name sr) = cell_string (row_Name r)
             ∧ value (cell_img sr) = cell_string (row_Image r)
             ∧ price_cell_text self (cell_price sr) = row_Price r
             ∧ match row_PriceNumeric r with
               | Some num =>
                   value (cell_price sr) = VNum num
                   ∧ number_format (cell_price sr) = "$#,##0.00"
               | None =>
                   value (cell_price sr) = VStr NA ∧ row_Price r = NA
               end)
    rows (sheet_rows self i rows).
Proof.
  intros Hcur Hrows. revert i.
  induction Hrows as [|r rows Hr _ IH]; intros i; [constructor|].
  cbn [sheet_rows]. constructor; [|apply IH].
  cbn [cell_name cell_price cell_img].
  destruct (price_cell_shown self i r Hcur Hr) as [Ht Hv].
  destruct Hr as (Hn & _ & Hi & _).
  rewrite !text_cell_value by assumption. auto.
Qed.

Lemma cleaned_rows_ok (d : ordered_dict) :
  Forall (λ e, price_consistent "$" (PriceDisplay (snd e))
                 (PriceNumeric (snd e))) d →
  Forall row_ok (cleaned_rows fix_text d).
Proof.
  intros Hd. apply Forall_forall. intros r Hr.
  apply cleaned_rows_elem in Hr as (e & He & ->).
  destruct (clean_row_nonempty fix_text (snd e)) as (Hn & Hp & Hi).
  repeat split; try assumption.
  apply clean_row_consistent.
  rewrite Forall_forall in Hd. now apply Hd.
Qed.

Lemma filtered_rows_ok (d : ordered_dict) :
  Forall (λ e, price_consistent "$" (PriceDisplay (snd e))
                 (PriceNumeric (snd e))) d →
  Forall row_ok (filtered_rows fix_text d).
Proof.
  intros Hd. pose proof (cleaned_rows_ok d Hd) as Hc.
  rewrite Forall_forall in Hc |- *. intros r Hr.
  now apply Hc, filtered_rows_elem.
Qed.


Lemma append_inj_l (a b c : string) : a +:+ b = a +:+ c → b = c.
Proof.
  induction a as [|x a IH]; [auto|]. rewrite !append_cons.
  intros [= H]. now apply IH.
Qed.

Lemma init_files_differ (today : string) :
  csv_file (init today) ≠ xlsx_file (init today).
Proof.
  cbn [init csv_file xlsx_file]. intros H.
  do 2 apply append_inj_l in H. discriminate H.
Qed.

Lemma closed_csv (self : spider) (reason now : string)
    (fs : gmap string file) :
  csv_file self ≠ xlsx_file self →
  closed fix_text self reason now fs !! csv_file self
  = Some (CsvFile (utf8_sig (csv_text (filtered_rows fix_text (items self))))).
Proof.
  intros Hne. unfold closed. cbv zeta.
  destruct (rows_refused _);
    [|rewrite lookup_insert_ne by congruence]; apply lookup_insert_eq.
Qed.

Lemma closed_xlsx (self : spider) (reason now : string)
    (fs : gmap string file) :
  closed_raises fix_text self = false →
  closed fix_text self reason now fs !! xlsx_file self
  = Some (XlsxFile (workbook self now (filtered_rows fix_text (items self)))).
Proof.
  unfold closed, closed_raises. cbv zeta. intros ->. apply lookup_insert_eq.
Qed.

Lemma closed_no_xlsx (self : spider) (reason now : string)
    (fs : gmap string file) :
  csv_file self ≠ xlsx_file self →
  closed_raises fix_text self = true →
  closed fix_text self reason now fs !! xlsx_file self = None.
Proof.
  unfold closed, closed_raises. cbv zeta. intros Hne ->.
  rewrite lookup_insert_ne by congruence. apply lookup_delete_eq.
Qed.

(** What a crawl from a fresh spider leaves for [closed]. *)
Lemma crawl_init (urljoin : string → string → string)
    (today : string) (pages : list response) :
  ∃ self, crawl fix_text urljoin (init today) pages = Ok self
          ∧ spider_inv self
          ∧ extends fix_text (init today) self (concat (map products pages))
          ∧ csv_file self ≠ xlsx_file self
          ∧ Forall row_ok (filtered_rows fix_text (items self)).
Proof.
  destruct (crawl_spec fix_text urljoin pages (init today) (init_inv today))
    as (self & Hc & Hinv & Hext).
  exists self. split; [exact Hc|]. split; [exact Hinv|].
  split; [exact Hext|]. split.
  - destruct Hext as (_ & _ & _ & _ & _ & -> & ->). apply init_files_differ.
  - apply filtered_rows_ok. apply Hinv.
Qed.

End Exports.

(** ** Deduplication, filtering and order *)

Lemma entry_keys_elem (fix_text : string → string)
    (d : ordered_dict) (e : nat * item) :
  e ∈ d → entry_key fix_text e ∈ entry_keys fix_text d.
Proof.
  intros He. unfold entry_keys. apply elem_of_list_to_set.
  apply list_elem_of_fmap. now exists e.
Qed.

Lemma dedup_from_seen_head (fix_text : string → string)
    (seen : gset (string * string * string))
    (e : nat * item) (d : ordered_dict) :
  entry_key fix_text e ∈ seen →
  dedup_from fix_text seen (e :: d) = dedup_from fix_text seen d.
Proof.
  intros Hin. cbn [dedup_from]. fold (entry_key fix_text e).
  now destruct (decide (entry_key fix_text e ∈ seen)).
Qed.

(** C4.  When two entries of [self.items] have the same (Name, Price,
    Image) triple after clean-up, the later one leaves no trace: the rows
    of [cleaned], and so the rows of [filtered], are those obtained without
    it.  No two rows of [cleaned] share a triple, and an entry whose triple
    no earlier entry has gives its own row, number included. *)
Theorem dedup_first_occurrence_wins (fix_text : string → string)
    (l1 l2 l3 : ordered_dict) (x y : nat * item) :
  entry_key fix_text x = entry_key fix_text y →
  cleaned_rows fix_text (l1 ++ x :: l2 ++ y :: l3)
  = cleaned_rows fix_text (l1 ++ x :: l2 ++ l3)
  ∧ filtered_rows fix_text (l1 ++ x :: l2 ++ y :: l3)
    = filtered_rows fix_text (l1 ++ x :: l2 ++ l3)
  ∧ NoDup (map row_tuple (cleaned_rows fix_text (l1 ++ x :: l2 ++ y :: l3)))
  ∧ (entry_key fix_text x ∉ entry_keys fix_text l1 →
     clean_row fix_text (snd x)
     ∈ cleaned_rows fix_text (l1 ++ x :: l2 ++ y :: l3)).
Proof.
  intros Hkey.
  assert (Hc : cleaned_rows fix_text (l1 ++ x :: l2 ++ y :: l3)
               = cleaned_rows fix_text (l1 ++ x :: l2 ++ l3)).
  { rewrite !cleaned_rows_dedup_from.
    replace (l1 ++ x :: l2 ++ y :: l3) with ((l1 ++ x :: l2) ++ y :: l3)
      by now rewrite <- app_assoc.
    replace (l1 ++ x :: l2 ++ l3) with ((l1 ++ x :: l2) ++ l3)
      by now rewrite <- app_assoc.
    rewrite !dedup_from_app. f_equal. apply dedup_from_seen_head.
    apply elem_of_union_l. rewrite <- Hkey. apply entry_keys_elem.
    apply elem_of_app. right. now left. }
  split; [exact Hc|]. split; [unfold filtered_rows; now rewrite Hc|].
  split; [rewrite cleaned_rows_dedup_from; apply dedup_from_NoDup|].
  intros Hfirst. rewrite cleaned_rows_dedup_from, dedup_from_app.
  apply elem_of_app. right. cbn [dedup_from]. fold (entry_key fix_text x).
  destruct (decide (entry_key fix_text x ∈ entry_keys fix_text l1 ∪ ∅))
    as [Hin | _]; [|now left].
  apply elem_of_union in Hin as [Hin | Hin]; [contradiction | inversion Hin].
Qed.

Lemma dedup_first_occurrence_wins_witness :
  cleaned_rows remove_control_chars
    ([] ++ (1%nat, bulbasaur_item) :: [(2%nat, ivysaur_item)]
        ++ (3%nat, bulbasaur_again) :: [])
  = cleaned_rows remove_control_chars
      ([] ++ (1%nat, bulbasaur_item) :: [(2%nat, ivysaur_item)] ++ [])
  ∧ clean_row remove_control_chars bulbasaur_item
    ∈ cleaned_rows remove_control_chars
        ([] ++ (1%nat, bulbasaur_item) :: [(2%nat, ivysaur_item)]
            ++ (3%nat, bulbasaur_again) :: []).
Proof.
  pose proof (dedup_first_occurrence_wins remove_control_chars
                [] [(2%nat, ivysaur_item)] []
                (1%nat, bulbasaur_item) (3%nat, bulbasaur_again) eq_refl)
    as (H1 & _ & _ & H4).
  split; [exact H1|]. apply H4. unfold entry_keys. cbn [map list_to_set].
  apply not_elem_of_empty.
Defined.

Lemma StronglySorted_lt_seq (a n : nat) : StronglySorted lt (List.seq a n).
Proof.
  revert a. induction n as [|n IH]; intros a; cbn [List.seq]; constructor.
  - apply IH.
  - apply Forall_forall. intros k Hk. apply list_elem_of_In, in_seq in Hk. lia.
Qed.

Lemma StronglySorted_sublist {A} (R : relation A) (k l : list A) :
  k `sublist_of` l → StronglySorted R l → StronglySorted R k.
Proof.
  induction 1 as [|x k l Hsub IH|x k l Hsub IH]; intros Hs.
  - constructor.
  - apply StronglySorted_inv in Hs as [Hs Hx]. constructor; [now apply IH|].
    rewrite Forall_forall in Hx |- *. intros z Hz. apply Hx.
    now apply (elem_of_sublist k l).
  - apply StronglySorted_inv in Hs as [Hs _]. now apply IH.
Qed.

(** C6.  After a crawl of any pages from a fresh spider, the keys of
    [self.items] are 1, 2, ..., one per product in the order the pages and
    their products were visited: they are distinct and strictly
    increasing.  The rows of [filtered] are the cleaned-up records of a
    subsequence of these entries, in the same order: their sequence numbers
    are strictly increasing too. *)
Theorem sequence_order_preserved
    (fix_text : string → string) (urljoin : string → string → string)
    (today : string) (pages : list response) :
  ∃ self,
    crawl fix_text urljoin (init today) pages = Ok self
    ∧ od_keys (items self)
      = List.seq 1 (length (concat (map products pages)))
    ∧ NoDup (od_keys (items self))
    ∧ StronglySorted lt (od_keys (items self))
    ∧ Forall2 (λ p it, product_record fix_text (init today) p = Ok it)
        (concat (map products pages)) (od_values (items self))
    ∧ ∃ kept,
        kept `sublist_of` items self
        ∧ StronglySorted lt (od_keys kept)
        ∧ filtered_rows fix_text (items self)
          = map (λ e, clean_row fix_text (snd e)) kept.
Proof.
  destruct (crawl_init fix_text urljoin today pages)
    as (self & Hc & (_ & Hkeys & _) & (recs & HF & HV & HN & _) & _).
  cbn [init items seq app] in HV, HN. rewrite Nat.add_0_l in HN.
  exists self. split; [exact Hc|].
  rewrite Hkeys, HN, HV.
  split; [reflexivity|]. split; [apply NoDup_seq|].
  split; [apply StronglySorted_lt_seq|]. split; [exact HF|].
  destruct (filtered_rows_sublist fix_text (items self)) as (kept & Hsub & Hrows).
  exists kept. split; [exact Hsub|]. split; [|exact Hrows].
  apply (StronglySorted_sublist lt (od_keys kept) (od_keys (items self))).
  - unfold od_keys. now apply fmap_sublist.
  - rewrite Hkeys. apply StronglySorted_lt_seq.
Qed.

(** C5.  After a crawl of any pages from a fresh spider, every row of
    [filtered] has a Name, Price or Image that is neither empty nor "N/A",
    and so has every row shown by the delimited file and every row shown
    by the spreadsheet; an entry whose three fields are all empty or "N/A"
    after clean-up is shown by neither export. *)
Theorem exported_rows_have_real_value
    (fix_text : string → string) (urljoin : string → string → string)
    (today : string) (pages : list response) :
  ∃ self,
    crawl fix_text urljoin (init today) pages = Ok self
    ∧ Forall (λ r, real_value (row_Name r) ∨ real_value (row_Price r)
                   ∨ real_value (row_Image r))
        (filtered_rows fix_text (items self))
    ∧ Forall (Exists real_value)
        (csv_shown (filtered_rows fix_text (items self)))
    ∧ Forall (Exists real_value)
        (xlsx_shown self (filtered_rows fix_text (items self)))
    ∧ Forall (λ e,
                keep_row (clean_row fix_text (snd e)) = false →
                (clean_row fix_text (snd e)
                 ∉ filtered_rows fix_text (items self))
                ∧ (csv_record (clean_row fix_text (snd e))
                   ∉ csv_shown (filtered_rows fix_text (items self)))
                ∧ (csv_record (clean_row fix_text (snd e))
                   ∉ xlsx_shown self (filtered_rows fix_text (items self))))
        (items self).
Proof.
  destruct (crawl_init fix_text urljoin today pages)
    as (self & Hc & (Hcur & _ & _) & _ & _ & Hok).
  exists self. split; [exact Hc|].
  set (filtered := filtered_rows fix_text (items self)) in *.
  assert (Hreal : Forall (λ r, real_value (row_Name r)
                               ∨ real_value (row_Price r)
                               ∨ real_value (row_Image r)) filtered).
  { apply Forall_forall. intros r Hr.
    apply filtered_rows_elem in Hr as [Hk _]. now apply keep_row_real. }
  assert (Hcsv : Forall (Exists real_value) (csv_shown filtered)).
  { unfold csv_shown. apply Forall_fmap.
    rewrite Forall_forall in Hreal, Hok |- *. intros r Hr. cbn.
    destruct (Hok r Hr) as (Hn & Hp & Hi & _).
    rewrite (csv_record_fields r Hn Hp Hi).
    destruct (Hreal r Hr) as [H | [H | H]].
    - now apply Exists_cons_hd.
    - now apply Exists_cons_tl, Exists_cons_hd.
    - now apply Exists_cons_tl, Exists_cons_tl, Exists_cons_hd. }
  assert (Hxlsx : Forall (Exists real_value) (xlsx_shown self filtered)).
  { unfold xlsx_shown. rewrite (sheet_rows_shown self filtered 2 Hcur Hok).
    apply Forall_fmap. rewrite Forall_forall in Hreal |- *. intros r Hr. cbn.
    rewrite !Exists_cons, !cell_string_real. specialize (Hreal r Hr). tauto. }
  split; [exact Hreal|]. split; [exact Hcsv|].
  split; [exact Hxlsx|].
  apply Forall_forall. intros e _ Hblank.
  assert (Hnot : ¬ Exists real_value (csv_record (clean_row fix_text e.2))).
  { destruct (clean_row_nonempty fix_text (snd e)) as (Hn & Hp & Hi).
    rewrite (csv_record_fields _ Hn Hp Hi).
    unfold keep_row in Hblank. cbn [forallb] in Hblank.
    rewrite negb_false_iff, andb_true_r, !andb_true_iff in Hblank.
    destruct Hblank as (B1 & B2 & B3).
    rewrite !Exists_cons, Exists_nil, <- !is_blank_false. intros H.
    destruct H as [H | [H | [H | []]]]; congruence. }
  repeat split.
  - intros Hin. apply filtered_rows_elem in Hin as [Hk _]. congruence.
  - intros Hin. rewrite Forall_forall in Hcsv. now apply Hcsv in Hin.
  - intros Hin. rewrite Forall_forall in Hxlsx. now apply Hxlsx in Hin.
Qed.

Lemma exported_rows_have_real_value_witness :
  ∃ self,
    crawl remove_control_chars (λ _ h, h) (init "2024-01-01") [page3]
    = Ok self
    ∧ od_values (items self)
      = [ {| Name := EmptyString; PriceDisplay := NA;
             PriceNumeric := None; Image := EmptyString |};
          bulbasaur_item ]
    ∧ csv_shown (filtered_rows remove_control_chars (items self))
      = [["Bulbasaur"; "$63.00"; "img1.png"]]
    ∧ ([NA; NA; NA]
       ∉ csv_shown (filtered_rows remove_control_chars (items self)))
    ∧ ([NA; NA; NA]
       ∉ xlsx_shown self (filtered_rows remove_control_chars (items self))).
Proof.
  destruct (exported_rows_have_real_value remove_control_chars (λ _ h, h)
              "2024-01-01" [page3]) as (self & Hc & _ & _ & _ & Hblank).
  exists self. split; [exact Hc|].
  assert (Hrun : crawl remove_control_chars (λ _ h, h)
                   (init "2024-01-01") [page3]
                 = Ok {| items := [(1%nat,
                                    {| Name := EmptyString; PriceDisplay := NA;
                                       PriceNumeric := None;
                                       Image := EmptyString |});
                                   (2%nat, bulbasaur_item)];
                         seq := 2; currency_symbol := "$";
                         csv_file := "pokemon_2024-01-01.csv";
                         xlsx_file := "pokemon_2024-01-01.xlsx" |})
    by reflexivity.
  rewrite Hrun in Hc. injection Hc as <-.
  split; [reflexivity|]. split; [reflexivity|].
  apply Forall_cons in Hblank as [Hfirst _].
  destruct (Hfirst eq_refl) as (_ & Hcsv & Hxlsx).
  split; [exact Hcsv | exact Hxlsx].
Defined.

Lemma Forall2_functional {A B} (f : A → option B) (l : list A)
    (k1 k2 : list B) :
  Forall2 (λ a b, f a = Some b) l k1 →
  Forall2 (λ a b, f a = Some b) l k2 → k1 = k2.
Proof.
  intros H1. revert k2. induction H1 as [|a b l k1 Hab _ IH]; intros k2 H2.
  - now inversion H2.
  - inversion H2 as [|a' b' l' k2' Hab' H2']; subst.
    f_equal; [congruence | now apply IH].
Qed.

(** The rows [closed] exports do not depend on the day of the run. *)
Lemma crawl_rows_same_any_day
    (fix_text : string → string) (urljoin : string → string → string)
    (today1 today2 : string) (pages : list response) (s1 s2 : spider) :
  crawl fix_text urljoin (init today1) pages = Ok s1 →
  crawl fix_text urljoin (init today2) pages = Ok s2 →
  filtered_rows fix_text (items s1) = filtered_rows fix_text (items s2).
Proof.
  intros H1 H2.
  destruct (crawl_init fix_text urljoin today1 pages)
    as (s1' & E1 & _ & (r1 & F1 & V1 & _) & _).
  destruct (crawl_init fix_text urljoin today2 pages)
    as (s2' & E2 & _ & (r2 & F2 & V2 & _) & _).
  assert (s1' = s1) by congruence. assert (s2' = s2) by congruence.
  subst s1' s2'. cbn [init items app] in V1, V2.
  assert (Hr : r1 = r2).
  { apply (Forall2_functional
             (λ p, ok_value (product_record fix_text (init today1) p))
             (concat (map products pages))).
    - eapply Forall2_impl; [exact F1|]. intros p it ->. reflexivity.
    - eapply Forall2_impl; [exact F2|]. intros p it Hp.
      rewrite (product_record_currency fix_text (init today1) (init today2))
        by reflexivity.
      now rewrite Hp. }
  unfold filtered_rows. rewrite !cleaned_rows_dedup_from.
  f_equal. apply dedup_from_values. congruence.
Qed.

(** C8.  Two runs over the same pages write the same bytes to their
    delimited files, whatever the day, the time, the closing reason and
    the files present before each run; and for any two spiders holding the
    same items, [closed] writes the same bytes, which are a function of the
    items alone. *)
Theorem csv_bytes_deterministic
    (fix_text : string → string) (urljoin : string → string → string)
    (pages : list response) :
  (∀ today1 today2 reason1 reason2 now1 now2 fs1 fs2,
     ∃ out1 out2 bytes,
       run fix_text urljoin today1 pages reason1 now1 fs1 = Ok out1
       ∧ run fix_text urljoin today2 pages reason2 now2 fs2 = Ok out2
       ∧ out1 !! csv_file (init today1) = Some (CsvFile bytes)
       ∧ out2 !! csv_file (init today2) = Some (CsvFile bytes))
  ∧ (∀ self1 self2 reason1 reason2 now1 now2 fs1 fs2,
       items self1 = items self2 →
       csv_file self1 ≠ xlsx_file self1 →
       csv_file self2 ≠ xlsx_file self2 →
       closed fix_text self1 reason1 now1 fs1 !! csv_file self1
       = Some (CsvFile
                 (utf8_sig (csv_text (filtered_rows fix_text (items self1)))))
       ∧ closed fix_text self2 reason2 now2 fs2 !! csv_file self2
         = Some (CsvFile
                   (utf8_sig (csv_text (filtered_rows fix_text (items self1)))))).
Proof.
  split.
  - intros today1 today2 reason1 reason2 now1 now2 fs1 fs2.
    destruct (crawl_init fix_text urljoin today1 pages)
      as (s1 & E1 & _ & (_ & _ & _ & _ & _ & P1 & _) & D1 & _).
    destruct (crawl_init fix_text urljoin today2 pages)
      as (s2 & E2 & _ & (_ & _ & _ & _ & _ & P2 & _) & D2 & _).
    exists (closed fix_text s1 reason1 now1 fs1),
           (closed fix_text s2 reason2 now2 fs2),
           (utf8_sig (csv_text (filtered_rows fix_text (items s1)))).
    rewrite <- P1, <- P2. unfold run. rewrite E1, E2.
    split; [reflexivity|]. split; [reflexivity|].
    split; [now apply closed_csv|].
    rewrite (crawl_rows_same_any_day _ _ _ _ _ _ _ E1 E2).
    now apply closed_csv.
  - intros self1 self2 reason1 reason2 now1 now2 fs1 fs2 Hitems D1 D2.
    split; [now apply closed_csv|]. rewrite Hitems. now apply closed_csv.
Qed.

Lemma csv_bytes_deterministic_witness :
  let s1 := {| items := [(1%nat, bulbasaur_item); (2%nat, ivysaur_item)];
               seq := 2; currency_symbol := "$";
               csv_file := "pokemon_2024-01-01.csv";
               xlsx_file := "pokemon_2024-01-01.xlsx" |} in
  let s2 := {| items := [(1%nat, bulbasaur_item); (2%nat, ivysaur_item)];
               seq := 2; currency_symbol := "$";
               csv_file := "pokemon_2024-01-02.csv";
               xlsx_file := "pokemon_2024-01-02.xlsx" |} in
  closed remove_control_chars s1 "finished" "2024-01-01 10:00:00" ∅
    !! "pokemon_2024-01-01.csv"
  = closed remove_control_chars s2 "shutdown" "2024-01-02 23:59:59"
      {[ "pokemon_2024-01-02.csv" := CsvFile [] ]}
    !! "pokemon_2024-01-02.csv".
Proof.
  intros s1 s2.
  destruct (proj2 (csv_bytes_deterministic remove_control_chars (λ _ h, h) [])
              s1 s2 "finished" "shutdown"
              "2024-01-01 10:00:00" "2024-01-02 23:59:59"
              ∅ {[ "pokemon_2024-01-02.csv" := CsvFile [] ]}
              eq_refl ltac:(discriminate) ltac:(discriminate)) as [H1 H2].
  exact (eq_trans H1 (eq_sym H2)).
Defined.

(** ** The sample catalogue, run *)

Example sample_run_rows :
  ∃ self,
    crawl remove_control_chars (λ _ h, h) (init "2024-01-01") [page1; page2]
    = Ok self
    ∧ od_keys (items self) = [1; 2; 3]%nat
    ∧ csv_shown (filtered_rows remove_control_chars (items self))
      = [["Bulbasaur"; "$63.00"; "img1.png"]; ["Ivysaur"; "N/A"; "img2.png"]]
    ∧ xlsx_shown self (filtered_rows remove_control_chars (items self))
      = [["Bulbasaur"; "$63.00"; "img1.png"]; ["Ivysaur"; "N/A"; "img2.png"]]
    ∧ length (List.filter (Byte.eqb Byte.x0a)
                (utf8_sig (csv_text
                   (filtered_rows remove_control_chars (items self)))))
      = 3%nat.
Proof. eexists. repeat split; vm_compute; reflexivity. Qed.

Example float_examples :
  py_float "0.1" = Ok (S754_finite false 7205759403792794 (-56))
  ∧ py_float "9007199254740993" = Ok (S754_finite false 4503599627370496 1)
  ∧ py_float "5." = Ok (float_of_decimal 5 0)
  ∧ py_float ".5" = Ok (float_of_decimal 5 1)
  ∧ py_float "1.2.3" = Raise ValueError
  ∧ py_float "." = Raise ValueError
  ∧ py_float EmptyString = Raise ValueError.
Proof. repeat split; vm_compute; reflexivity. Qed.

Example format_examples :
  format_2f (float_of_decimal 12345 1) = "1,234.50"
  ∧ format_2f (float_of_decimal 125 3) = "0.12"
  ∧ format_2f (float_of_decimal 375 3) = "0.38"
  ∧ format_2f (float_of_decimal 1005 3) = "1.00"
  ∧ format_2f (float_of_decimal 999995 3) = "1,000.00"
  ∧ format_2f (float_of_decimal 1234567 0) = "1,234,567.00"
  ∧ format_2f (float_of_decimal 0 0) = "0.00"
  ∧ format_2f (float_of_decimal (10 ^ 400) 0) = "inf".
Proof. repeat split; vm_compute; reflexivity. Qed.

(** On ".5" too the code and the pattern part ways: the code reads the
    run ".5" as 0.5, the pattern matches "5". *)
Example parse_price_leading_dot :
  parse_price remove_control_chars (init "2024-01-01")
    (price_fragment pound ".5" "<span>.5</span>")
  = Ok ("$0.50", Some (float_of_decimal 5 1))
  ∧ spec_number_match ".5" = Some "5".
Proof. split; vm_compute; reflexivity. Qed.

(** * Further properties of the code *)

(** ** [clean_text]: the whitespace stage as split and join *)

Section SplitJoin.

Lemma lstrip_id (t : string) : headb t = true → lstrip t = t.
Proof.
  destruct t as [|c t]; [reflexivity|]. cbn [headb lstrip].
  now destruct (isspace c).
Qed.

Lemma lstrip_re_sub_ws (s : string) :
  lstrip (re_sub_ws_from false s) = re_sub_ws_from true s.
Proof.
  destruct s as [|c s]; [reflexivity|]. cbn [re_sub_ws_from].
  destruct (isspace c) eqn:Hc.
  - cbn [lstrip]. replace (isspace space) with true by reflexivity.
    apply lstrip_id. now apply re_sub_ws_from_shape.
  - cbn [lstrip]. now rewrite Hc.
Qed.

Lemma rstrip_cons_word (c : ascii) (t : string) :
  isspace c = false → rstrip (String c t) = String c (rstrip t).
Proof.
  intros Hc. cbn [rstrip]. destruct (rstrip t); [now rewrite Hc | reflexivity].
Qed.

Lemma rstrip_cons_space (t : string) :
  rstrip (String space t)
  = match rstrip t with
    | EmptyString => EmptyString
    | r => String space r
    end.
Proof. cbn [rstrip]. now destruct (rstrip t). Qed.

Lemma join_space_cons (w : string) (l : list string) :
  join_space (w :: l)
  = match l with
    | [] => w
    | _ => w +:+ String space (join_space l)
    end.
Proof. now destruct l. Qed.

Lemma join_space_push (c : ascii) (w : string) (l : list string) :
  join_space (String c w :: l) = String c (join_space (w :: l)).
Proof. rewrite !join_space_cons. now destruct l. Qed.

Lemma words_from_cons (s : string) : ∃ w rest, words_from s = w :: rest.
Proof.
  destruct s as [|c s]; [now eexists _, _|]. cbn [words_from].
  destruct (isspace c); [now eexists _, _|].
  destruct (words_from s); now eexists _, _.
Qed.

Lemma join_space_words_empty (l : list string) :
  Forall (λ w, nonempty w = true) l →
  join_space l = EmptyString → l = [].
Proof.
  intros Hl. destruct Hl as [|w l Hw _]; [reflexivity|].
  rewrite join_space_cons. destruct w; [discriminate|].
  destruct l; discriminate.
Qed.

Lemma split_ws_nonempty (s : string) :
  Forall (λ w, nonempty w = true) (split_ws s).
Proof.
  apply Forall_forall. intros w Hw.
  apply list_elem_of_In, filter_In in Hw. tauto.
Qed.

(** The scan after the strip on the left, then stripped on the right, is
    the join of the words; so is the scan itself, but for a leading
    space when the text starts with whitespace. *)
Lemma rstrip_re_sub_ws (s : string) :
  rstrip (re_sub_ws_from true s) = join_space (split_ws s)
  ∧ rstrip (re_sub_ws_from false s)
    = if starts_with isspace s
      then match split_ws s with
           | [] => EmptyString
           | l => String space (join_space l)
           end
      else join_space (split_ws s).
Proof.
  induction s as [|c s [IHt IHf]]; [split; reflexivity|].
  unfold split_ws in *. cbn [re_sub_ws_from words_from starts_with].
  destruct (isspace c) eqn:Hc.
  - cbn [List.filter nonempty]. split; [exact IHt|].
    rewrite rstrip_cons_space, IHt.
    destruct (List.filter nonempty (words_from s)) as [|w l] eqn:E;
      [reflexivity|].
    pose proof (split_ws_nonempty s) as Hne. unfold split_ws in Hne.
    rewrite E in Hne. apply Forall_cons in Hne as [Hw _].
    rewrite join_space_cons. destruct w; [discriminate|]. now destruct l.
  - assert (Hgoal : rstrip (String c (re_sub_ws_from false s))
                    = join_space
                        (List.filter nonempty
                           match words_from s with
                           | [] => [String c EmptyString]
                           | w :: rest => String c w :: rest
                           end)).
    { rewrite (rstrip_cons_word _ _ Hc), IHf.
      destruct s as [|d s]; [reflexivity|].
      cbn [starts_with words_from] in *.
      destruct (isspace d) eqn:Hd.
      - cbn [List.filter nonempty].
        destruct (List.filter nonempty (words_from s)); reflexivity.
      - destruct (words_from_cons s) as (w & rest & E). rewrite E.
        cbn [List.filter nonempty]. now rewrite (join_space_push c). }
    split; exact Hgoal.
Qed.

Lemma words_from_no_ws (s : string) :
  Forall (λ w, all_chars (λ c, negb (isspace c)) w = true) (words_from s).
Proof.
  induction s as [|c s IH]; [repeat constructor|]. cbn [words_from].
  destruct (isspace c) eqn:Hc; [constructor; [reflexivity | exact IH]|].
  destruct (words_from s) as [|w rest].
  - repeat constructor. cbn. now rewrite Hc.
  - apply Forall_cons in IH as [Hw Hrest]. constructor; [|exact Hrest].
    cbn [all_chars]. now rewrite Hc, Hw.
Qed.

Lemma split_ws_words (s : string) : Forall is_word (split_ws s).
Proof.
  apply Forall_forall. intros w Hw.
  apply list_elem_of_In, filter_In in Hw as [Hin Hne].
  split; [now destruct w|].
  pose proof (words_from_no_ws s) as H. rewrite Forall_forall in H.
  now apply H, list_elem_of_In.
Qed.

Lemma words_from_word_app (w t : string) :
  all_chars (λ c, negb (isspace c)) w = true →
  words_from (w +:+ t)
  = match words_from t with
    | w0 :: rest => (w +:+ w0) :: rest
    | [] => [w]
    end.
Proof.
  intros Hw. induction w as [|c w IH].
  - rewrite append_nil_l. destruct (words_from_cons t) as (w0 & rest & ->).
    reflexivity.
  - cbn [all_chars] in Hw. apply andb_prop in Hw as [Hc Hw].
    apply negb_true_iff in Hc. rewrite append_cons. cbn [words_from].
    rewrite Hc, (IH Hw). destruct (words_from t); reflexivity.
Qed.

(** Splitting a join of words gives the words back. *)
Lemma split_ws_join (l : list string) :
  Forall is_word l → split_ws (join_space l) = l.
Proof.
  induction 1 as [|w l [Hne Hw] Hl IH]; [reflexivity|].
  rewrite join_space_cons. unfold split_ws in *. destruct l as [|w' l].
  - rewrite <- (append_nil_r w) at 1. rewrite (words_from_word_app _ _ Hw).
    cbn [words_from List.filter]. rewrite append_nil_r.
    now destruct w.
  - rewrite (words_from_word_app _ _ Hw).
    cbn [words_from]. replace (isspace space) with true by reflexivity.
    rewrite append_nil_r. cbn [List.filter]. rewrite IH.
    now destruct w.
Qed.

Lemma normalize_ws_join (s : string) :
  normalize_ws s = join_space (split_ws s).
Proof.
  unfold normalize_ws, strip, re_sub_ws.
  rewrite lstrip_re_sub_ws. apply rstrip_re_sub_ws.
Qed.

End SplitJoin.

(** X1.  The whitespace stage of [clean_text] is [" ".join(text.split())]:
    the words of the text, in order, with one space between two words.
    The text handed to [fix_text] is empty exactly when the input has no
    word. *)
Theorem normalize_ws_split_join (s : string) :
  normalize_ws s = join_space (split_ws s)
  ∧ Forall is_word (split_ws s)
  ∧ (normalize_ws s = EmptyString ↔ split_ws s = [])
  ∧ (split_ws s = [] ↔ all_chars isspace s = true).
Proof.
  pose proof (normalize_ws_join s) as Hn.
  split; [exact Hn|]. split; [apply split_ws_words|]. split.
  - rewrite Hn. split; [|now intros ->].
    apply join_space_words_empty, split_ws_nonempty.
  - clear Hn. unfold split_ws. induction s as [|c s IH]; [split; reflexivity|].
    cbn [words_from all_chars]. destruct (isspace c) eqn:Hc.
    + cbn [List.filter nonempty andb]. exact IH.
    + destruct (words_from_cons s) as (w & rest & ->).
      cbn [List.filter nonempty andb]. split; discriminate.
Qed.

(** X2.  Cleaning is stable: the whitespace stage applied twice is the
    whitespace stage applied once, and so [clean_text] applied to its own
    output returns it, whenever [fix_text] leaves the normalised text as it
    is.  ([closed] cleans again the names and images [parse] has
    cleaned.) *)
Theorem clean_text_twice (fix_text : string → string) (t : string) :
  normalize_ws (normalize_ws t) = normalize_ws t
  ∧ (fix_text (normalize_ws t) = normalize_ws t →
     clean_text fix_text (Some (clean_text fix_text (Some t)))
     = clean_text fix_text (Some t)).
Proof.
  assert (Hidem : normalize_ws (normalize_ws t) = normalize_ws t).
  { rewrite (normalize_ws_join (normalize_ws t)), (normalize_ws_join t).
    now rewrite split_ws_join by apply split_ws_words. }
  split; [exact Hidem|]. intros Hfix.
  assert (Hclean : ∀ u, clean_text fix_text (Some u)
                        = match u with
                          | EmptyString => EmptyString
                          | _ => fix_text (normalize_ws u)
                          end) by (intros [|? ?]; reflexivity).
  rewrite !Hclean. destruct t as [|c t]; [reflexivity|].
  rewrite Hfix. destruct (normalize_ws (String c t)) eqn:E; [reflexivity|].
  rewrite Hidem. exact Hfix.
Qed.

Lemma clean_text_twice_witness :
  clean_text remove_control_chars
    (Some (clean_text remove_control_chars (Some "  Poke   Ball ")))
  = clean_text remove_control_chars (Some "  Poke   Ball ").
Proof.
  apply (proj2 (clean_text_twice remove_control_chars "  Poke   Ball ")).
  reflexivity.
Defined.

(** ** [parse_price]: what it reads and when it finds a number *)

(** X3.  [parse_price] never reads the currency spans: two fragments with
    the same text nodes return the same pair when the serialisations of
    their first elements agree, and, when the joined text is not blank,
    whatever those serialisations are. *)
Theorem parse_price_ignores_glyph
    (fix_text : string → string) (self : spider) (pb pb' : list selector) :
  map sel_text pb = map sel_text pb' →
  (sel_html <$> head pb = sel_html <$> head pb'
   ∨ strip (join_space (concat (map sel_text pb))) ≠ EmptyString) →
  parse_price fix_text self pb = parse_price fix_text self pb'.
Proof.
  intros Htext Hhtml.
  destruct pb as [|s pb], pb' as [|s' pb']; try discriminate; [reflexivity|].
  rewrite !parse_price_nonempty by discriminate.
  assert (Hamount : amount_text fix_text (s :: pb)
                    = amount_text fix_text (s' :: pb')).
  { unfold amount_text. rewrite <- Htext.
    destruct (strip (join_space (concat (map sel_text (s :: pb)))));
      [|reflexivity].
    destruct Hhtml as [-> | H]; [reflexivity | congruence]. }
  now rewrite Hamount.
Qed.

Lemma parse_price_ignores_glyph_witness :
  parse_price remove_control_chars (init "2024-01-01")
    (price_fragment pound "63.00" "<span>63.00</span>")
  = parse_price remove_control_chars (init "2024-01-01")
      (price_fragment "$" "63.00" "<b>1</b>").
Proof.
  apply parse_price_ignores_glyph; [reflexivity|].
  right. discriminate.
Defined.

Section FloatShape.

Lemma count_dots_app (a b : string) :
  count_dots (a +:+ b) = (count_dots a + count_dots b)%nat.
Proof.
  induction a as [|c a IH]; [reflexivity|].
  rewrite append_cons. cbn [count_dots]. rewrite IH. lia.
Qed.

Lemma count_dots_digits (s : string) :
  all_chars isdigit s = true → count_dots s = 0%nat.
Proof.
  induction s as [|c s IH]; [reflexivity|]. cbn [all_chars count_dots].
  intros H. apply andb_prop in H as [Hc Hs].
  now rewrite (isdigit_not_dot _ Hc), IH.
Qed.

Lemma no_dots_digits (s : string) :
  all_chars (λ c, isdigit c || Ascii.eqb c dot) s = true →
  count_dots s = 0%nat → all_chars isdigit s = true.
Proof.
  induction s as [|c s IH]; [reflexivity|]. cbn [all_chars count_dots].
  intros H Hd. apply andb_prop in H as [Hc Hs].
  destruct (Ascii.eqb c dot); [discriminate|].
  rewrite orb_false_r in Hc. rewrite Hc. now apply IH.
Qed.

Lemma digits_to_N_some (s : string) (acc n : N) :
  digits_to_N s acc = Some n → all_chars isdigit s = true.
Proof.
  revert acc. induction s as [|c s IH]; intros acc; [reflexivity|].
  cbn [digits_to_N all_chars]. destruct (isdigit c); [apply IH | discriminate].
Qed.

Lemma split_dot_spec (t : string) :
  all_chars (λ c, isdigit c || Ascii.eqb c dot) t = true →
  all_chars isdigit (fst (split_dot t)) = true
  ∧ match snd (split_dot t) with
    | None => t = fst (split_dot t)
    | Some f =>
        t = fst (split_dot t) +:+ String dot f
        ∧ all_chars (λ c, isdigit c || Ascii.eqb c dot) f = true
    end.
Proof.
  induction t as [|c t IH]; [split; reflexivity|].
  cbn [all_chars split_dot]. intros H. apply andb_prop in H as [Hc Ht].
  destruct (Ascii.eqb c dot) eqn:E.
  - apply Ascii.eqb_eq in E. subst c. cbn [fst snd]. auto.
  - rewrite orb_false_r in Hc. destruct (IH Ht) as [Hi Hs].
    destruct (split_dot t) as [ip [f|]]; cbn [fst snd] in *.
    + cbn [all_chars]. rewrite Hc, Hi. destruct Hs as [-> Hf]. auto.
    + cbn [all_chars]. rewrite Hc, Hi. now subst t.
Qed.

Lemma has_digit_digits (s : string) :
  all_chars isdigit s = true → has_digit s = nonempty s.
Proof.
  destruct s as [|c s]; [reflexivity|]. cbn [all_chars].
  intros H. apply andb_prop in H as [Hc _].
  unfold has_digit, not_digit. cbn [all_chars]. now rewrite Hc.
Qed.

Lemma has_digit_app (a b : string) :
  has_digit (a +:+ b) = has_digit a || has_digit b.
Proof.
  unfold has_digit. rewrite all_chars_app. apply negb_andb.
Qed.

(** [float] accepts a text of digits and dots exactly when it has a digit
    and at most one dot. *)
Lemma py_float_ok_iff (t : string) :
  all_chars (λ c, isdigit c || Ascii.eqb c dot) t = true →
  (∃ f, py_float t = Ok f)
  ↔ (has_digit t = true ∧ (count_dots t ≤ 1)%nat).
Proof.
  intros Ht. destruct (split_dot_spec t Ht) as [Hip Hsnd].
  unfold py_float. destruct (split_dot t) as [ip [fp|]]; cbn [fst snd] in *.
  - destruct Hsnd as [-> Hfp].
    rewrite has_digit_app, count_dots_app, (count_dots_digits _ Hip).
    replace (has_digit (String dot fp)) with (has_digit fp) by reflexivity.
    cbn [count_dots]. rewrite Ascii.eqb_refl, (has_digit_digits _ Hip).
    split.
    + intros [f Hf].
      destruct (ip +:+ fp) as [|c x] eqn:E; [discriminate|].
      destruct (digits_to_N (String c x) 0) as [n|] eqn:En; [|discriminate].
      apply digits_to_N_some in En. rewrite <- E, all_chars_app in En.
      apply andb_prop in En as [_ Hf']. rewrite (count_dots_digits _ Hf').
      split; [|lia]. rewrite (has_digit_digits _ Hf').
      destruct ip, fp; try discriminate; reflexivity.
    + intros [Hd Hc]. assert (Hz : count_dots fp = 0%nat) by lia.
      pose proof (no_dots_digits _ Hfp Hz) as Hf'.
      rewrite (has_digit_digits _ Hf') in Hd.
      assert (Hall : all_chars isdigit (ip +:+ fp) = true)
        by now rewrite all_chars_app, Hip, Hf'.
      destruct (digits_to_N_all _ 0%N Hall) as [n Hn].
      destruct (ip +:+ fp) as [|c x] eqn:E.
      * destruct ip, fp; discriminate.
      * rewrite Hn. eauto.
  - subst t. rewrite (count_dots_digits _ Hip), (has_digit_digits _ Hip).
    destruct (digits_to_N_all _ 0%N Hip) as [n Hn].
    destruct ip; cbn [nonempty]; [|rewrite Hn]; split.
    + intros [f Hf]. discriminate.
    + intros [H _]. discriminate.
    + intros _. split; [reflexivity | lia].
    + intros _. eauto.
Qed.

Lemma has_digit_remove_commas (m : string) :
  has_digit (remove_commas m) = has_digit m.
Proof.
  unfold has_digit. f_equal.
  induction m as [|c m IH]; [reflexivity|]. cbn [remove_commas all_chars].
  destruct (Ascii.eqb c comma) eqn:E.
  - apply Ascii.eqb_eq in E. subst c. exact IH.
  - cbn [all_chars]. now rewrite IH.
Qed.

Lemma count_dots_remove_commas (m : string) :
  count_dots (remove_commas m) = count_dots m.
Proof.
  induction m as [|c m IH]; [reflexivity|]. cbn [remove_commas count_dots].
  destruct (Ascii.eqb c comma) eqn:E.
  - apply Ascii.eqb_eq in E. subst c. exact IH.
  - cbn [count_dots]. now rewrite IH.
Qed.

End FloatShape.

(** X4.  On a fragment that is not empty and whose amount text has a
    token, [parse_price] returns a number exactly when the token has at
    least one digit and at most one dot; otherwise it returns the sentinel
    pair.  Commas never matter. *)
Theorem parse_price_number_iff
    (fix_text : string → string) (self : spider)
    (pb : list selector) (m : string) :
  pb ≠ [] →
  re_search_price (amount_text fix_text pb) = Some m →
  ((∃ num, parse_price fix_text self pb
           = Ok (currency_symbol self +:+ format_2f num, Some num))
   ↔ (has_digit m = true ∧ (count_dots m ≤ 1)%nat))
  ∧ (parse_price fix_text self pb = Ok (NA, None)
     ↔ ¬ (has_digit m = true ∧ (count_dots m ≤ 1)%nat)).
Proof.
  intros Hpb Hm.
  pose proof (py_float_ok_iff _ (num_str_chars _ _ Hm)) as Hiff.
  rewrite has_digit_remove_commas, count_dots_remove_commas in Hiff.
  rewrite (parse_price_nonempty _ _ _ Hpb), Hm.
  destruct (py_float (remove_commas m)) as [num|e] eqn:E.
  - assert (Hc : has_digit m = true ∧ (count_dots m ≤ 1)%nat)
      by (apply Hiff; eauto).
    split; split; try tauto; [eauto | discriminate].
  - assert (Hc : ¬ (has_digit m = true ∧ (count_dots m ≤ 1)%nat))
      by (intros H; apply Hiff in H as [f Hf]; discriminate).
    split; split; try tauto. intros [num Hnum]. discriminate.
Qed.

Lemma parse_price_number_iff_witness :
  (∃ num, parse_price remove_control_chars (init "2024-01-01")
            (price_fragment pound "now 1,2,3.5!" "<span>x</span>")
          = Ok ("$" +:+ format_2f num, Some num))
  ∧ parse_price remove_control_chars (init "2024-01-01")
      (price_fragment pound "v1.2.3" "<span>x</span>") = Ok (NA, None).
Proof.
  split.
  - apply (proj1 (parse_price_number_iff remove_control_chars
                    (init "2024-01-01")
                    (price_fragment pound "now 1,2,3.5!" "<span>x</span>")
                    "1,2,3.5" ltac:(discriminate) eq_refl)).
    split; [reflexivity | cbn; lia].
  - apply (proj2 (parse_price_number_iff remove_control_chars
                    (init "2024-01-01")
                    (price_fragment pound "v1.2.3" "<span>x</span>")
                    "1.2.3" ltac:(discriminate) eq_refl)).
    intros [_ H]. cbn in H. lia.
Defined.

(** ** The display of a number *)

Section Display.

Lemma string_of_uint_digits (d : Decimal.uint) :
  all_chars isdigit (NilEmpty.string_of_uint d) = true.
Proof. induction d; cbn [NilEmpty.string_of_uint all_chars]; auto. Qed.

Lemma decimal_digits_digits1 (z : Z) : digits1 (decimal_digits z).
Proof.
  split; [|apply string_of_uint_digits].
  unfold decimal_digits. destruct (Z.to_N z) as [|p]; [discriminate|].
  cbn [N.to_uint]. pose proof (DecimalPos.Unsigned.to_uint_nonnil p) as Hp.
  destruct (Pos.to_uint p); [congruence | discriminate ..].
Qed.

Lemma two_digits_shape (z : Z) :
  0 ≤ z < 100 →
  all_chars isdigit (two_digits z) = true
  ∧ String.length (two_digits z) = 2%nat.
Proof.
  intros Hz. split.
  - unfold two_digits. destruct (z <? 10); [cbn [all_chars]|];
      apply decimal_digits_digits1.
  - assert (Hall : forallb (λ n, Nat.eqb (String.length
                                            (two_digits (Z.of_nat n))) 2)
                     (List.seq 0 100) = true) by (vm_compute; reflexivity).
    rewrite forallb_forall in Hall.
    specialize (Hall (Z.to_nat z)). rewrite Z2Nat.id in Hall by lia.
    apply Nat.eqb_eq, Hall, in_seq. lia.
Qed.

Lemma groups3_comma_groups (g : string) : groups3 g → comma_groups g.
Proof.
  induction 1 as [|a b c g Ha Hb Hc _ IH]; [constructor|].
  apply (cg_cons (String a (String b (String c EmptyString))) g);
    [|exact IH].
  split; [discriminate|]. cbn [all_chars]. now rewrite Ha, Hb, Hc.
Qed.

(** The separators of [group_thousands]: a first group of one to three
    digits, then groups of exactly three. *)
Lemma group_thousands_shape (s : string) :
  s ≠ EmptyString → all_chars isdigit s = true →
  ∃ first rest k,
    group_thousands s = first +:+ rest
    ∧ all_chars isdigit first = true
    ∧ (1 ≤ String.length first ≤ 3)%nat
    ∧ groups3 rest
    ∧ String.length s = (String.length first + 3 * k)%nat.
Proof.
  induction s as [|c s IH]; [congruence|]. intros _ Hs.
  cbn [all_chars] in Hs. apply andb_prop in Hs as [Hc Hs].
  cbn [group_thousands]. destruct s as [|d s].
  - exists (String c EmptyString), EmptyString, 0%nat.
    cbn. rewrite Hc. repeat split; [lia | lia | constructor].
  - destruct (IH ltac:(discriminate) Hs)
      as (first & rest & k & HG & Hf & Hlen & Hrest & Hk).
    rewrite HG, Hk.
    replace (String.length first + 3 * k)%nat
      with (String.length first + k * 3)%nat by lia.
    rewrite Nat.Div0.mod_add.
    destruct first as [|x [|y [|z [|? ?]]]]; cbn [String.length] in *;
      try lia; cbn [Nat.modulo Nat.eqb andb negb]; cbn.
    + exists (String c (String x EmptyString)), rest, k.
      cbn [all_chars String.length] in *. rewrite Hc, Hf.
      repeat split; try lia; assumption.
    + exists (String c (String x (String y EmptyString))), rest, k.
      cbn [all_chars String.length] in *. rewrite Hc, Hf.
      repeat split; try lia; assumption.
    + exists (String c EmptyString),
             (String comma (String x (String y (String z rest)))), (S k).
      cbn [all_chars String.length] in *. rewrite Hc.
      apply andb_prop in Hf as [Hx Hf]. apply andb_prop in Hf as [Hy Hf].
      apply andb_prop in Hf as [Hz _].
      repeat split; try lia. now constructor.
Qed.

Lemma remove_commas_group_thousands (s : string) :
  all_chars isdigit s = true → remove_commas (group_thousands s) = s.
Proof.
  induction s as [|c s IH]; [reflexivity|]. cbn [all_chars group_thousands].
  intros H. apply andb_prop in H as [Hc Hs].
  destruct (_ && _); cbn [remove_commas];
    rewrite ?Ascii.eqb_refl, (isdigit_not_comma _ Hc), (IH Hs); reflexivity.
Qed.

Lemma cents_of_nonneg (m : positive) (e : Z) : 0 ≤ cents_of m e.
Proof.
  unfold cents_of. destruct (0 <=? e) eqn:He.
  - apply Z.leb_le in He. apply Z.mul_nonneg_nonneg; [lia|].
    now apply Z.pow_nonneg.
  - apply Z.leb_gt in He.
    assert (Hd : 0 < 2 ^ (- e)) by (apply Z.pow_pos_nonneg; lia).
    assert (Hq : 0 ≤ 100 * Z.pos m / 2 ^ (- e))
      by (apply Z.div_pos; lia).
    destruct (_ ?= _); [destruct (Z.even _)| |]; lia.
Qed.

Lemma format_cents_shape (cents : Z) :
  0 ≤ cents →
  ∃ first rest fr,
    format_cents cents = first +:+ rest +:+ String dot fr
    ∧ digits1 first ∧ (String.length first ≤ 3)%nat ∧ groups3 rest
    ∧ all_chars isdigit fr = true ∧ String.length fr = 2%nat
    ∧ remove_commas (format_cents cents)
      = decimal_digits (cents / 100) +:+ String dot fr.
Proof.
  intros Hc. unfold format_cents.
  destruct (decimal_digits_digits1 (cents / 100)) as [Hne Hd].
  destruct (group_thousands_shape _ Hne Hd)
    as (first & rest & k & HG & Hf & Hlen & Hrest & _).
  destruct (two_digits_shape (cents mod 100)) as [Hfr Hfrlen];
    [apply Z.mod_pos_bound; lia|].
  exists first, rest, (two_digits (cents mod 100)).
  rewrite HG, append_assoc. repeat split; try assumption; try lia.
  - destruct first; [cbn in Hlen; lia | discriminate].
  - rewrite <- append_assoc, <- HG, remove_commas_app.
    rewrite (remove_commas_group_thousands _ Hd). cbn [remove_commas].
    replace (Ascii.eqb dot comma) with false by reflexivity.
    now rewrite (remove_commas_digits _ Hfr).
Qed.

Lemma format_2f_finite (num : pyfloat) :
  finite_nonneg num → ∃ cents, 0 ≤ cents ∧ format_2f num = format_cents cents.
Proof.
  destruct num as [[|]|[|]| |[|] m e]; cbn; try tauto; intros _.
  - exists 0. split; [lia | reflexivity].
  - exists (cents_of m e). split; [apply cents_of_nonneg | reflexivity].
Qed.

End Display.

(** X5.  The display of a finite number that is not negative is one to
    three digits, then groups of a comma and exactly three digits, then a
    dot and exactly two digits.  It is a text of the decimal-number
    pattern; behind a "$" the token search finds exactly it, and without
    its commas it reads as a float again. *)
Theorem display_shape (num : pyfloat) :
  finite_nonneg num →
  ∃ first rest fr,
    format_2f num = first +:+ rest +:+ String dot fr
    ∧ digits1 first ∧ (String.length first ≤ 3)%nat ∧ groups3 rest
    ∧ all_chars isdigit fr = true ∧ String.length fr = 2%nat
    ∧ decimal_number (format_2f num)
    ∧ re_search_price ("$" +:+ format_2f num) = Some (format_2f num)
    ∧ ∃ num', py_float (remove_commas (format_2f num)) = Ok num'.
Proof.
  intros Hfin. destruct (format_2f_finite num Hfin) as (cents & Hc & ->).
  destruct (format_cents_shape cents Hc)
    as (first & rest & fr & E & Hfirst & Hlen & Hrest & Hfr & Hfrlen & _).
  exists first, rest, fr.
  assert (Hdec : decimal_number (format_cents cents)).
  { rewrite E. apply dn_frac; [exact Hfirst | |].
    - now apply groups3_comma_groups.
    - split; [|exact Hfr]. destruct fr; [discriminate | discriminate]. }
  repeat split; try assumption; try apply Hfirst.
  - destruct (decimal_number_price_chars _ Hdec) as [Hne Hchars].
    rewrite <- (append_nil_r (format_cents cents)) at 1.
    now apply (re_search_price_app "$" _ EmptyString).
  - destruct (py_float_decimal_number _ Hdec) as (n & k & Hn). eauto.
Qed.

Lemma display_shape_witness :
  ∃ first rest fr,
    format_2f (float_of_decimal 12345678 1) = first +:+ rest +:+ String dot fr
    ∧ digits1 first ∧ (String.length first ≤ 3)%nat ∧ groups3 rest
    ∧ all_chars isdigit fr = true ∧ String.length fr = 2%nat
    ∧ decimal_number (format_2f (float_of_decimal 12345678 1))
    ∧ re_search_price ("$" +:+ format_2f (float_of_decimal 12345678 1))
      = Some (format_2f (float_of_decimal 12345678 1))
    ∧ ∃ num', py_float (remove_commas
                          (format_2f (float_of_decimal 12345678 1)))
              = Ok num'.
Proof. apply display_shape. exact I. Defined.

(** ** [parse_price]: the float it returns and the text it shows *)

Section FloatRange.

Lemma shr_1_nonneg (mrs : shr_record) :
  0 ≤ shr_m mrs → 0 ≤ shr_m (shr_1 mrs).
Proof.
  destruct mrs as [[|[p|p|]|p] r s]; cbn; lia.
Qed.

Lemma iter_pos_shr_1_nonneg (n : positive) (mrs : shr_record) :
  0 ≤ shr_m mrs → 0 ≤ shr_m (SpecFloat.iter_pos shr_1 n mrs).
Proof.
  revert mrs.
  induction n as [n IH|n IH|]; intros mrs H; cbn [SpecFloat.iter_pos].
  - apply IH, IH, shr_1_nonneg, H.
  - apply IH, IH, H.
  - apply shr_1_nonneg, H.
Qed.

Lemma shr_fexp_nonneg (m e : Z) (l : location) :
  0 ≤ m → 0 ≤ shr_m (fst (shr_fexp 53 1024 m e l)).
Proof.
  intros Hm. unfold shr_fexp, shr.
  assert (H0 : 0 ≤ shr_m (shr_record_of_loc m l))
    by (destruct l as [|[| |]]; exact Hm).
  destruct (_ - e) as [|p|p]; cbn [fst]; try exact H0.
  now apply iter_pos_shr_1_nonneg.
Qed.

Lemma round_nearest_even_nonneg (m : Z) (l : location) :
  0 ≤ m → 0 ≤ round_nearest_even m l.
Proof.
  intros Hm. unfold round_nearest_even.
  destruct l as [|[| |]]; [| destruct (Z.even m) | |]; lia.
Qed.

Lemma binary_round_aux_result (mx ex : Z) (lx : location) :
  0 ≤ mx → float_result (binary_round_aux 53 1024 false mx ex lx).
Proof.
  intros Hm. unfold binary_round_aux.
  pose proof (shr_fexp_nonneg mx ex lx Hm) as H1.
  destruct (shr_fexp 53 1024 mx ex lx) as [mrs' e']. cbn [fst] in H1.
  pose proof (shr_fexp_nonneg _ e' loc_Exact
                (round_nearest_even_nonneg _ (loc_of_shr_record mrs') H1))
    as H2.
  destruct (shr_fexp 53 1024 _ e' loc_Exact) as [mrs'' e'']. cbn [fst] in H2.
  destruct (shr_m mrs'') as [|m|m]; [now left | | lia].
  destruct (e'' <=? 1024 - 53); [now left | now right].
Qed.

Lemma SFdiv_core_binary_nonneg (m1 m2 : positive) (e1 e2 : Z) :
  0 ≤ fst (fst (SFdiv_core_binary 53 1024 (Zpos m1) e1 (Zpos m2) e2)).
Proof.
  unfold SFdiv_core_binary. cbv zeta.
  set (m' := match _ with Zpos _ => _ | Z0 => _ | Zneg _ => _ end).
  assert (Hm' : 0 ≤ m').
  { subst m'. destruct (_ - _ - _) as [|p|p]; try lia.
    apply Z.shiftl_nonneg. lia. }
  pose proof (Z.div_pos m' (Zpos m2) Hm' ltac:(lia)) as Hq.
  unfold Z.div in Hq. destruct (Z.div_eucl m' (Zpos m2)) as [q r].
  exact Hq.
Qed.

Lemma float_of_decimal_result (n : N) (k : nat) :
  float_result (float_of_decimal n k).
Proof.
  unfold float_of_decimal. destruct n as [|p]; [now left|].
  unfold SFdiv.
  pose proof (SFdiv_core_binary_nonneg p (Z.to_pos (10 ^ Z.of_nat k)) 0 0)
    as Hq.
  destruct (SFdiv_core_binary 53 1024 _ 0 _ 0) as [[mz ez] lz].
  now apply binary_round_aux_result.
Qed.

(** [float] of a numeral without a sign is a finite float that is not
    negative, or the positive infinity. *)
Lemma py_float_result (t : string) (num : pyfloat) :
  py_float t = Ok num → float_result num.
Proof.
  unfold py_float. destruct (split_dot t) as [ip [fp|]].
  - destruct (ip +:+ fp); [discriminate|].
    destruct (digits_to_N _ _); [|discriminate].
    intros [= <-]. apply float_of_decimal_result.
  - destruct ip; [discriminate|].
    destruct (digits_to_N _ _); [|discriminate].
    intros [= <-]. apply float_of_decimal_result.
Qed.

End FloatRange.

Section Cents.

Lemma cents_distance (m c : Z) (D : positive) :
  (Qabs (inject_Z 100 * (m # D) - inject_Z c)
   == Z.abs (100 * m - c * Zpos D) # D)%Q.
Proof.
  unfold Qminus, Qplus, Qmult, Qopp, inject_Z, Qabs, Qeq.
  cbn [Qnum Qden]. rewrite !Pos.mul_1_l, !Pos.mul_1_r, Z.mul_1_r.
  f_equal. f_equal. lia.
Qed.

Lemma rounds_to_cents_intro (m c : Z) (D : positive) :
  2 * Z.abs (100 * m - c * Zpos D) ≤ Zpos D →
  (2 * Z.abs (100 * m - c * Zpos D) = Zpos D → Z.even c = true) →
  rounds_to_cents (m # D) c.
Proof.
  intros Hle Heven. unfold rounds_to_cents.
  rewrite cents_distance. unfold Qle, Qeq. cbn [Qnum Qden].
  split; [lia|]. intros H. apply Heven. lia.
Qed.

(** [cents_of] is the rounding of [,.2f]: to the nearest cent, a tie to
    the even one. *)
Lemma cents_of_rounds (m : positive) (e : Z) (q : Q) :
  float_value (S754_finite false m e) = Some q →
  rounds_to_cents q (cents_of m e).
Proof.
  unfold float_value, cents_of. destruct (0 <=? e) eqn:He; intros [= <-].
  - apply rounds_to_cents_intro; intros; lia.
  - apply Z.leb_gt in He.
    assert (Hd : 0 < 2 ^ (- e)) by (apply Z.pow_pos_nonneg; lia).
    set (d := 2 ^ (- e)) in *.
    assert (HD : Zpos (Z.to_pos d) = d) by (apply Z2Pos.id; exact Hd).
    pose proof (Z.div_mod (100 * Zpos m) d ltac:(lia)) as Hdm.
    pose proof (Z.mod_pos_bound (100 * Zpos m) d Hd) as Hr.
    set (n := 100 * Zpos m) in *.
    apply rounds_to_cents_intro; rewrite HD; fold n;
      destruct (Z.compare_spec (2 * (n mod d)) d) as [E | L | G];
      try (destruct (Z.even (n / d)) eqn:Hev); try lia; try nia.
    + intros _. exact Hev.
    + intros _. rewrite Z.even_add, Hev. reflexivity.
Qed.

Lemma digits_to_N_linear (s : string) :
  all_chars isdigit s = true →
  ∃ v, ∀ acc,
    digits_to_N s acc
    = Some (acc * 10 ^ N.of_nat (String.length s) + v)%N.
Proof.
  induction s as [|c s IH]; intros H.
  - exists 0%N. intros acc. cbn. f_equal. lia.
  - cbn [all_chars] in H. apply andb_prop in H as [Hc Hs].
    destruct (IH Hs) as [v Hv].
    exists ((code c - 48) * 10 ^ N.of_nat (String.length s) + v)%N.
    intros acc. cbn [digits_to_N String.length]. rewrite Hc, Hv. f_equal.
    rewrite Nat2N.inj_succ, N.pow_succ_r'. lia.
Qed.

Lemma digits_to_N_app (a b : string) (x y : N) :
  all_chars isdigit b = true →
  digits_to_N a 0 = Some x → digits_to_N b 0 = Some y →
  digits_to_N (a +:+ b) 0
  = Some (x * 10 ^ N.of_nat (String.length b) + y)%N.
Proof.
  intros Hb Ha Hy. destruct (digits_to_N_linear b Hb) as [v Hv].
  assert (v = y) by (specialize (Hv 0%N); rewrite Hy in Hv;
                     injection Hv; lia). subst v.
  assert (Hgen : ∀ acc r, digits_to_N a acc = Some r →
                          digits_to_N (a +:+ b) acc
                          = Some (r * 10 ^ N.of_nat (String.length b) + y)%N).
  { clear Ha. induction a as [|c a IH]; intros acc r.
    - cbn [digits_to_N]. intros [= <-]. rewrite append_nil_l. apply Hv.
    - rewrite append_cons. cbn [digits_to_N].
      destruct (isdigit c); [apply IH | discriminate]. }
  now apply Hgen.
Qed.

Lemma digits_to_N_uint_acc (d : Decimal.uint) (acc : positive) :
  digits_to_N (NilEmpty.string_of_uint d) (Npos acc)
  = Some (Npos (Pos.of_uint_acc d acc)).
Proof.
  revert acc. induction d; intros acc;
    cbn [NilEmpty.string_of_uint digits_to_N Pos.of_uint_acc];
    [reflexivity | ..];
    match goal with
    | |- context [isdigit ?c] =>
        replace (isdigit c) with true by reflexivity
    end;
    match goal with
    | |- digits_to_N _ ?a = _ =>
        let a' := eval cbn in a in change a with a'
    end; rewrite <- IHd; f_equal; lia.
Qed.

Lemma digits_to_N_uint (d : Decimal.uint) :
  digits_to_N (NilEmpty.string_of_uint d) 0 = Some (Pos.of_uint d).
Proof.
  induction d; cbn [NilEmpty.string_of_uint digits_to_N Pos.of_uint];
    [reflexivity | exact IHd | ..];
    match goal with
    | |- context [isdigit ?c] =>
        replace (isdigit c) with true by reflexivity
    end;
    match goal with
    | |- digits_to_N _ ?a = _ =>
        let a' := eval cbn in a in change a with a'
    end; apply digits_to_N_uint_acc.
Qed.

(** The digits of [decimal_digits z] are the numeral of [z]. *)
Lemma digits_to_N_decimal_digits (z : Z) :
  digits_to_N (decimal_digits z) 0 = Some (Z.to_N z).
Proof.
  unfold decimal_digits. rewrite digits_to_N_uint. f_equal.
  destruct (Z.to_N z) as [|p]; [reflexivity|].
  apply DecimalPos.Unsigned.of_to.
Qed.

Lemma digits_to_N_two_digits (z : Z) :
  0 ≤ z < 100 → digits_to_N (two_digits z) 0 = Some (Z.to_N z).
Proof.
  intros Hz.
  assert (Hall : forallb (λ n, match digits_to_N (two_digits (Z.of_nat n)) 0
                               with
                               | Some v => N.eqb v (N.of_nat n)
                               | None => false
                               end) (List.seq 0 100) = true)
    by (vm_compute; reflexivity).
  rewrite forallb_forall in Hall.
  specialize (Hall (Z.to_nat z)). rewrite Z2Nat.id in Hall by lia.
  specialize (Hall ltac:(apply in_seq; lia)).
  destruct (digits_to_N (two_digits z) 0) as [v|]; [|discriminate].
  apply N.eqb_eq in Hall. f_equal. lia.
Qed.

(** The text of [cents] hundredths shows them, digit for digit. *)
Lemma format_cents_shows (num : pyfloat) (cents : Z) :
  0 ≤ cents →
  (∀ q, float_value num = Some q → rounds_to_cents q cents) →
  shows_cents num (format_cents cents).
Proof.
  intros Hc Hround. unfold format_cents.
  destruct (decimal_digits_digits1 (cents / 100)) as [Hne Hd].
  destruct (group_thousands_shape _ Hne Hd)
    as (first & rest & k & HG & Hf & Hlen & Hrest & _).
  assert (Hmod : 0 ≤ cents mod 100 < 100) by (apply Z.mod_pos_bound; lia).
  destruct (two_digits_shape (cents mod 100) Hmod) as [Hfr Hfrlen].
  exists cents, first, rest, (two_digits (cents mod 100)).
  split; [now rewrite HG, append_assoc|].
  split; [split; [destruct first; [cbn in Hlen; lia | discriminate]
                 | exact Hf]|].
  split; [lia|]. split; [exact Hrest|]. split; [exact Hfr|].
  split; [exact Hfrlen|]. split; [exact Hc|]. split; [|exact Hround].
  rewrite <- HG, (remove_commas_group_thousands _ Hd).
  rewrite (digits_to_N_app _ _ _ _ Hfr
             (digits_to_N_decimal_digits (cents / 100))
             (digits_to_N_two_digits _ Hmod)).
  rewrite Hfrlen. f_equal.
  pose proof (Z.div_mod cents 100 ltac:(lia)) as Hdm.
  assert (0 ≤ cents / 100) by (apply Z.div_pos; lia).
  change (10 ^ N.of_nat 2)%N with 100%N. lia.
Qed.

(** [f"{num:,.2f}"] for the floats [float] returns. *)
Lemma format_2f_formats (num : pyfloat) :
  float_result num → formats_as num (format_2f num).
Proof.
  intros [Hfin | ->]; [left | right; split; reflexivity].
  split; [exact Hfin|].
  destruct num as [[|]|[|]| |[|] m e]; cbn in Hfin; try tauto;
    cbn [format_2f sign_prefix].
  - apply format_cents_shows; [lia|]. intros q [= <-].
    apply rounds_to_cents_intro; intros; lia.
  - apply format_cents_shows; [apply cents_of_nonneg|].
    apply cents_of_rounds.
Qed.

End Cents.

Section FirstRun.

Lemma re_search_price_none (t : string) :
  re_search_price t = None ↔ all_chars not_price_char t = true.
Proof.
  induction t as [|c t IH]; [tauto|].
  cbn [re_search_price all_chars]. unfold not_price_char at 1.
  destruct (is_price_char c); cbn [negb andb]; [split; discriminate|].
  exact IH.
Qed.

(** The token of the search is the first run of the text. *)
Lemma re_search_price_first_run (t m : string) :
  re_search_price t = Some m ↔ ∃ pre post, first_run t pre m post.
Proof.
  split.
  - induction t as [|c t IH]; [discriminate|]. cbn [re_search_price].
    destruct (is_price_char c) eqn:Hc.
    + intros [= <-]. exists EmptyString.
      assert (Hrest : ∃ post, t = take_price_chars t +:+ post
                              ∧ starts_with is_price_char post = false).
      { clear. induction t as [|d t IH].
        - now exists EmptyString.
        - cbn [take_price_chars]. destruct (is_price_char d) eqn:Hd.
          + destruct IH as (post & E & Hp). exists post.
            rewrite append_cons. now rewrite <- E.
          + exists (String d t). rewrite append_nil_l. now split. }
      destruct Hrest as (post & E & Hp). exists post.
      split; [rewrite append_nil_l, append_cons; now rewrite <- E|].
      split; [reflexivity|]. split; [discriminate|].
      split; [|exact Hp]. cbn [all_chars]. now rewrite Hc, take_price_chars_all.
    + intros H. destruct (IH H) as (pre & post & E & Hpre & Hne & Hm & Hp).
      exists (String c pre), post.
      split; [rewrite append_cons; now rewrite <- E|].
      split; [|auto]. cbn [all_chars]. unfold not_price_char at 1.
      now rewrite Hc, Hpre.
  - intros (pre & post & -> & Hpre & Hne & Hm & Hp).
    now apply re_search_price_app.
Qed.

(** A run reads as a float exactly when it is a numeral. *)
Lemma py_float_numeral_run (t tok : string) :
  re_search_price t = Some tok →
  (∃ num, py_float (remove_commas tok) = Ok num) ↔ numeral_run tok.
Proof.
  intros Hm. unfold numeral_run.
  rewrite (py_float_ok_iff _ (num_str_chars _ _ Hm)).
  now rewrite has_digit_remove_commas, count_dots_remove_commas.
Qed.

End FirstRun.

(** C1 (counterexample).  On the amount text "1.2.3" the first match of
    the decimal-number pattern is "1.2", which reads as a float whose
    display is "$1.20"; [parse_price] takes the whole run "1.2.3", whose
    conversion fails, and returns the sentinel pair. *)
Lemma parse_price_spec_pattern_counterexample :
  let pb := price_fragment pound "1.2.3" "<span>1.2.3</span>" in
  let self := init "2024-01-01" in
  ∃ t num,
    spec_number_match (amount_text remove_control_chars pb) = Some t
    ∧ py_float (remove_commas t) = Ok num
    ∧ currency_symbol self +:+ format_2f num = "$1.20"
    ∧ parse_price remove_control_chars self pb = Ok (NA, None)
    ∧ parse_price remove_control_chars self pb
      ≠ Ok (currency_symbol self +:+ format_2f num, Some num).
Proof.
  cbv zeta. eexists _, _.
  split; [vm_compute; reflexivity|].
  split; [vm_compute; reflexivity|].
  split; [vm_compute; reflexivity|].
  split; [vm_compute; reflexivity|].
  vm_compute. discriminate.
Qed.

(** C1 (amended).  Let [tok] be the first maximal run of digits, commas
    and dots of the amount text of a fragment that is not empty.  The
    search of [parse_price] finds [tok].  [tok] without its commas reads
    as a float exactly when it has a digit and at most one dot; whenever
    it reads as the float [num], [parse_price] returns [num] and the
    configured currency symbol followed by the text of [num], which is:
    for a finite [num], one to three digits, groups of a comma and three
    digits, a dot and two digits, these digits being the numeral of [num]
    rounded to the nearest cent; for a run so long that [num] is the
    infinity, "inf".  When [tok] is itself of the form digits, comma
    groups, optional dot and digits, it is the first match of the
    decimal-number pattern and it does read as a float.  In particular the
    amount text "1,234.50" yields the float 1234.5 and the display
    "$1,234.50" whatever glyph the fragment shows. *)
Theorem parse_price_first_run (fix_text : string → string) (self : spider) :
  (∀ pb pre tok post,
     pb ≠ [] →
     first_run (amount_text fix_text pb) pre tok post →
     re_search_price (amount_text fix_text pb) = Some tok
     ∧ ((∃ num, py_float (remove_commas tok) = Ok num) ↔ numeral_run tok)
     ∧ (∀ num, py_float (remove_commas tok) = Ok num →
          parse_price fix_text self pb
          = Ok (currency_symbol self +:+ format_2f num, Some num)
          ∧ formats_as num (format_2f num))
     ∧ (decimal_number tok →
          spec_number_match (amount_text fix_text pb) = Some tok
          ∧ ∃ num, py_float (remove_commas tok) = Ok num
                   ∧ parse_price fix_text self pb
                     = Ok (currency_symbol self +:+ format_2f num, Some num)))
  ∧ (∀ glyph html,
       currency_symbol self = "$" →
       fix_text "1,234.50" = "1,234.50" →
       ∃ num q,
         parse_price fix_text self (price_fragment glyph "1,234.50" html)
         = Ok ("$1,234.50", Some num)
         ∧ float_value num = Some q ∧ (q == 12345 # 10)%Q).
Proof.
  split.
  - intros pb pre tok post Hpb Hrun.
    assert (Hsearch : re_search_price (amount_text fix_text pb) = Some tok)
      by (apply re_search_price_first_run; eauto).
    destruct Hrun as (Htext & Hpre & Hne & Htok & Hpost).
    assert (Hcode : ∀ num, py_float (remove_commas tok) = Ok num →
              parse_price fix_text self pb
              = Ok (currency_symbol self +:+ format_2f num, Some num)).
    { intros num Hnum.
      now rewrite (parse_price_nonempty _ _ _ Hpb), Hsearch, Hnum. }
    split; [exact Hsearch|].
    split; [now apply (py_float_numeral_run _ _ Hsearch)|].
    split.
    { intros num Hnum. split; [now apply Hcode|].
      apply format_2f_formats. now apply (py_float_result _ _ Hnum). }
    intros Hdec. split.
    + rewrite Htext. apply spec_number_match_app; try assumption.
      revert Hpre. apply all_chars_impl. intros c Hc.
      unfold not_price_char in Hc. apply negb_true_iff in Hc.
      unfold not_digit. now rewrite (proj1 (not_price_char_parts _ Hc)).
    + destruct (py_float_decimal_number _ Hdec) as (n & k & Hnum).
      eexists. split; [exact Hnum|]. now apply Hcode.
  - intros glyph html Hcur Hfix.
    exists (S754_finite false 5429388417957888 (-42)).
    exists (5429388417957888 # 4398046511104)%Q.
    split; [|split; [reflexivity | reflexivity]].
    rewrite parse_price_nonempty by discriminate.
    replace (amount_text fix_text (price_fragment glyph "1,234.50" html))
      with "1,234.50" by (symmetry; exact Hfix).
    rewrite Hcur. vm_compute. reflexivity.
Qed.

Lemma parse_price_first_run_witness :
  let self := init "2024-01-01" in
  let pb := price_fragment pound "from 63.00 each" "<span>63.00</span>" in
  (parse_price remove_control_chars self pb
   = Ok ("$63.00", Some (S754_finite false 8866461766385664 (-47)))
   ∧ formats_as (S754_finite false 8866461766385664 (-47)) "63.00")
  ∧ (spec_number_match (amount_text remove_control_chars pb) = Some "63.00"
     ∧ ∃ num, py_float (remove_commas "63.00") = Ok num
              ∧ parse_price remove_control_chars self pb
                = Ok (currency_symbol self +:+ format_2f num, Some num))
  ∧ ∃ num q,
      parse_price remove_control_chars self
        (price_fragment pound "1,234.50" "<span>1,234.50</span>")
      = Ok ("$1,234.50", Some num)
      ∧ float_value num = Some q ∧ (q == 12345 # 10)%Q.
Proof.
  cbv zeta.
  destruct (parse_price_first_run remove_control_chars (init "2024-01-01"))
    as [Hrun Hex].
  assert (Hfirst : first_run
                     (amount_text remove_control_chars
                        (price_fragment pound "from 63.00 each"
                           "<span>63.00</span>"))
                     "from " "63.00" " each").
  { split; [reflexivity|]. split; [reflexivity|].
    split; [discriminate|]. split; reflexivity. }
  pose proof (Hrun (price_fragment pound "from 63.00 each" "<span>63.00</span>")
                "from " "63.00" " each" ltac:(discriminate) Hfirst)
    as (_ & _ & Hcode & Hspec).
  split; [|split].
  - refine (Hcode (S754_finite false 8866461766385664 (-47)) _).
    vm_compute. reflexivity.
  - apply Hspec.
    change (decimal_number ("63" +:+ EmptyString +:+ String dot "00")).
    apply dn_frac; [split; [discriminate | reflexivity] | constructor
                   | split; [discriminate | reflexivity]].
  - apply Hex; reflexivity.
Defined.

(** C2 (counterexample).  On the amount text "1.299.00" the fragment is
    not empty, the decimal-number pattern has a match, "1.299", and that
    match reads as a float; yet [parse_price] returns the sentinel pair,
    because it converts the whole run "1.299.00". *)
Lemma parse_price_sentinel_counterexample :
  let pb := price_fragment pound "1.299.00" "<span>1.299.00</span>" in
  let self := init "2024-01-01" in
  pb ≠ []
  ∧ spec_number_match (amount_text remove_control_chars pb) = Some "1.299"
  ∧ py_float (remove_commas "1.299") = Ok (float_of_decimal 1299 3)
  ∧ parse_price remove_control_chars self pb = Ok (NA, None).
Proof.
  cbv zeta. split; [discriminate|].
  repeat split; vm_compute; reflexivity.
Qed.

(** C2 (amended).  For a spider whose currency symbol is "$" and every
    fragment, [parse_price] returns a pair.  The pair is ("N/A", none)
    exactly when the fragment is empty, or its amount text has no digit,
    comma or dot, or the first maximal run of such characters in the
    amount text is no numeral: it has no digit, or more than one dot.  The
    numeric part is present exactly when the display is not "N/A", and
    then it is the float read from that run, shown behind the "$". *)
Theorem parse_price_sentinel_iff
    (fix_text : string → string) (self : spider) (pb : list selector) :
  currency_symbol self = "$" →
  ∃ d n,
    parse_price fix_text self pb = Ok (d, n)
    ∧ ((d, n) = (NA, None) ↔ sentinel_case fix_text pb)
    ∧ (n ≠ None ↔ d ≠ NA)
    ∧ (∀ num, n = Some num →
         d = "$" +:+ format_2f num
         ∧ ∃ pre tok post,
             first_run (amount_text fix_text pb) pre tok post
             ∧ numeral_run tok
             ∧ py_float (remove_commas tok) = Ok num).
Proof.
  intros Hcur. unfold sentinel_case, no_number.
  destruct (decide (pb = [])) as [-> | Hpb].
  { exists NA, None. split; [reflexivity|].
    split; [split; auto|]. split; [split; congruence | discriminate]. }
  rewrite (parse_price_nonempty _ _ _ Hpb).
  destruct (re_search_price (amount_text fix_text pb)) as [m|] eqn:Hm.
  - pose proof (py_float_numeral_run _ _ Hm) as Hiff.
    destruct (proj1 (re_search_price_first_run _ _) Hm) as (pre & post & Hrun).
    destruct (py_float (remove_commas m)) as [num | e] eqn:Hnum.
    + assert (Hnumeral : numeral_run m) by (apply Hiff; eauto).
      rewrite Hcur. eexists _, _. split; [reflexivity|].
      split; [split|].
      * intros H. congruence.
      * intros [H | [H | (pre' & tok & post' & Hrun' & Hno)]];
          [congruence | apply re_search_price_none in H; congruence |].
        assert (Hm' : re_search_price (amount_text fix_text pb) = Some tok)
          by (apply re_search_price_first_run; eauto).
        rewrite Hm in Hm'. injection Hm' as <-. contradiction.
      * split; [split; [intros _; apply dollar_display_not_NA | discriminate]|].
        intros num' [= <-]. split; [reflexivity|]. eauto 6.
    + assert (Hno : ¬ numeral_run m)
        by (intros H; apply Hiff in H as [f Hf]; discriminate).
      exists NA, None. split; [reflexivity|].
      split; [split; [|reflexivity]|].
      * intros _. right. right. eauto.
      * split; [split; congruence | discriminate].
  - exists NA, None. split; [reflexivity|].
    split; [split; [|reflexivity]|].
    + intros _. right. left. now apply re_search_price_none.
    + split; [split; congruence | discriminate].
Qed.

Lemma parse_price_sentinel_iff_witness :
  ∃ d n,
    parse_price remove_control_chars (init "2024-01-01")
      (price_fragment pound "63.00" "<span>63.00</span>") = Ok (d, n)
    ∧ d = "$63.00" ∧ n ≠ None
    ∧ ¬ sentinel_case remove_control_chars
          (price_fragment pound "63.00" "<span>63.00</span>").
Proof.
  destruct (parse_price_sentinel_iff remove_control_chars (init "2024-01-01")
              (price_fragment pound "63.00" "<span>63.00</span>") eq_refl)
    as (d & n & Hp & Hiff & Hn & _).
  exists d, n. split; [exact Hp|].
  assert (E : (d, n) = ("$63.00", Some (float_of_decimal 6300 2))).
  { assert (H : Ok (d, n)
                = Ok ("$63.00", Some (float_of_decimal 6300 2)))
      by (rewrite <- Hp; vm_compute; reflexivity).
    now injection H as -> ->. }
  injection E as -> ->.
  split; [reflexivity|]. split; [discriminate|].
  intros H. apply Hiff in H. discriminate H.
Defined.

(** ** The two exports, cell by cell *)

Section Cells.

Variable fix_text : string → string.



End Cells.

Section LongTexts.

Lemma str_repeat_succ (c : ascii) (n : N) :
  str_repeat c (N.succ n) = String c (str_repeat c n).
Proof. unfold str_repeat. apply N.iter_succ. Qed.

Lemma str_repeat_length (c : ascii) (n : N) :
  N.of_nat (String.length (str_repeat c n)) = n.
Proof.
  induction n as [|n IH] using N.peano_ind; [reflexivity|].
  rewrite str_repeat_succ. cbn [String.length]. lia.
Qed.

Lemma str_repeat_all (P : ascii → bool) (c : ascii) (n : N) :
  P c = true → all_chars P (str_repeat c n) = true.
Proof.
  intros Hc. induction n as [|n IH] using N.peano_ind; [reflexivity|].
  rewrite str_repeat_succ. cbn [all_chars]. now rewrite Hc, IH.
Qed.

Lemma str_take_repeat (c : ascii) (n m : N) :
  (n ≤ m)%N → str_take n (str_repeat c m) = str_repeat c n.
Proof.
  revert n. induction m as [|m IH] using N.peano_ind; intros n Hn.
  - assert (n = 0%N) by lia. subst n. reflexivity.
  - rewrite str_repeat_succ. cbn [str_take].
    destruct (N.eqb_spec n 0) as [-> | Hz]; [reflexivity|].
    rewrite IH by lia.
    rewrite <- (N.succ_pred n Hz) at 2. now rewrite str_repeat_succ.
Qed.

Lemma str_repeat_neq (c : ascii) (n m : N) :
  n ≠ m → str_repeat c n ≠ str_repeat c m.
Proof.
  intros Hne E. apply Hne.
  now rewrite <- (str_repeat_length c n), E, str_repeat_length.
Qed.

Lemma str_repeat_nonempty (c : ascii) (n : N) :
  n ≠ 0%N → str_repeat c n ≠ EmptyString.
Proof. intros Hn. now apply (str_repeat_neq c n 0). Qed.


Lemma re_sub_ws_plain (s : string) :
  all_chars plain_char s = true → re_sub_ws_from false s = s.
Proof.
  induction s as [|c s IH]; [reflexivity|]. cbn [all_chars re_sub_ws_from].
  intros H. apply andb_prop in H as [Hc Hs].
  unfold plain_char in Hc. apply andb_prop in Hc as [Hc _].
  apply negb_true_iff in Hc. now rewrite Hc, IH.
Qed.

Lemma rstrip_plain (s : string) :
  all_chars plain_char s = true → rstrip s = s.
Proof.
  induction s as [|c s IH]; [reflexivity|]. cbn [all_chars rstrip].
  intros H. apply andb_prop in H as [Hc Hs]. rewrite (IH Hs).
  unfold plain_char in Hc. apply andb_prop in Hc as [Hc _].
  apply negb_true_iff in Hc. destruct s; [now rewrite Hc | reflexivity].
Qed.

Lemma remove_control_chars_plain (s : string) :
  all_chars plain_char s = true → remove_control_chars s = s.
Proof.
  induction s as [|c s IH]; [reflexivity|].
  cbn [all_chars remove_control_chars].
  intros H. apply andb_prop in H as [Hc Hs].
  unfold plain_char in Hc. apply andb_prop in Hc as [_ Hc].
  apply negb_true_iff in Hc. now rewrite Hc, IH.
Qed.

(** A text of plain characters is clean. *)
Lemma clean_text_plain (s : string) :
  all_chars plain_char s = true →
  clean_text remove_control_chars (Some s) = s.
Proof.
  intros Hs.
  assert (Hclean : remove_control_chars (strip (re_sub_ws s)) = s).
  { unfold re_sub_ws, strip. rewrite (re_sub_ws_plain _ Hs).
    assert (Hl : lstrip s = s).
    { destruct s as [|c s]; [reflexivity|].
      cbn [all_chars] in Hs. apply andb_prop in Hs as [Hc _].
      unfold plain_char in Hc. apply andb_prop in Hc as [Hc _].
      apply negb_true_iff in Hc. cbn [lstrip]. now rewrite Hc. }
    now rewrite Hl, (rstrip_plain _ Hs), (remove_control_chars_plain _ Hs). }
  destruct s; [reflexivity | exact Hclean].
Qed.

(** What the crawl of one page with one product of plain title and image
    address stores. *)
Lemma crawl_titled (title image : string) :
  title ≠ EmptyString → image ≠ EmptyString →
  all_chars plain_char title = true → all_chars plain_char image = true →
  crawl remove_control_chars (λ _ h, h) (init "2024-01-01")
    [page_of (titled title image)]
  = Ok {| items := [(1%nat,
                     {| Name := title; PriceDisplay := "$63.00";
                        PriceNumeric := Some (float_of_decimal 6300 2);
                        Image := image |})];
          seq := 1; currency_symbol := "$";
          csv_file := "pokemon_2024-01-01.csv";
          xlsx_file := "pokemon_2024-01-01.xlsx" |}.
Proof.
  intros Ht Hi Htp Hip.
  assert (Hprice : parse_price remove_control_chars (init "2024-01-01")
                     (price_fragment pound "63.00" "<span>63.00</span>")
                   = Ok ("$63.00", Some (float_of_decimal 6300 2)))
    by (vm_compute; reflexivity).
  assert (Hrec : product_record remove_control_chars (init "2024-01-01")
                   (titled title image)
                 = Ok {| Name := title; PriceDisplay := "$63.00";
                         PriceNumeric := Some (float_of_decimal 6300 2);
                         Image := image |}).
  { unfold product_record.
    cbn [titled title_texts price_block image_srcs get_default].
    rewrite Hprice, !clean_text_plain by assumption.
    destruct title; [congruence|]. destruct image; [congruence|].
    reflexivity. }
  cbn [crawl]. unfold parse.
  change (products (page_of (titled title image)))
    with [titled title image].
  change (next_hrefs (page_of (titled title image)))
    with (@nil string).
  cbn [parse_products]. unfold parse_product. rewrite Hrec. reflexivity.
Qed.

(** The rows [closed] keeps for such a spider. *)
Lemma cleaned_rows_titled (title image : string) (k : nat)
    (num : option pyfloat) :
  title ≠ EmptyString → image ≠ EmptyString →
  all_chars plain_char title = true → all_chars plain_char image = true →
  cleaned_rows remove_control_chars
    [(k, {| Name := title; PriceDisplay := "$63.00";
            PriceNumeric := num; Image := image |})]
  = [{| row_Name := title; row_Price := "$63.00";
        row_PriceNumeric := num; row_Image := image |}].
Proof.
  intros Ht Hi Htp Hip. unfold cleaned_rows.
  cbn [fold_left]. unfold dedup_step. cbn [snd].
  destruct (decide (_ ∈ ∅)) as [Hin | _]; [set_solver|]. cbn [snd app].
  unfold clean_row. cbn [Name Image PriceDisplay PriceNumeric].
  rewrite !clean_text_plain by assumption.
  now rewrite (str_or_id title), (str_or_id image) by assumption.
Qed.

Lemma filtered_rows_titled (title image : string) (k : nat)
    (num : option pyfloat) :
  title ≠ EmptyString → image ≠ EmptyString →
  all_chars plain_char title = true → all_chars plain_char image = true →
  filtered_rows remove_control_chars
    [(k, {| Name := title; PriceDisplay := "$63.00";
            PriceNumeric := num; Image := image |})]
  = [{| row_Name := title; row_Price := "$63.00";
        row_PriceNumeric := num; row_Image := image |}].
Proof.
  intros Ht Hi Htp Hip. unfold filtered_rows.
  rewrite (cleaned_rows_titled _ _ k num Ht Hi Htp Hip).
  cbn [List.filter]. unfold keep_row. cbn [row_Name row_Price row_Image forallb].
  replace (is_blank "$63.00") with false by reflexivity.
  now rewrite andb_false_l, andb_false_r.
Qed.

End LongTexts.


(** A run of 310 digits reads as the infinity, and the display is
    "$inf". *)
Example parse_price_overflow :
  parse_price remove_control_chars (init "2024-01-01")
    (price_fragment pound (str_repeat "9" 310) "<span>9</span>")
  = Ok ("$inf", Some (S754_infinity false)).
Proof. vm_compute. reflexivity. Qed.

(** The delimited file rounds a tie to the even cent: the amount text
    "0.125" is the float 1/8, which the Price cell holds as it is, and the
    Price string is "$0.12". *)
Example price_tie_to_even :
  ∃ num q,
    parse_price remove_control_chars (init "2024-01-01")
      (price_fragment pound "0.125" "<span>0.125</span>")
    = Ok ("$0.12", Some num)
    ∧ float_value num = Some q ∧ (q == 1 # 8)%Q.
Proof.
  exists (float_of_decimal 125 3). eexists.
  split; [vm_compute; reflexivity|]. split; [vm_compute; reflexivity|].
  reflexivity.
Qed.



(** C10 (counterexample).  A product whose image address has 32768
    characters: after the clean-up the Image of its row is that address,
    and the Image cell of the spreadsheet holds its first 32767 characters
    only. *)
Lemma fallbacks_long_image_counterexample :
  ∃ self r sr,
    crawl remove_control_chars (λ _ h, h) (init "2024-01-01")
      [long_image_page] = Ok self
    ∧ cleaned_rows remove_control_chars (items self) = [r]
    ∧ sheet_rows self 2 (filtered_rows remove_control_chars (items self))
      = [sr]
    ∧ row_Image r = long_image
    ∧ value (cell_img sr) = str_repeat "i" 32767
    ∧ value (cell_img sr) ≠ row_Image r.
Proof.
  unfold long_image_page, long_image.
  pose proof (str_repeat_nonempty "i" 32768 ltac:(discriminate)) as Hne.
  pose proof (str_repeat_all plain_char "i" 32768 eq_refl) as Hplain.
  assert (Hname : "Bulbasaur" ≠ EmptyString) by discriminate.
  assert (Hcell : cell_string (str_repeat "i" 32768) = str_repeat "i" 32767)
    by exact (str_take_repeat "i" 32767 32768 ltac:(discriminate)).
  eexists _, _, _.
  split; [exact (crawl_titled _ _ Hname Hne eq_refl Hplain)|].
  cbn [items].
  rewrite (filtered_rows_titled _ _ 1 (Some (float_of_decimal 6300 2))
             Hname Hne eq_refl Hplain).
  split; [exact (cleaned_rows_titled _ _ 1 (Some (float_of_decimal 6300 2))
                   Hname Hne eq_refl Hplain)|].
  split; [reflexivity|]. split; [reflexivity|].
  cbn [cell_img row_Image]. rewrite (text_cell_value _ _ Hne), Hcell.
  split; [reflexivity|]. apply str_repeat_neq. discriminate.
Qed.

(** C10 (amended).  Every row of [cleaned], and so every row of
    [filtered], has a Name, a Price and an Image that are not empty; the
    fallbacks to "N/A" of the two writers leave them as they are: the
    delimited file gets the three fields of the row, and the strings
    handed to the Name and Image cells are the Name and the Image of the
    row.  The cells keep the first 32767 characters of them, which is the
    whole string when it is not longer.  After a crawl, the Price cell
    holds the number of the row when there is one and the Price of the
    row, which is then "N/A", when there is none. *)
Theorem fallbacks_never_fire (fix_text : string → string) :
  (∀ d,
     Forall (λ r,
               row_Name r ≠ EmptyString ∧ row_Price r ≠ EmptyString
               ∧ row_Image r ≠ EmptyString
               ∧ str_or (row_Name r) NA = row_Name r
               ∧ str_or (row_Price r) NA = row_Price r
               ∧ str_or (row_Image r) NA = row_Image r
               ∧ csv_record r = [row_Name r; row_Price r; row_Image r]
               ∧ ∀ i,
                   value (text_cell i (row_Name r))
                   = cell_string (row_Name r)
                   ∧ value (text_cell i (row_Image r))
                     = cell_string (row_Image r)
                   ∧ ((N.of_nat (String.length (row_Name r))
                       ≤ max_cell_length)%N →
                      value (text_cell i (row_Name r)) = row_Name r)
                   ∧ ((N.of_nat (String.length (row_Image r))
                       ≤ max_cell_length)%N →
                      value (text_cell i (row_Image r)) = row_Image r))
       (cleaned_rows fix_text d)
     ∧ filtered_rows fix_text d ⊆ cleaned_rows fix_text d
     ∧ csv_shown (filtered_rows fix_text d)
       = map (λ r, [row_Name r; row_Price r; row_Image r])
           (filtered_rows fix_text d))
  ∧ (∀ urljoin today pages,
       ∃ self,
         crawl fix_text urljoin (init today) pages = Ok self
         ∧ Forall2 (λ r sr,
                      value (cell_name sr) = cell_string (row_Name r)
                      ∧ value (cell_img sr) = cell_string (row_Image r)
                      ∧ value (cell_price sr)
                        = match row_PriceNumeric r with
                          | Some num => VNum num
                          | None => VStr (row_Price r)
                          end)
             (filtered_rows fix_text (items self))
             (sheet_rows self 2 (filtered_rows fix_text (items self)))).
Proof.
  split.
  - intros d.
    assert (Hne : Forall (λ r, row_Name r ≠ EmptyString
                               ∧ row_Price r ≠ EmptyString
                               ∧ row_Image r ≠ EmptyString)
                    (cleaned_rows fix_text d)).
    { apply Forall_forall. intros r Hr.
      apply cleaned_rows_elem in Hr as (e & _ & ->).
      apply clean_row_nonempty. }
    assert (Hsub : filtered_rows fix_text d ⊆ cleaned_rows fix_text d)
      by (intros r Hr; now apply filtered_rows_elem in Hr).
    split; [|split; [exact Hsub|]].
    + eapply Forall_impl; [exact Hne|]. intros r (Hn & Hp & Hi).
      rewrite !str_or_id by assumption.
      rewrite (csv_record_fields r Hn Hp Hi).
      do 7 (split; [first [assumption | reflexivity]|]).
      intros i. rewrite !text_cell_value by assumption.
      split; [reflexivity|]. split; [reflexivity|].
      split; apply cell_string_short.
    + unfold csv_shown. apply map_ext_in. intros r Hr.
      apply list_elem_of_In, Hsub in Hr. rewrite Forall_forall in Hne.
      destruct (Hne r Hr) as (Hn & Hp & Hi). now apply csv_record_fields.
  - intros urljoin today pages.
    destruct (crawl_init fix_text urljoin today pages)
      as (self & Hc & (Hcur & _ & _) & _ & _ & Hok).
    exists self. split; [exact Hc|].
    eapply Forall2_impl; [apply (sheet_rows_cells self _ 2 Hcur Hok)|].
    intros r sr (Hn & Hi & _ & Hv). split; [exact Hn|]. split; [exact Hi|].
    destruct (row_PriceNumeric r); [apply Hv|].
    destruct Hv as [-> ->]. reflexivity.
Qed.

Lemma fallbacks_never_fire_witness :
  csv_shown (filtered_rows remove_control_chars
               [(1%nat, bulbasaur_item); (2%nat, ivysaur_item)])
  = [["Bulbasaur"; "$63.00"; "img1.png"]; ["Ivysaur"; "N/A"; "img2.png"]].
Proof.
  rewrite (proj2 (proj2 (proj1 (fallbacks_never_fire remove_control_chars)
                           [(1%nat, bulbasaur_item); (2%nat, ivysaur_item)]))).
  reflexivity.
Defined.

(** ** [self.items]: an ordered dictionary *)

Section OrderedDict.

Lemma od_get_set_eq (d : ordered_dict) (k : nat) (v : item) :
  od_get (od_set d k v) k = Some v.
Proof.
  induction d as [|[k' v'] d IH]; cbn [od_set od_get].
  - now rewrite Nat.eqb_refl.
  - destruct (Nat.eqb_spec k' k) as [-> | Hne]; cbn [od_get].
    + now rewrite Nat.eqb_refl.
    + destruct (Nat.eqb_spec k' k); [congruence | exact IH].
Qed.

Lemma od_get_set_ne (d : ordered_dict) (k k0 : nat) (v : item) :
  k0 ≠ k → od_get (od_set d k v) k0 = od_get d k0.
Proof.
  intros Hne. induction d as [|[k' v'] d IH]; cbn [od_set od_get].
  - destruct (Nat.eqb_spec k k0); [congruence | reflexivity].
  - destruct (Nat.eqb_spec k' k) as [-> | Hk]; cbn [od_get].
    + destruct (Nat.eqb_spec k k0); [congruence | reflexivity].
    + now rewrite IH.
Qed.

Lemma od_set_keys (d : ordered_dict) (k : nat) (v : item) :
  od_keys (od_set d k v)
  = if decide (k ∈ od_keys d) then od_keys d else od_keys d ++ [k].
Proof.
  unfold od_keys. induction d as [|[k' v'] d IH].
  - cbn [od_set map fst]. destruct (decide (k ∈ [])) as [Hin | _];
      [inversion Hin | reflexivity].
  - cbn [od_set]. destruct (Nat.eqb_spec k' k) as [-> | Hne].
    + cbn [map fst].
      destruct (decide (k ∈ k :: map fst d)) as [_ | Hout]; [reflexivity|].
      exfalso. apply Hout. now left.
    + cbn [map fst]. rewrite IH.
      destruct (decide (k ∈ map fst d)) as [Hin | Hout];
        destruct (decide (k ∈ k' :: map fst d)) as [Hin' | Hout'];
        try reflexivity.
      * exfalso. apply Hout'. now right.
      * apply elem_of_cons in Hin' as [-> | Hin']; [congruence | contradiction].
Qed.

Lemma od_get_entries (d : ordered_dict) :
  NoDup (od_keys d) →
  Forall (λ e, od_get d (fst e) = Some (snd e)) d.
Proof.
  induction d as [|[k v] d IH]; [constructor|].
  cbn [od_keys map fst]. intros Hnd. apply NoDup_cons in Hnd as [Hk Hnd].
  constructor.
  - cbn [fst snd od_get]. now rewrite Nat.eqb_refl.
  - eapply Forall_impl; [apply (IH Hnd)|]. intros [k' v'] H.
    cbn [fst snd od_get] in *. rewrite <- H.
    destruct (Nat.eqb_spec k k') as [-> | _]; [|reflexivity].
    exfalso. apply Hk.
    assert (Hsome : is_Some (od_get d k')) by (rewrite H; eauto).
    clear -Hsome. induction d as [|[k0 v0] d IHd].
    + destruct Hsome as [x Hx]. discriminate.
    + cbn [od_get] in Hsome. cbn [od_keys map fst].
      destruct (Nat.eqb_spec k0 k') as [-> | _]; [now left|].
      right. now apply IHd.
Qed.

Lemma fold_by_key (fix_text : string → string) (d0 d : ordered_dict)
    (st : gset (string * string * string) * list row) :
  Forall (λ e, od_get d0 (fst e) = Some (snd e)) d →
  fold_left (dedup_step_key fix_text d0) (od_keys d) st
  = fold_left (dedup_step fix_text) d st.
Proof.
  intros Hget. revert st. induction Hget as [|[k v] d Hkv _ IH]; intros st;
    [reflexivity|].
  cbn [od_keys map fst fold_left]. unfold dedup_step_key at 2.
  cbn [fst snd] in Hkv. rewrite Hkv. apply IH.
Qed.

End OrderedDict.

(** X6.  [self.items[k] = v] and [self.items[k]]: the value stored under a
    key is the one read back, the other keys read as before, a key already
    there keeps its place and a new key goes last; keys stay distinct. *)
Theorem od_set_get (d : ordered_dict) (k : nat) (v : item) :
  od_get (od_set d k v) k = Some v
  ∧ (∀ k0, k0 ≠ k → od_get (od_set d k v) k0 = od_get d k0)
  ∧ (k ∈ od_keys d → od_keys (od_set d k v) = od_keys d)
  ∧ (k ∉ od_keys d → od_set d k v = d ++ [(k, v)])
  ∧ (NoDup (od_keys d) → NoDup (od_keys (od_set d k v))).
Proof.
  split; [apply od_get_set_eq|]. split; [intros k0; apply od_get_set_ne|].
  split; [|split; [apply od_set_fresh|]].
  - intros Hin. rewrite od_set_keys. now destruct (decide _).
  - intros Hnd. rewrite od_set_keys. destruct (decide _) as [_ | Hout];
      [exact Hnd|].
    apply NoDup_app. repeat split; [exact Hnd | | apply NoDup_singleton].
    intros x Hx Hx'. apply list_elem_of_singleton in Hx'. now subst.
Qed.

Lemma od_set_get_witness :
  od_keys (od_set [(1%nat, bulbasaur_item); (2%nat, ivysaur_item)]
             1 bulbasaur_again) = [1; 2]%nat
  ∧ od_set [(1%nat, bulbasaur_item)] 2 ivysaur_item
    = [(1%nat, bulbasaur_item)] ++ [(2%nat, ivysaur_item)]
  ∧ od_get (od_set [(1%nat, bulbasaur_item)] 2 ivysaur_item) 1
    = Some bulbasaur_item
  ∧ NoDup (od_keys (od_set [(1%nat, bulbasaur_item)] 2 ivysaur_item)).
Proof.
  split; [|split; [|split]].
  - apply (od_set_get [(1%nat, bulbasaur_item); (2%nat, ivysaur_item)]
             1 bulbasaur_again). now left.
  - apply (od_set_get [(1%nat, bulbasaur_item)] 2 ivysaur_item).
    intros H. apply list_elem_of_singleton in H. discriminate.
  - rewrite (proj1 (proj2 (od_set_get [(1%nat, bulbasaur_item)]
                              2 ivysaur_item))); [reflexivity | discriminate].
  - apply (od_set_get [(1%nat, bulbasaur_item)] 2 ivysaur_item).
    apply NoDup_singleton.
Defined.

(** X7.  The loop of [closed] goes through the keys of [self.items] and
    reads each entry by its key; when the keys are distinct, as they are
    after any crawl, this visits the entries in insertion order and builds
    the rows of [cleaned_rows]. *)
Theorem cleaned_rows_by_key_entries (fix_text : string → string) :
  (∀ d, NoDup (od_keys d) →
        cleaned_rows_by_key fix_text d = cleaned_rows fix_text d)
  ∧ (∀ urljoin today pages,
       ∃ self,
         crawl fix_text urljoin (init today) pages = Ok self
         ∧ cleaned_rows_by_key fix_text (items self)
           = cleaned_rows fix_text (items self)).
Proof.
  assert (Hgen : ∀ d, NoDup (od_keys d) →
            cleaned_rows_by_key fix_text d = cleaned_rows fix_text d).
  { intros d Hnd. unfold cleaned_rows_by_key, cleaned_rows.
    now rewrite fold_by_key by now apply od_get_entries. }
  split; [exact Hgen|]. intros urljoin today pages.
  destruct (crawl_init fix_text urljoin today pages)
    as (self & Hc & (_ & Hkeys & _) & _).
  exists self. split; [exact Hc|]. apply Hgen. rewrite Hkeys. apply NoDup_seq.
Qed.

Lemma cleaned_rows_by_key_entries_witness :
  cleaned_rows_by_key remove_control_chars
    [(1%nat, bulbasaur_item); (2%nat, ivysaur_item); (3%nat, bulbasaur_again)]
  = [clean_row remove_control_chars bulbasaur_item;
     clean_row remove_control_chars ivysaur_item].
Proof.
  rewrite (proj1 (cleaned_rows_by_key_entries remove_control_chars)).
  - reflexivity.
  - unfold od_keys. cbn [map fst]. apply (NoDup_seq 1 3).
Defined.

(** ** [parse] and the crawl: records are only ever added at the end *)

Section Appends.

Variable fix_text : string → string.
Variable urljoin : string → string → string.

Lemma items_combine (d : ordered_dict) :
  d = combine (od_keys d) (od_values d).
Proof.
  induction d as [|[k v] d IH]; [reflexivity|].
  cbn [od_keys od_values map fst snd combine]. f_equal. exact IH.
Qed.

Lemma combine_app_same {A B} (a a' : list A) (b b' : list B) :
  length a = length b →
  combine (a ++ a') (b ++ b') = combine a b ++ combine a' b'.
Proof.
  revert b. induction a as [|x a IH]; intros [|y b] Hlen;
    try discriminate; [reflexivity|].
  cbn [app combine]. f_equal. apply IH. now injection Hlen.
Qed.

(** From the invariant and [extends]: the entries after, in full. *)
Lemma extends_items (self self' : spider) (ps : list product) :
  spider_inv self → spider_inv self' → extends fix_text self self' ps →
  ∃ recs,
    Forall2 (λ p it, product_record fix_text self p = Ok it) ps recs
    ∧ items self'
      = items self ++ combine (List.seq (S (seq self)) (length ps)) recs
    ∧ seq self' = (seq self + length ps)%nat.
Proof.
  intros (_ & Hk & _) (_ & Hk' & _) (recs & HF & HV & HN & _).
  exists recs. split; [exact HF|]. split; [|exact HN].
  rewrite (items_combine (items self')), Hk', HV, HN, seq_app.
  rewrite combine_app_same.
  - now rewrite <- Hk, <- items_combine.
  - rewrite <- Hk. unfold od_keys, od_values. now rewrite !length_map.
Qed.

Lemma crawl_app (self : spider) (pages1 pages2 : list response) :
  crawl fix_text urljoin self (pages1 ++ pages2)
  = (self1 ← crawl fix_text urljoin self pages1;
     crawl fix_text urljoin self1 pages2).
Proof.
  revert self. induction pages1 as [|r pages1 IH]; intros self; [reflexivity|].
  cbn [app crawl]. destruct (parse fix_text urljoin self r) as [[s nx]|e];
    [apply IH | reflexivity].
Qed.

End Appends.

(** X8.  The loop of [parse] over the products of a page, on a spider
    that holds the keys 1..[seq], only appends: the entries the spider held
    stay as they were, in place; after them comes one record per product,
    in page order, under the keys [seq]+1, [seq]+2, ..., also for a product
    whose price cannot be read.  The request [parse] yields after the loop
    is not part of the statement. *)
Theorem parse_appends
    (fix_text : string → string) (self : spider) (ps : list product) :
  spider_inv self →
  ∃ self' recs,
    parse_products fix_text self ps = Ok self'
    ∧ Forall2 (λ p it, product_record fix_text self p = Ok it) ps recs
    ∧ items self'
      = items self ++ combine (List.seq (S (seq self)) (length ps)) recs
    ∧ seq self' = (seq self + length ps)%nat
    ∧ spider_inv self'.
Proof.
  intros Hinv.
  destruct (parse_products_spec fix_text ps self Hinv) as (s1 & E1 & I1 & X1).
  destruct (extends_items fix_text self s1 _ Hinv I1 X1)
    as (recs & HF & Hitems & Hseq).
  exists s1, recs. auto.
Qed.

Lemma parse_appends_witness :
  ∃ self' recs,
    parse_products remove_control_chars (init "2024-01-01") (products page1)
    = Ok self'
    ∧ Forall2 (λ p it, product_record remove_control_chars
                         (init "2024-01-01") p = Ok it)
        (products page1) recs
    ∧ items self'
      = items (init "2024-01-01")
        ++ combine (List.seq 1 (length (products page1))) recs
    ∧ seq self' = (0 + length (products page1))%nat
    ∧ spider_inv self'.
Proof.
  exact (parse_appends remove_control_chars
           (init "2024-01-01") (products page1) (init_inv "2024-01-01")).
Defined.

(** X9.  A crawl of [pages1] followed by [pages2] is the crawl of [pages2]
    continued from the spider the crawl of [pages1] leaves; the entries
    stored for [pages1] are a prefix of the final ones, and the sequence
    numbers go on from where they were: they are not reset per page. *)
Theorem crawl_continues
    (fix_text : string → string) (urljoin : string → string → string)
    (today : string) (pages1 pages2 : list response) :
  ∃ s1 s2 recs,
    crawl fix_text urljoin (init today) pages1 = Ok s1
    ∧ crawl fix_text urljoin (init today) (pages1 ++ pages2) = Ok s2
    ∧ crawl fix_text urljoin s1 pages2 = Ok s2
    ∧ seq s1 = length (concat (map products pages1))
    ∧ items s2
      = items s1
        ++ combine (List.seq (S (seq s1))
                      (length (concat (map products pages2)))) recs
    ∧ Forall2 (λ p it, product_record fix_text (init today) p = Ok it)
        (concat (map products pages2)) recs.
Proof.
  destruct (crawl_init fix_text urljoin today pages1)
    as (s1 & E1 & I1 & (_ & _ & _ & N1 & C1 & _) & _).
  destruct (crawl_spec fix_text urljoin pages2 s1 I1) as (s2 & E2 & I2 & X2).
  destruct (extends_items fix_text s1 s2 _ I1 I2 X2)
    as (recs & HF & Hitems & _).
  exists s1, s2, recs. split; [exact E1|].
  split; [rewrite crawl_app, E1; exact E2|]. split; [exact E2|].
  split; [exact N1|]. split; [exact Hitems|].
  eapply Forall2_impl; [exact HF|]. intros p it <-.
  now apply product_record_currency.
Qed.

(** ** [closed]: what the loop and the filter keep *)

Section Kept.

Variable fix_text : string → string.


Lemma dedup_from_all_seen (d : ordered_dict)
    (seen : gset (string * string * string)) :
  (∀ e, e ∈ d → entry_key fix_text e ∈ seen) →
  dedup_from fix_text seen d = [].
Proof.
  induction d as [|e d IH]; intros Hall; [reflexivity|].
  rewrite dedup_from_seen_head by (apply Hall; now left).
  apply IH. intros e' He'. apply Hall. now right.
Qed.



Lemma entry_keys_app (a b : ordered_dict) :
  entry_keys fix_text (a ++ b)
  = entry_keys fix_text a ∪ entry_keys fix_text b.
Proof.
  unfold entry_keys. rewrite map_app. apply list_to_set_app_L.
Qed.

Lemma elem_of_entry_keys (d : ordered_dict) (k : string * string * string) :
  k ∈ entry_keys fix_text d ↔ ∃ e, e ∈ d ∧ entry_key fix_text e = k.
Proof.
  unfold entry_keys. rewrite elem_of_list_to_set, list_elem_of_fmap.
  split; intros (e & H1 & H2); exists e; auto.
Qed.

End Kept.



(** X11.  Seeing records again adds no row: when every entry of [d'] has
    the triple of some entry of [d], the rows built from [d] followed by
    [d'] are those built from [d].  So a crawl that visits the same pages
    twice exports the rows of a crawl that visits them once. *)
Theorem revisit_adds_no_row (fix_text : string → string) :
  (∀ d d',
     (∀ e', e' ∈ d' → entry_key fix_text e' ∈ entry_keys fix_text d) →
     cleaned_rows fix_text (d ++ d') = cleaned_rows fix_text d
     ∧ filtered_rows fix_text (d ++ d') = filtered_rows fix_text d)
  ∧ (∀ urljoin today pages,
       ∃ s1 s2,
         crawl fix_text urljoin (init today) pages = Ok s1
         ∧ crawl fix_text urljoin (init today) (pages ++ pages) = Ok s2
         ∧ filtered_rows fix_text (items s2)
           = filtered_rows fix_text (items s1)).
Proof.
  assert (Hgen : ∀ d d',
            (∀ e', e' ∈ d' → entry_key fix_text e' ∈ entry_keys fix_text d) →
            cleaned_rows fix_text (d ++ d') = cleaned_rows fix_text d).
  { intros d d' Hseen. rewrite !cleaned_rows_dedup_from, dedup_from_app.
    rewrite (dedup_from_all_seen fix_text d' (entry_keys fix_text d ∪ ∅));
      [apply app_nil_r|].
    intros e' He'. apply elem_of_union_l. now apply Hseen. }
  split.
  - intros d d' Hseen. split; [now apply Hgen|].
    unfold filtered_rows. now rewrite Hgen.
  - intros urljoin today pages.
    destruct (crawl_init fix_text urljoin today pages)
      as (s1 & E1 & I1 & (r1 & F1 & V1 & _) & _).
    destruct (crawl_spec fix_text urljoin pages s1 I1)
      as (s2 & E2 & I2 & (r2 & F2 & V2 & _ & C2 & _)).
    exists s1, s2. split; [exact E1|].
    split; [rewrite crawl_app, E1; exact E2|].
    change (od_values (items s1) = r1) in V1.
    assert (Hr : r2 = r1).
    { apply (Forall2_functional
               (λ p, ok_value (product_record fix_text (init today) p))
               (concat (map products pages))).
      - eapply Forall2_impl; [exact F2|]. intros p it Hp.
        rewrite (product_record_currency fix_text (init today) s1).
        + now rewrite Hp.
        + destruct I1 as [-> _]. reflexivity.
      - eapply Forall2_impl; [exact F1|]. intros p it ->. reflexivity. }
    subst r2. rewrite <- V1 in V2.
    unfold filtered_rows. f_equal.
    rewrite !cleaned_rows_dedup_from.
    rewrite (dedup_from_values fix_text (items s2) (items s1 ++ items s1))
      by (unfold od_values in *; now rewrite map_app).
    rewrite <- !cleaned_rows_dedup_from. apply Hgen.
    intros e' He'. now apply entry_keys_elem.
Qed.

Lemma revisit_adds_no_row_witness :
  filtered_rows remove_control_chars
    ([(1%nat, bulbasaur_item); (2%nat, ivysaur_item)]
       ++ [(3%nat, bulbasaur_again)])
  = filtered_rows remove_control_chars
      [(1%nat, bulbasaur_item); (2%nat, ivysaur_item)].
Proof.
  apply (proj1 (revisit_adds_no_row remove_control_chars)).
  intros e' He'. apply list_elem_of_singleton in He'. subst e'.
  apply elem_of_entry_keys. exists (1%nat, bulbasaur_item).
  split; [now left | reflexivity].
Defined.

(** X12.  [closed] overwrites and touches nothing else: every file but
    its two destinations is after the call what it was before; what it
    leaves does not depend on what the destinations held; and when the two
    names differ the delimited file is there after the call with its
    bytes, while the spreadsheet is there with its sheet when no cell was
    refused and is absent when [closed] ended with the exception of a
    refused cell: the old one was removed and none was saved. *)
Theorem closed_overwrites (fix_text : string → string)
    (self : spider) (reason now : string) (fs : gmap string file) :
  (∀ p, p ≠ csv_file self → p ≠ xlsx_file self →
        closed fix_text self reason now fs !! p = fs !! p)
  ∧ (∀ fs',
       (∀ p, p ≠ csv_file self → p ≠ xlsx_file self → fs' !! p = fs !! p) →
       closed fix_text self reason now fs'
       = closed fix_text self reason now fs)
  ∧ (csv_file self ≠ xlsx_file self →
     closed fix_text self reason now fs !! csv_file self
     = Some (CsvFile
               (utf8_sig (csv_text (filtered_rows fix_text (items self)))))
     ∧ (closed_raises fix_text self = false →
        closed fix_text self reason now fs !! xlsx_file self
        = Some (XlsxFile
                  (workbook self now (filtered_rows fix_text (items self)))))
     ∧ (closed_raises fix_text self = true →
        closed fix_text self reason now fs !! xlsx_file self = None)).
Proof.
  assert (Hother : ∀ g p, p ≠ csv_file self → p ≠ xlsx_file self →
            closed fix_text self reason now g !! p = g !! p).
  { intros g p Hc Hx. unfold closed. cbv zeta.
    destruct (rows_refused _);
      [|rewrite lookup_insert_ne by congruence];
      rewrite lookup_insert_ne by congruence;
      rewrite lookup_delete_ne by congruence;
      now rewrite lookup_delete_ne by congruence. }
  split; [apply Hother|]. split.
  - intros fs' Hsame.
    assert (Hdel : ∀ p,
              delete (xlsx_file self) (delete (csv_file self) fs') !! p
              = delete (xlsx_file self) (delete (csv_file self) fs) !! p).
    { intros p. destruct (decide (p = xlsx_file self)) as [-> | Hx];
        [now rewrite !lookup_delete_eq|].
      rewrite !(lookup_delete_ne _ (xlsx_file self)) by congruence.
      destruct (decide (p = csv_file self)) as [-> | Hc];
        [now rewrite !lookup_delete_eq|].
      rewrite !lookup_delete_ne by congruence. now apply Hsame. }
    apply map_eq in Hdel. unfold closed. cbv zeta. now rewrite Hdel.
  - intros Hne. split; [now apply closed_csv|].
    split; [apply closed_xlsx | now apply closed_no_xlsx].
Qed.

Lemma closed_overwrites_witness :
  closed remove_control_chars (init "2024-01-01") "finished" "10:00:00"
    {[ "pokemon_2024-01-01.csv" := CsvFile []; "notes.txt" := CsvFile [] ]}
  = closed remove_control_chars (init "2024-01-01") "finished" "10:00:00"
      {[ "notes.txt" := CsvFile [] ]}
  ∧ closed remove_control_chars (init "2024-01-01") "finished" "10:00:00"
      {[ "notes.txt" := CsvFile [] ]} !! "notes.txt"
    = Some (CsvFile [])
  ∧ closed (λ t, t)
      {| items := [(1%nat, {| Name := marked_title; PriceDisplay := NA;
                              PriceNumeric := None; Image := "img1.png" |})];
         seq := 1; currency_symbol := "$";
         csv_file := "out.csv"; xlsx_file := "out.xlsx" |}
      "finished" "10:00:00" {[ "out.xlsx" := CsvFile [] ]} !! "out.xlsx"
    = None.
Proof.
  destruct (closed_overwrites remove_control_chars (init "2024-01-01")
              "finished" "10:00:00" {[ "notes.txt" := CsvFile [] ]})
    as (Hother & Hsame & _).
  split; [|split].
  - apply Hsame. intros p Hc Hx.
    rewrite lookup_insert_ne; [reflexivity|].
    intros E. apply Hc. now rewrite <- E.
  - rewrite Hother by discriminate. reflexivity.
  - apply (closed_overwrites (λ t, t)); [discriminate | reflexivity].
Defined.

(** ** The delimited file: nothing is lost in the writing *)

Section CsvBytes.

Lemma read_quoted_field (s rest : string) :
  starts_with (λ c, Ascii.eqb c quote) rest = false →
  read_quoted (double_quotes s +:+ String quote rest) = Some (s, rest).
Proof.
  intros Hrest. induction s as [|c s IH].
  - rewrite append_nil_l. cbn [read_quoted]. rewrite Ascii.eqb_refl.
    destruct rest as [|d rest]; [reflexivity|].
    cbn [starts_with] in Hrest. now rewrite Hrest.
  - cbn [double_quotes]. destruct (Ascii.eqb c quote) eqn:Hc.
    + apply Ascii.eqb_eq in Hc. subst c. rewrite !append_cons.
      cbn [read_quoted]. rewrite !Ascii.eqb_refl. now rewrite IH.
    + rewrite append_cons. cbn [read_quoted]. now rewrite Hc, IH.
Qed.

Lemma csv_line_unfold (a b c T : string) :
  csv_line [a; b; c] +:+ T
  = String quote (double_quotes a +:+ String quote
      (String comma (String quote (double_quotes b +:+ String quote
         (String comma (String quote (double_quotes c +:+ String quote
            (String CR (String LF T)))))))))%string.
Proof.
  unfold csv_line, csv_field. cbn [map join_comma].
  repeat (rewrite ?append_cons, ?append_assoc, ?append_nil_l).
  reflexivity.
Qed.

Lemma csv_line_inj (a b c a' b' c' T T' : string) :
  csv_line [a; b; c] +:+ T = csv_line [a'; b'; c'] +:+ T' →
  a = a' ∧ b = b' ∧ c = c' ∧ T = T'.
Proof.
  rewrite !csv_line_unfold. intros [= H].
  apply (f_equal read_quoted) in H.
  rewrite !read_quoted_field in H by reflexivity.
  injection H as -> H.
  apply (f_equal read_quoted) in H.
  rewrite !read_quoted_field in H by reflexivity.
  injection H as -> H.
  apply (f_equal read_quoted) in H.
  rewrite !read_quoted_field in H by reflexivity.
  injection H as -> H. auto.
Qed.

Lemma csv_lines_inj (rows rows' : list row) :
  concat_str (map (λ r, csv_line (csv_record r)) rows)
  = concat_str (map (λ r, csv_line (csv_record r)) rows') →
  map csv_record rows = map csv_record rows'.
Proof.
  revert rows'. induction rows as [|r rows IH]; intros [|r' rows'];
    cbn [map concat_str]; unfold csv_record; rewrite ?csv_line_unfold;
    try reflexivity; try discriminate.
  rewrite <- !csv_line_unfold. intros H.
  apply csv_line_inj in H as (Ha & Hb & Hc & HT).
  rewrite Ha, Hb, Hc. f_equal. now apply IH.
Qed.

Lemma utf8_decode_char (c : ascii) (rest : list Byte.byte) :
  utf8_decode (utf8_char c ++ rest)
  = option_map (String c) (utf8_decode rest).
Proof.
  destruct c as [[|] [|] [|] [|] [|] [|] [|] [|]]; reflexivity.
Qed.

Lemma utf8_decode_utf8 (s : string) : utf8_decode (utf8 s) = Some s.
Proof.
  induction s as [|c s IH]; [reflexivity|].
  cbn [utf8]. now rewrite utf8_decode_char, IH.
Qed.

Lemma utf8_inj (s s' : string) : utf8 s = utf8 s' → s = s'.
Proof.
  intros H. apply (f_equal utf8_decode) in H.
  rewrite !utf8_decode_utf8 in H. now injection H.
Qed.

End CsvBytes.

(** X13.  The bytes of the delimited file determine the rows: two lists
    of rows that give the same file give the same fields, row by row,
    whatever quotes, commas or line breaks the fields hold. *)
Theorem csv_bytes_determine_rows (rows rows' : list row) :
  utf8_sig (csv_text rows) = utf8_sig (csv_text rows') →
  csv_shown rows = csv_shown rows'.
Proof.
  unfold utf8_sig. intros H. apply app_inv_head, utf8_inj in H.
  unfold csv_text in H. apply append_inj_l in H.
  now apply csv_lines_inj.
Qed.

Lemma csv_bytes_determine_rows_witness :
  csv_shown [ {| row_Name := "Bulbasaur"; row_Price := "$63.00";
                 row_PriceNumeric := Some (float_of_decimal 63 0);
                 row_Image := "img1.png" |} ]
  = csv_shown [ {| row_Name := "Bulbasaur"; row_Price := "$63.00";
                   row_PriceNumeric := None;
                   row_Image := "img1.png" |} ].
Proof. apply csv_bytes_determine_rows. reflexivity. Defined.

(** ** The sheet: styles and layout *)

Section Sheet.

Lemma sheet_rows_lookup (self : spider) (rows : list row) (k i : nat)
    (sr : sheet_row) :
  sheet_rows self k rows !! i = Some sr →
  ∃ r, rows !! i = Some r
       ∧ sr = {| cell_name := text_cell (k + i) (row_Name r);
                 cell_price := price_cell self (k + i) r;
                 cell_img := text_cell (k + i) (row_Image r) |}.
Proof.
  revert k i. induction rows as [|r rows IH]; intros k i; [discriminate|].
  cbn [sheet_rows]. destruct i as [|i].
  - intros [= <-]. exists r. rewrite Nat.add_0_r. split; reflexivity.
  - cbn [lookup list_lookup]. intros H.
    destruct (IH (S k) i H) as (r' & Hr' & ->). exists r'.
    replace (k + S i)%nat with (S k + i)%nat by lia. split; [exact Hr'|].
    reflexivity.
Qed.

Lemma sheet_rows_length (self : spider) (rows : list row) (k : nat) :
  length (sheet_rows self k rows) = length rows.
Proof.
  revert k. induction rows as [|r rows IH]; intros k; [reflexivity|].
  cbn [sheet_rows length]. now rewrite IH.
Qed.

Lemma text_cell_font (k : nat) (v : string) :
  font (text_cell k v) = FontNA ↔ value (text_cell k v) = NA.
Proof.
  cbn [text_cell font value].
  destruct (String.eqb_spec (cell_string (str_or v NA)) NA).
  - tauto.
  - split; [discriminate | contradiction].
Qed.

Lemma num_gt_between (a : pynum) :
  num_gt a (PInt 80) = false → num_gt a (PInt 12) = true →
  ∃ q, num_value a = XFin q ∧ (12 # 1 <= q)%Q ∧ (q <= 80 # 1)%Q.
Proof.
  unfold num_gt. cbn [num_value]. destruct (num_value a) as [q| | |];
    try discriminate.
  intros H80 H12. exists q. split; [reflexivity|].
  apply negb_false_iff, Qle_bool_iff in H80.
  apply negb_true_iff in H12. split; [|exact H80].
  apply Qlt_le_weak, Qnot_le_lt. intros Hle.
  apply Qle_bool_iff in Hle. congruence.
Qed.

End Sheet.

(** X15.  The data rows of the sheet: row [i] of [filtered], counted from
    0, is the sheet row [i] + 2 and there are as many sheet rows as rows;
    its three cells are bordered and tinted together, the first data row
    and every second one after it; a Name or Image cell is in the muted
    font exactly when it shows "N/A"; the Price cell holds the number
    under the currency format in the plain font when the row has a number,
    and "N/A" in the muted font when it has none.  The note goes to the
    sheet row two below the last data row. *)
Theorem sheet_row_styles (self : spider) (now : string)
    (filtered : list row) (i : nat) (sr : sheet_row) :
  ws_rows (workbook self now filtered) !! i = Some sr →
  ∃ r,
    filtered !! i = Some r
    ∧ fill (cell_name sr) = (if Nat.even i then FillAlt else FillNone)
    ∧ fill (cell_price sr) = fill (cell_name sr)
    ∧ fill (cell_img sr) = fill (cell_name sr)
    ∧ border (cell_name sr) = true ∧ border (cell_price sr) = true
    ∧ border (cell_img sr) = true
    ∧ (font (cell_name sr) = FontNA ↔ value (cell_name sr) = NA)
    ∧ (font (cell_img sr) = FontNA ↔ value (cell_img sr) = NA)
    ∧ match row_PriceNumeric r with
      | Some num =>
          value (cell_price sr) = VNum num
          ∧ number_format (cell_price sr)
            = currency_symbol self +:+ "#,##0.00"
          ∧ font (cell_price sr) = FontDefault
      | None =>
          value (cell_price sr) = VStr NA
          ∧ number_format (cell_price sr) = General
          ∧ font (cell_price sr) = FontNA
      end
    ∧ length (ws_rows (workbook self now filtered)) = length filtered
    ∧ ws_meta_row (workbook self now filtered)
      = (length (ws_rows (workbook self now filtered)) + 1 + 2)%nat.
Proof.
  cbn [workbook ws_rows ws_meta_row]. intros H.
  destruct (sheet_rows_lookup _ _ _ _ _ H) as (r & Hr & ->).
  exists r. cbn [cell_name cell_price cell_img].
  split; [exact Hr|]. split; [reflexivity|].
  split; [unfold price_cell; now destruct (row_PriceNumeric r)|].
  split; [reflexivity|]. split; [reflexivity|].
  split; [unfold price_cell; now destruct (row_PriceNumeric r)|].
  split; [reflexivity|]. split; [apply text_cell_font|].
  split; [apply text_cell_font|].
  split; [unfold price_cell; destruct (row_PriceNumeric r); auto|].
  rewrite sheet_rows_length. split; [reflexivity | lia].
Qed.

Lemma sheet_row_styles_witness :
  ∃ r sr,
    ws_rows (workbook (init "2024-01-01") "10:00:00"
               [clean_row remove_control_chars bulbasaur_item;
                clean_row remove_control_chars ivysaur_item]) !! 1%nat
    = Some sr
    ∧ [clean_row remove_control_chars bulbasaur_item;
       clean_row remove_control_chars ivysaur_item] !! 1%nat = Some r
    ∧ fill (cell_name sr) = FillNone
    ∧ font (cell_price sr) = FontNA.
Proof.
  destruct (sheet_row_styles (init "2024-01-01") "10:00:00"
              [clean_row remove_control_chars bulbasaur_item;
               clean_row remove_control_chars ivysaur_item] 1
              {| cell_name := text_cell 3 "Ivysaur";
                 cell_price :=
                   price_cell (init "2024-01-01") 3
                     (clean_row remove_control_chars ivysaur_item);
                 cell_img := text_cell 3 "img2.png" |} eq_refl)
    as (r & Hr & Hfill & _ & _ & _ & _ & _ & _ & _ & Hprice & _).
  injection Hr as <-. eexists _, _.
  split; [reflexivity|]. split; [reflexivity|].
  split; [exact Hfill | apply Hprice].
Defined.

(** X16.  The width [closed] gives a column is never below 12 and never
    above 80, whatever the texts of the column, and so are the widths of
    the three columns of the sheet. *)
Theorem column_width_bounds :
  (∀ texts,
     ∃ q, num_value (column_width texts) = XFin q
          ∧ (12 # 1 <= q)%Q ∧ (q <= 80 # 1)%Q)
  ∧ (∀ self filtered,
       length (column_widths self filtered) = 3%nat
       ∧ Forall (λ w, ∃ q, num_value w = XFin q
                           ∧ (12 # 1 <= q)%Q ∧ (q <= 80 # 1)%Q)
           (column_widths self filtered)).
Proof.
  assert (Hone : ∀ texts,
            ∃ q, num_value (column_width texts) = XFin q
                 ∧ (12 # 1 <= q)%Q ∧ (q <= 80 # 1)%Q).
  { intros texts. unfold column_width. cbv zeta.
    set (m := fold_left _ texts (PInt 0)).
    unfold py_min. destruct (num_gt m (PInt 80)) eqn:H80.
    - exists (80 # 1)%Q. split; [reflexivity|]. split; discriminate.
    - unfold py_max. destruct (num_gt m (PInt 12)) eqn:H12.
      + now apply num_gt_between.
      + exists (12 # 1)%Q. split; [reflexivity|]. split; discriminate. }
  split; [exact Hone|]. intros self filtered.
  split; [reflexivity|]. unfold column_widths. apply Forall_fmap.
  apply Forall_forall. intros texts _. apply Hone.
Qed.
